(** * Expense tracker: aggregation, reconciliation, budgets, categorisation

    A shallow embedding of the logic of the components [Dashboard],
    [TripsTab] and [ExpenseInput], of the library [groqCategorizer] and of
    the two handlers of [App] that decide whether there are trips, followed
    by the properties the specification states about it and by further
    properties of the code. Line numbers are those of the listings
    [src/components/Dashboard.jsx], which holds [Dashboard] and then
    [ExpenseInput], [src/components/TripsTab.jsx], which holds [TripsTab]
    and then [groqCategorizer], and [src/App.jsx].

    Conventions of the embedding.
    - A JavaScript value that may be missing is a [jsv]: [Undef] for an absent
      key, [Null] for SQL/JSON null, [Val] for a present value.
    - Money is an exact rational ([Q]); the binary rounding of JavaScript
      numbers is not part of the model.
    - A row object of the [expenses] table is a record with one [jsv] per
      column; object spread is the field-wise override.
    - A JavaScript object used as a dictionary ([catMap], [idToName]) is a
      [gmap] keyed by strings.
    - Store calls (Supabase) are total functions on tables (lists of rows);
      the success path of each call is modelled, and where a handler tests
      the error of a call or the answer to [confirm], that is an input.
    - Local time is UTC. *)

From Stdlib Require Import ZArith QArith Lia Ascii.
From stdpp Require Import gmap strings list sorting.

Local Open Scope string_scope.
Local Open Scope Z_scope.

(** ** JavaScript values and strings *)

Module JS.

Inductive jsv (A : Type) : Type :=
  | Undef : jsv A
  | Null : jsv A
  | Val : A -> jsv A.
Arguments Undef {A}.
Arguments Null {A}.
Arguments Val {A} _.

#[export] Instance jsv_eq_dec {A} `{EqDecision A} : EqDecision (jsv A).
Proof. solve_decision. Defined.

#[export] Instance jsv_countable {A} `{Countable A} : Countable (jsv A).
Proof.
  refine (inj_countable'
            (λ v, match v with Undef => None | Null => Some None | Val a => Some (Some a) end)
            (λ o, match o with None => Undef | Some None => Null | Some (Some a) => Val a end)
            _).
  by intros [ | | a ].
Defined.

(** [a === b] on string-valued cells. *)
Definition strict_eq (a b : jsv string) : bool :=
  match a, b with
  | Undef, Undef => true
  | Null, Null => true
  | Val x, Val y => bool_decide (x = y)
  | _, _ => false
  end.

(** Truthiness of a string-valued cell: [undefined], [null] and the empty
    string are falsy. *)
Definition truthy (a : jsv string) : bool :=
  match a with
  | Val s => negb (bool_decide (s = ""))
  | _ => false
  end.

(** [Number(x || 0)] for a numeric cell. *)
Definition num_or0 (a : jsv Q) : Q :=
  match a with
  | Val q => if Qeq_bool q 0 then 0%Q else q
  | _ => 0%Q
  end.

(** *** Characters *)

Definition code (c : ascii) : Z := Z.of_N (Ascii.N_of_ascii c).

Definition is_digit (c : ascii) : bool := (48 <=? code c) && (code c <=? 57).

(** The white space of [\s] and [trim], restricted to ASCII. *)
Definition is_space (c : ascii) : bool :=
  (code c =? 32) || ((9 <=? code c) && (code c <=? 13)).

Definition lower_ascii (c : ascii) : ascii :=
  if (65 <=? code c) && (code c <=? 90)
  then Ascii.ascii_of_N (Z.to_N (code c + 32))
  else c.

(** [s.toLowerCase()], on ASCII letters. *)
Fixpoint toLowerCase (s : string) : string :=
  match s with
  | EmptyString => EmptyString
  | String c t => String (lower_ascii c) (toLowerCase t)
  end.

(** [s.startsWith(p)]. *)
Fixpoint startsWith (p s : string) : bool :=
  match p, s with
  | EmptyString, _ => true
  | String a p', String b s' => bool_decide (a = b) && startsWith p' s'
  | String _ _, EmptyString => false
  end.

(** [s.includes(sub)]. *)
Fixpoint includes (s sub : string) : bool :=
  startsWith sub s ||
  match s with
  | EmptyString => false
  | String _ t => includes t sub
  end.

Fixpoint trimStart (s : string) : string :=
  match s with
  | String c t => if is_space c then trimStart t else s
  | EmptyString => EmptyString
  end.

Fixpoint rev_string (acc s : string) : string :=
  match s with
  | EmptyString => acc
  | String c t => rev_string (String c acc) t
  end.

Definition trimEnd (s : string) : string :=
  rev_string "" (trimStart (rev_string "" s)).

Definition trim (s : string) : string := trimEnd (trimStart s).

(** [s.split(/\s+/)]: the pieces between maximal runs of white space; a
    run at either end leaves an empty piece there. [cur] is the piece being
    read (reversed), [after_sep] tells that the previous character was white
    space. *)
Fixpoint split_ws_from (cur : string) (after_sep : bool) (s : string) : list string :=
  match s with
  | EmptyString => [rev_string "" cur]
  | String c t =>
      if is_space c
      then if after_sep then split_ws_from cur true t
           else rev_string "" cur :: split_ws_from "" true t
      else split_ws_from (String c cur) false t
  end.

Definition split_ws (s : string) : list string := split_ws_from "" false s.

(** *** Decimal digits *)

Definition digit_char (n : Z) : ascii := Ascii.ascii_of_N (Z.to_N (48 + n mod 10)).

Definition digit_val (c : ascii) : Z := code c - 48.

(** Value of a run of decimal digits, most significant first. *)
Fixpoint digits_value (acc : Z) (s : string) : Z :=
  match s with
  | EmptyString => acc
  | String c t => digits_value (10 * acc + digit_val c) t
  end.

(** Longest prefix of digits, and what follows it. *)
Fixpoint span_digits (s : string) : string * string :=
  match s with
  | String c t =>
      if is_digit c
      then let '(d, r) := span_digits t in (String c d, r)
      else (EmptyString, s)
  | EmptyString => (EmptyString, EmptyString)
  end.

(** [n] written with [w] digits (the low [w] digits of [n]). *)
Fixpoint pad (w : nat) (n : Z) : string :=
  match w with
  | O => EmptyString
  | S k => pad k (n / 10) +:+ String (digit_char n) EmptyString
  end.

(** [String(n)] for an integer [n], as a template literal prints it: the
    decimal digits without leading zero, after the sign of a negative
    number. [fuel] bounds the number of digits. *)
Fixpoint decimal (fuel : nat) (n : Z) : string :=
  match fuel with
  | O => EmptyString
  | S k =>
      if n <? 10 then String (digit_char n) EmptyString
      else decimal k (n / 10) +:+ String (digit_char n) EmptyString
  end.

Definition ToString (n : Z) : string :=
  if n <? 0 then "-" +:+ decimal (S (Z.to_nat (Z.log2 (- n)))) (- n)
  else decimal (S (Z.to_nat (Z.log2 n))) n.

(** [a < b], [a <= b], [a >= b] on strings: code units are compared from the
    left, a proper prefix is smaller. *)
Fixpoint str_compare (a b : string) : comparison :=
  match a, b with
  | EmptyString, EmptyString => Eq
  | EmptyString, String _ _ => Lt
  | String _ _, EmptyString => Gt
  | String x a', String y b' =>
      match code x ?= code y with
      | Eq => str_compare a' b'
      | c => c
      end
  end.

Definition str_le (a b : string) : bool :=
  match str_compare a b with Gt => false | _ => true end.

Definition str_ge (a b : string) : bool :=
  match str_compare a b with Lt => false | _ => true end.

End JS.

(** ** Dates: [Date.UTC], [toISOString], [new Date(string)]

    A time value is a number of milliseconds since 1970-01-01T00:00:00Z, or
    [None] for the NaN of an invalid date. *)

Module Time.
Import JS.

Definition msPerDay : Z := 86400000.

(** Day number of the civil date [y]-[m]-[d] of the proleptic Gregorian
    calendar, [m] in 1..12; day 0 is 1970-01-01. *)
Definition days_from_civil (y m d : Z) : Z :=
  let y' := if m <=? 2 then y - 1 else y in
  let era := y' / 400 in
  let yoe := y' - era * 400 in
  let mp := if 2 <? m then m - 3 else m + 9 in
  let doy := (153 * mp + 2) / 5 + d - 1 in
  let doe := yoe * 365 + yoe / 4 - yoe / 100 + doy in
  era * 146097 + doe - 719468.

(** The civil date of the day numbered [doe] in a cycle of 400 years that
    starts on 1 March: year of the cycle, month, day. *)
Definition civil_of_doe (doe : Z) : Z * Z * Z :=
  let yoe := (doe - doe / 1460 + doe / 36524 - doe / 146096) / 365 in
  let doy := doe - (365 * yoe + yoe / 4 - yoe / 100) in
  let mp := (5 * doy + 2) / 153 in
  let d := doy - (153 * mp + 2) / 5 + 1 in
  let m := if mp <? 10 then mp + 3 else mp - 9 in
  (if m <=? 2 then yoe + 1 else yoe, m, d).

(** The civil date of a day number. *)
Definition civil_from_days (z : Z) : Z * Z * Z :=
  let z' := z + 719468 in
  let era := z' / 146097 in
  let '(y, m, d) := civil_of_doe (z' - era * 146097) in
  (y + era * 400, m, d).

(** [TimeClip]: time values beyond 8.64e15 ms are NaN. *)
Definition TimeClip (t : Z) : option Z :=
  if Z.abs t <=? 8640000000000000 then Some t else None.

(** [Date.UTC(year, monthIndex, day, hours, minutes, seconds, ms)]:
    [monthIndex] counts from 0, fields out of their range carry over, a
    year in 0..99 means 1900 + year. *)
Definition Date_UTC (year monthIndex day hours minutes seconds ms : Z) : option Z :=
  let yr := if (0 <=? year) && (year <=? 99) then 1900 + year else year in
  let ym := yr + monthIndex / 12 in
  let mn := monthIndex mod 12 in
  let dayno := days_from_civil ym (mn + 1) 1 + day - 1 in
  let time := hours * 3600000 + minutes * 60000 + seconds * 1000 + ms in
  TimeClip (dayno * msPerDay + time).

Definition iso_year (y : Z) : string :=
  if (0 <=? y) && (y <=? 9999) then pad 4 y
  else (if y <? 0 then "-" else "+") +:+ pad 6 (Z.abs y).

(** [new Date(t).toISOString()]: [YYYY-MM-DDTHH:mm:ss.sssZ]. *)
Definition toISOString (t : Z) : string :=
  let '(y, m, d) := civil_from_days (t / msPerDay) in
  let r := t mod msPerDay in
  iso_year y +:+ "-" +:+ pad 2 m +:+ "-" +:+ pad 2 d +:+ "T" +:+
  pad 2 (r / 3600000) +:+ ":" +:+ pad 2 (r / 60000 mod 60) +:+ ":" +:+
  pad 2 (r / 1000 mod 60) +:+ "." +:+ pad 3 (r mod 1000) +:+ "Z".

(** *** Reading a date string

    [new Date(s)] for the ISO forms met in this application:
    [YYYY-MM-DD], optionally followed by [THH:mm], [:ss], a fraction of a
    second and a zone ([Z] or a signed [HH:mm]). A date alone is UTC; a date
    and time without zone is local time, and the model's local zone is UTC.
    Any other string is an invalid date here. *)

Fixpoint read_digits (n : nat) (acc : Z) (s : string) : option (Z * string) :=
  match n with
  | O => Some (acc, s)
  | S k =>
      match s with
      | String c t =>
          if is_digit c then read_digits k (10 * acc + digit_val c) t else None
      | EmptyString => None
      end
  end.

Definition expect (c : ascii) (s : string) : option string :=
  match s with
  | String x t => if bool_decide (x = c) then Some t else None
  | EmptyString => None
  end.

Definition days_in_month (y m : Z) : Z :=
  days_from_civil (y + m / 12) (m mod 12 + 1) 1 - days_from_civil y m 1.

(** Milliseconds of a fraction of a second given by its digits. *)
Definition frac_ms (d : string) : Z :=
  digits_value 0 (String.substring 0 3 (d +:+ "00")).

(** The zone suffix, in minutes east of UTC; [Some None] when there is none. *)
Definition read_zone (s : string) : option (option Z) :=
  match s with
  | EmptyString => Some None
  | String c t =>
      if bool_decide (c = "Z"%char) then
        (if bool_decide (t = "") then Some (Some 0) else None)
      else if bool_decide (c = "+"%char) || bool_decide (c = "-"%char) then
        '(hh, r1) ← read_digits 2 0 t;
        r2 ← expect ":" r1;
        '(mm, r3) ← read_digits 2 0 r2;
        if bool_decide (r3 = "") && (hh <=? 23) && (mm <=? 59)
        then Some (Some ((if bool_decide (c = "-"%char) then -1 else 1) * (hh * 60 + mm)))
        else None
      else None
  end.

(** Seconds and fraction after [HH:mm]: milliseconds and the rest. *)
Definition read_seconds (s : string) : option (Z * string) :=
  match expect ":" s with
  | None => Some (0, s)
  | Some r =>
      '(ss, r1) ← read_digits 2 0 r;
      if 59 <? ss then None else
      match expect "." r1 with
      | None => Some (ss * 1000, r1)
      | Some r2 =>
          let '(d, r3) := span_digits r2 in
          if bool_decide (d = "") then None else Some (ss * 1000 + frac_ms d, r3)
      end
  end.

(** Time of day in milliseconds and zone offset in minutes. *)
Definition read_time (s : string) : option (Z * Z) :=
  match s with
  | EmptyString => Some (0, 0)
  | String c t =>
      if bool_decide (c = "T"%char) then
        '(hh, r1) ← read_digits 2 0 t;
        r2 ← expect ":" r1;
        '(mi, r3) ← read_digits 2 0 r2;
        '(sms, r4) ← read_seconds r3;
        z ← read_zone r4;
        if (hh <=? 23) && (mi <=? 59)
        then Some (hh * 3600000 + mi * 60000 + sms, default 0 z)
        else None
      else None
  end.

Definition Date_parse (s : string) : option Z :=
  '(y, r1) ← read_digits 4 0 s;
  r2 ← expect "-" r1;
  '(m, r3) ← read_digits 2 0 r2;
  r4 ← expect "-" r3;
  '(d, r5) ← read_digits 2 0 r4;
  '(tod, off) ← read_time r5;
  if (1 <=? m) && (m <=? 12) && (1 <=? d) && (d <=? days_in_month y m)
  then TimeClip (days_from_civil y m d * msPerDay + tod - off * 60000)
  else None.

(** [getFullYear()] and [getMonth()] (from 0) of a date, local zone UTC. *)
Definition getFullYear (t : Z) : Z := (civil_from_days (t / msPerDay)).1.1.
Definition getMonth (t : Z) : Z := (civil_from_days (t / msPerDay)).1.2 - 1.

End Time.

(** ** Tables *)

Import JS Time.

(** A row of [expenses], as the dashboard selects it and as change
    notifications carry it (a notification may leave columns out). *)
Module Expense.
Record t : Type := mk {
  id : jsv string;
  user_id : jsv string;
  trip_id : jsv string;
  category_id : jsv string;
  amount : jsv Q;
  kind : jsv string;
  note : jsv string;
  original_text : jsv string;
  date : jsv string;
  created_at : jsv string
}.
End Expense.

Module Category.
Record t : Type := mk { id : string; name : string }.
End Category.

Module Trip.
Record t : Type := mk { id : string; name : string; start_date : string; end_date : string }.
End Trip.

(** A row of [budgets]; [trip_id = None] is SQL null, the casual context. *)
Module Budget.
Record t : Type := mk {
  user_id : string;
  trip_id : option string;
  month_year : string;
  amount : Q
}.
End Budget.

(** ** Comparisons and sums on [Q] as the code writes them *)

Module Num.

Definition Qltb (a b : Q) : bool := negb (Qle_bool b a).

(** [Math.min(a, b)]. *)
Definition Math_min (a b : Q) : Q := if Qle_bool a b then a else b.

(** [Math.max(a, b)]. *)
Definition Math_max (a b : Q) : Q := if Qle_bool a b then b else a.

(** [Number(q || 0)] for a value that is a number already. *)
Definition or0 (q : Q) : Q := num_or0 (Val q).

End Num.

(** ** The active view: the props of [Dashboard] *)

Module View.
Record t : Type := mk {
  user_id : string;
  trip : option Trip.t;
  startDateStr : string;
  endDateStr : string
}.
End View.

(** ** Comparisons made by the store *)

Module Store.

(** [.eq(column, x)] on a text column: SQL null equals nothing, and a value
    that is missing on the caller's side matches no row. *)
Definition sql_eq (cell x : jsv string) : bool :=
  match cell, x with
  | Val a, Val b => bool_decide (a = b)
  | _, _ => false
  end.

(** [column <= x] and [column >= x] on a date column, for a bound given as
    a string: both sides are compared as instants. *)
Definition date_le (a b : string) : bool :=
  match Date_parse a, Date_parse b with
  | Some x, Some y => x <=? y
  | _, _ => false
  end.

Definition date_ge (a b : string) : bool := date_le b a.

End Store.

(** ** Range Query Builder *)

Module Range.

(** [s.split('-')]. [cur] is the piece being read, reversed. *)
Fixpoint split_dash_from (cur : string) (s : string) : list string :=
  match s with
  | EmptyString => [rev_string "" cur]
  | String c t =>
      if bool_decide (c = "-"%char)
      then rev_string "" cur :: split_dash_from "" t
      else split_dash_from (String c cur) t
  end.

Definition split_dash (s : string) : list string := split_dash_from "" s.

(** [Number(s)] for a piece of a date string: white space around is
    dropped, the empty string is 0, a run of decimal digits is its value;
    any other piece is NaN ([None]) here. *)
Definition Number (s : string) : option Z :=
  let s' := trim s in
  let '(d, r) := span_digits s' in
  if bool_decide (r = "") then Some (digits_value 0 d) else None.

(** [const [y, m, d] = str.split('-').map(Number)]; a missing piece is
    [undefined], which behaves as NaN in what follows. *)
Definition ymd (s : string) : option Z * option Z * option Z :=
  let l := Number <$> split_dash s in
  (mjoin (l !! 0%nat), mjoin (l !! 1%nat), mjoin (l !! 2%nat)).

(** [!n] for a number: 0 and NaN are falsy. *)
Definition falsy (n : option Z) : bool :=
  match n with
  | Some z => z =? 0
  | None => true
  end.

(** [new Date(Date.UTC(y, m - 1, d, h, mi, s, ms)).toISOString()]; it throws
    on NaN ([None]). *)
Definition utc_iso (y m d : option Z) (h mi s ms : Z) : option string :=
  y' ← y; m' ← m; d' ← d;
  toISOString <$> Date_UTC y' (m' - 1) d' h mi s ms.

(** The bounds kept in [startIsoRef] and [endIsoRef]
    (Dashboard.jsx, effect at lines 57-65). *)
Definition isoRefs (startDateStr endDateStr : string) : option (string * string) :=
  let '(sy, sm, sd) := ymd startDateStr in
  let '(ey, em, ed) := ymd endDateStr in
  startIso ← utc_iso sy sm sd 0 0 0 0;
  endIso ← utc_iso ey em ed 23 59 59 999;
  Some (startIso, endIso).

(** The bounds [loadRange] computes (lines 188-198); [None] when the guard
    on the parsed pieces stops the load. *)
Definition loadRange_bounds (startDateStr endDateStr : string) : option (string * string) :=
  let '(sy, sm, sd) := ymd startDateStr in
  let '(ey, em, ed) := ymd endDateStr in
  if falsy sy || falsy sm || falsy sd || falsy ey || falsy em || falsy ed
  then None
  else isoRefs startDateStr endDateStr.

(** The instant of a [date] cell given to [new Date(...)]: [null] is the
    epoch, [undefined] is invalid. *)
Definition instant (d : jsv string) : option Z :=
  match d with
  | Val s => Date_parse s
  | Null => Some 0
  | Undef => None
  end.

(** [a < b] and [a > b] on dates; false when either is invalid. *)
Definition date_lt (a b : option Z) : bool :=
  match a, b with
  | Some x, Some y => x <? y
  | _, _ => false
  end.

(** Range test of the optimistic handler (line 305): the record is kept
    unless its date is before the start or after the end. *)
Definition in_range_dates (bounds : option (string * string)) (d : jsv string) : bool :=
  let expDate := instant d in
  let s := bounds ≫= (λ b, Date_parse b.1) in
  let e := bounds ≫= (λ b, Date_parse b.2) in
  negb (date_lt expDate s || date_lt e expDate).

(** Range test of the change-notification handlers (lines 329 and 346):
    [newIso >= startIso && newIso <= endIso] on the strings themselves. A
    cell that is not a string compares as a number with a bound that is not
    one, which is false. *)
Definition in_range_strings (bounds : string * string) (d : jsv string) : bool :=
  match d with
  | Val newIso => str_ge newIso bounds.1 && str_le newIso bounds.2
  | _ => false
  end.

(** Range test of the store for [.gte('date', startIso).lte('date', endIso)]:
    the column and the bounds are compared as instants. *)
Definition in_range_store (bounds : string * string) (d : jsv string) : bool :=
  match d, Date_parse bounds.1, Date_parse bounds.2 with
  | Val s, Some lo, Some hi =>
      match Date_parse s with
      | Some t => (lo <=? t) && (t <=? hi)
      | None => false
      end
  | _, _, _ => false
  end.

End Range.

(** ** Dashboard.jsx *)

Module Dashboard.
Import Range Num.

(** *** Bulk load ([loadRange], lines 182-242) *)

(** The filters of the query: owner, date range, trip context. [isCasual]
    is [!trip?.id]. *)
Definition load_filter (v : View.t) (bounds : string * string) (r : Expense.t) : bool :=
  strict_eq (Expense.user_id r) (Val (View.user_id v)) &&
  in_range_store bounds (Expense.date r) &&
  match View.trip v with
  | Some t =>
      if truthy (Val (Trip.id t))
      then strict_eq (Expense.trip_id r) (Val (Trip.id t))
      else strict_eq (Expense.trip_id r) Null
  | None => strict_eq (Expense.trip_id r) Null
  end.

(** The instant the store orders a row by. *)
Definition row_time (r : Expense.t) : Z := default 0 (instant (Expense.date r)).

(** [.order('date', { ascending: false })]. *)
Definition newer_first (a b : Expense.t) : Prop := row_time b <= row_time a.

#[export] Instance newer_first_dec a b : Decision (newer_first a b).
Proof. unfold newer_first. apply _. Defined.

(** The rows the query returns: filtered, newest first, at most 1000. The
    rows are given whole; the select list of the code names every column
    but [user_id], which nothing reads from a loaded row. *)
Definition loadRange_query (table : list Expense.t) (v : View.t) (bounds : string * string)
  : list Expense.t :=
  take 1000 (merge_sort newer_first (filter (λ r, load_filter v bounds r = true) table)).

(** [loadRange]: the new value of [expenses]; with unusable dates the
    function returns before querying and the state stays as it was. *)
Definition loadRange (table : list Expense.t) (v : View.t) (expenses : list Expense.t)
  : list Expense.t :=
  match loadRange_bounds (View.startDateStr v) (View.endDateStr v) with
  | None => expenses
  | Some bounds => loadRange_query table v bounds
  end.

(** *** Aggregation (effect at lines 257-296) *)

Record group : Type := mk_group {
  g_id : string;
  g_name : string;
  total : Q;
  rows : list Expense.t
}.

Record partition : Type := mk_partition {
  lendedTotal : Q;
  borrowedTotal : Q;
  catExpenses : list Expense.t
}.

(** One turn of the first loop. *)
Definition partition_step (p : partition) (row : Expense.t) : partition :=
  if strict_eq (Expense.kind row) (Val "lended") then
    mk_partition (lendedTotal p + num_or0 (Expense.amount row))%Q (borrowedTotal p) (catExpenses p)
  else if strict_eq (Expense.kind row) (Val "borrowed") then
    mk_partition (lendedTotal p) (borrowedTotal p + num_or0 (Expense.amount row))%Q (catExpenses p)
  else
    mk_partition (lendedTotal p) (borrowedTotal p) (catExpenses p ++ [row]).

Definition partition_kinds (expenses : list Expense.t) : partition :=
  foldl partition_step (mk_partition 0%Q 0%Q []) expenses.

(** [idToName], built from [categories]. *)
Definition idToName (categories : list Category.t) : gmap string string :=
  foldl (λ m c, <[Category.id c := Category.name c]> m) ∅ categories.

(** [row.category_id || 'uncategorized']. *)
Definition group_key (row : Expense.t) : string :=
  match Expense.category_id row with
  | Val c => if truthy (Val c) then c else "uncategorized"
  | _ => "uncategorized"
  end.

(** [row.category_id ? (idToName[row.category_id] || 'Unknown') : 'Other']. *)
Definition group_name (names : gmap string string) (row : Expense.t) : string :=
  match Expense.category_id row with
  | Val c =>
      if truthy (Val c)
      then match names !! c with
           | Some n => if truthy (Val n) then n else "Unknown"
           | None => "Unknown"
           end
      else "Other"
  | _ => "Other"
  end.

(** One turn of the second loop. *)
Definition add_row (names : gmap string string) (catMap : gmap string group) (row : Expense.t)
  : gmap string group :=
  let key := group_key row in
  let g := match catMap !! key with
           | Some g => g
           | None => mk_group key (group_name names row) 0%Q []
           end in
  <[key := mk_group (g_id g) (g_name g) (or0 (total g) + num_or0 (Expense.amount row))%Q
                    (rows g ++ [row])]> catMap.

(** Every known category gets a group, empty when it has no row. *)
Definition ensure_category (catMap : gmap string group) (c : Category.t) : gmap string group :=
  match catMap !! Category.id c with
  | Some _ => catMap
  | None => <[Category.id c := mk_group (Category.id c) (Category.name c) 0%Q []]> catMap
  end.

(** The value given to [setGrouped]. *)
Definition compute_grouped (expenses : list Expense.t) (categories : list Category.t)
  : gmap string group :=
  foldl ensure_category
    (foldl (add_row (idToName categories)) ∅ (catExpenses (partition_kinds expenses)))
    categories.

(** [Object.values(grouped).reduce((s, g) => s + Number(g.total || 0), 0)]. *)
Definition totalSpent (grouped : gmap string group) : Q :=
  map_fold (λ _ g s, (s + or0 (total g))%Q) 0%Q grouped.

(** Lines 537-538 and the progress bar (line 724). *)
Definition balance (totalBudget spent : Q) : Q := (or0 totalBudget - or0 spent)%Q.

Definition progress (totalBudget spent : Q) : Q :=
  if Qltb 0 totalBudget then ((spent / totalBudget) * 100)%Q else 0%Q.

(** The number printed by [Progress: {progress.toFixed(1)}%]. *)
Definition progress_text (totalBudget spent : Q) : Q := progress totalBudget spent.

(** The width of the bar, in percent. *)
Definition bar_width (totalBudget spent : Q) : Q := Math_min (progress totalBudget spent) 100%Q.

(** *** Live reconciliation (lines 298-376) *)

(** [prev.some(r => r.id === x)]. *)
Definition has_id (x : jsv string) (prev : list Expense.t) : bool :=
  existsb (λ r, strict_eq (Expense.id r) x) prev.

(** The updater shared by both insert paths. *)
Definition prepend_new (row : Expense.t) (prev : list Expense.t) : list Expense.t :=
  if has_id (Expense.id row) prev then prev else row :: prev.

(** [handleAdded], the listener of the [expense-added] event. [refs] are
    the bounds in [startIsoRef] and [endIsoRef]. *)
Definition handleAdded (v : View.t) (refs : option (string * string)) (detail : Expense.t)
    (prev : list Expense.t) : list Expense.t :=
  if negb (strict_eq (Expense.user_id detail) (Val (View.user_id v))) then prev
  else if match View.trip v with
          | Some t => negb (strict_eq (Expense.trip_id detail) (Val (Trip.id t)))
          | None => negb (strict_eq (Expense.trip_id detail) Null)
          end then prev
  else if negb (in_range_dates refs (Expense.date detail)) then prev
  else prepend_new detail prev.

(** The guard [startIsoRef.current && endIsoRef.current]. *)
Definition refs_set (refs : option (string * string)) : option (string * string) :=
  match refs with
  | Some (s, e) => if truthy (Val s) && truthy (Val e) then Some (s, e) else None
  | None => None
  end.

(** The INSERT notification; [payload_new] is [payload.new]. *)
Definition on_insert (refs : option (string * string)) (payload_new : option Expense.t)
    (prev : list Expense.t) : list Expense.t :=
  match payload_new, refs_set refs with
  | Some new, Some bounds =>
      if in_range_strings bounds (Expense.date new) then prepend_new new prev else prev
  | _, _ => prev
  end.

(** [{ ...existing, ...newRow }], one column at a time: a column the
    notification carries replaces the held one. *)
Definition over {A} (held pushed : jsv A) : jsv A :=
  match pushed with
  | Undef => held
  | _ => pushed
  end.

Definition spread (existing newRow : Expense.t) : Expense.t :=
  Expense.mk
    (over (Expense.id existing) (Expense.id newRow))
    (over (Expense.user_id existing) (Expense.user_id newRow))
    (over (Expense.trip_id existing) (Expense.trip_id newRow))
    (over (Expense.category_id existing) (Expense.category_id newRow))
    (over (Expense.amount existing) (Expense.amount newRow))
    (over (Expense.kind existing) (Expense.kind newRow))
    (over (Expense.note existing) (Expense.note newRow))
    (over (Expense.original_text existing) (Expense.original_text newRow))
    (over (Expense.date existing) (Expense.date newRow))
    (over (Expense.created_at existing) (Expense.created_at newRow)).

(** [prev.find(r => r.id === newRow.id)]. *)
Definition find_id (x : jsv string) (prev : list Expense.t) : option Expense.t :=
  List.find (λ r, strict_eq (Expense.id r) x) prev.

(** The updater of the UPDATE notification (lines 343-354). *)
Definition update_rows (bounds : string * string) (newRow : Expense.t) (prev : list Expense.t)
  : list Expense.t :=
  if negb (in_range_strings bounds (Expense.date newRow))
  then List.filter (λ r, negb (strict_eq (Expense.id r) (Expense.id newRow))) prev
  else
    let mergedRow := match find_id (Expense.id newRow) prev with
                     | Some existingRow => spread existingRow newRow
                     | None => newRow
                     end in
    (λ r, if strict_eq (Expense.id r) (Expense.id newRow) then mergedRow else r) <$> prev.

Definition on_update (refs : option (string * string)) (payload_new : option Expense.t)
    (prev : list Expense.t) : list Expense.t :=
  match payload_new, refs_set refs with
  | Some newRow, Some bounds => update_rows bounds newRow prev
  | _, _ => prev
  end.

(** The DELETE notification; [payload_old] is [payload.old]. *)
Definition on_delete (payload_old : option Expense.t) (prev : list Expense.t) : list Expense.t :=
  match payload_old with
  | Some old => List.filter (λ r, negb (strict_eq (Expense.id r) (Expense.id old))) prev
  | None => prev
  end.

(** *** Budget ledger (lines 17-30, 153-179, 379-424) *)

(** [format(current, 'yyyy-MM')] for the month numbered [n] = 12 * year +
    month index (years 0 to 9999). *)
Definition format_yyyy_MM (n : Z) : string :=
  pad 4 (n / 12) +:+ "-" +:+ pad 2 (n mod 12 + 1).

(** The [while] loop of [getMonthsInRange]: [current] advances by one month
    until it passes [endMonthStart]. *)
Fixpoint months_loop (fuel : nat) (current endMonthStart : Z) : list string :=
  match fuel with
  | O => []
  | S k =>
      if current <=? endMonthStart
      then format_yyyy_MM current :: months_loop k (current + 1) endMonthStart
      else []
  end.

(** [getMonthsInRange(start, end)] on two dates; with an invalid date the
    loop condition is false at once. The fuel is the number of turns the
    loop takes. *)
Definition getMonthsInRange (start end_ : option Z) : list string :=
  match start, end_ with
  | Some s, Some e =>
      let current := getFullYear s * 12 + getMonth s in
      let endMonthStart := getFullYear e * 12 + getMonth e in
      months_loop (Z.to_nat (endMonthStart - current + 1)) current endMonthStart
  | _, _ => []
  end.

(** The [months] of [loadTotalBudget] and [saveBudget]. *)
Definition budget_months (v : View.t) : list string :=
  match View.trip v with
  | Some t => getMonthsInRange (Date_parse (Trip.start_date t)) (Date_parse (Trip.end_date t))
  | None => getMonthsInRange (Date_parse (View.startDateStr v)) (Date_parse (View.endDateStr v))
  end.

(** The context of a view as [budgets.trip_id] holds it. *)
Definition context (v : View.t) : option string := Trip.id <$> View.trip v.

(** The rows selected by [.eq('user_id', ...).in('month_year', months)] and
    the [trip_id] filter. *)
Definition budget_match (user_id : string) (ctx : option string) (months : list string)
    (b : Budget.t) : bool :=
  bool_decide (Budget.user_id b = user_id) &&
  bool_decide (Budget.month_year b ∈ months) &&
  bool_decide (Budget.trip_id b = ctx).

(** The sum [loadTotalBudget] puts in [totalBudget] for given months. *)
Definition period_budget (budgets : list Budget.t) (user_id : string) (ctx : option string)
    (months : list string) : Q :=
  foldl (λ sum row, (sum + or0 (Budget.amount row))%Q) 0%Q
        (List.filter (budget_match user_id ctx months) budgets).

(** [loadTotalBudget]; [None] when it returns without setting the state. *)
Definition loadTotalBudget (budgets : list Budget.t) (v : View.t) : option Q :=
  if negb (truthy (Val (View.user_id v))) then None
  else Some (period_budget budgets (View.user_id v) (context v) (budget_months v)).



(** *** Deleting a category (lines 485-532) *)

Record state : Type := mk_state {
  db_expenses : list Expense.t;
  db_categories : list Category.t;
  categories : list Category.t;
  expenses : list Expense.t
}.

Definition with_category (c : jsv string) (e : Expense.t) : Expense.t :=
  Expense.mk (Expense.id e) (Expense.user_id e) (Expense.trip_id e) c (Expense.amount e)
    (Expense.kind e) (Expense.note e) (Expense.original_text e) (Expense.date e)
    (Expense.created_at e).

(** [otherCategory ? otherCategory.id : null]. *)
Definition otherCategoryId (categories : list Category.t) : jsv string :=
  match List.find (λ c, bool_decide (toLowerCase (Category.name c) = "other")) categories with
  | Some c => Val (Category.id c)
  | None => Null
  end.

(** [deleteCategory(categoryId, _)], once confirmed and with both store
    calls succeeding. *)
Definition deleteCategory (st : state) (categoryId : string) : state :=
  let other := otherCategoryId (categories st) in
  let refers (e : Expense.t) := strict_eq (Expense.category_id e) (Val categoryId) in
  mk_state
    (if truthy other
     then (λ e, if refers e then with_category other e else e) <$> db_expenses st
     else db_expenses st)
    (List.filter (λ c, negb (bool_decide (Category.id c = categoryId))) (db_categories st))
    (List.filter (λ c, negb (bool_decide (Category.id c = categoryId))) (categories st))
    ((λ e, if refers e then with_category other e else e) <$> expenses st).

(** *** Selecting and deleting rows (lines 81-132 and 467-483) *)

(** [selectedExpenses]: a [Set] of row ids. *)
Definition selection : Type := gset (jsv string).

(** The updater of [toggleSelect(id)]. *)
Definition toggleSelect (id : jsv string) (prev : selection) : selection :=
  if bool_decide (id ∈ prev) then prev ∖ {[ id ]} else prev ∪ {[ id ]}.

(** The updater of [selectAllInGroup(groupId)]; [grouped[groupId]] is read
    first and an unknown group leaves the selection as it is. *)
Definition selectAllInGroup (grouped : gmap string group) (groupId : string)
    (prev : selection) : selection :=
  match grouped !! groupId with
  | None => prev
  | Some group =>
      if forallb (λ r, bool_decide (Expense.id r ∈ prev)) (rows group)
      then foldl (λ newSet r, newSet ∖ {[ Expense.id r ]}) prev (rows group)
      else foldl (λ newSet r, newSet ∪ {[ Expense.id r ]}) prev (rows group)
  end.

(** The [expenses] table together with the two pieces of state that the
    delete handlers change. *)
Record listing : Type := mk_listing {
  l_table : list Expense.t;
  l_expenses : list Expense.t;
  l_selected : selection
}.

(** [.in('id', ids)]: the rows of the table whose id is one of [ids]. *)
Definition sql_in (cell : jsv string) (ids : selection) : bool :=
  match cell with
  | Val _ => bool_decide (cell ∈ ids)
  | _ => false
  end.

(** [deleteMultiple()] (lines 93-113). [confirmed] is the answer to the
    [confirm] dialog and [error] tells whether the store call failed. *)
Definition deleteMultiple (confirmed error : bool) (st : listing) : listing :=
  if bool_decide (size (l_selected st) = 0%nat) then st
  else if negb confirmed then st
  else if error then st
  else
    mk_listing
      (List.filter (λ r, negb (sql_in (Expense.id r) (l_selected st))) (l_table st))
      (List.filter (λ r, negb (bool_decide (Expense.id r ∈ l_selected st))) (l_expenses st))
      ∅.

(** [deleteExpense(row)] (lines 467-483). *)
Definition deleteExpense (confirmed error : bool) (row : Expense.t) (st : listing) : listing :=
  if negb confirmed then st
  else if error then st
  else
    mk_listing
      (List.filter (λ r, negb (Store.sql_eq (Expense.id r) (Expense.id row))) (l_table st))
      (List.filter (λ r, negb (strict_eq (Expense.id r) (Expense.id row))) (l_expenses st))
      (if bool_decide (Expense.id row ∈ l_selected st)
       then toggleSelect (Expense.id row) (l_selected st)
       else l_selected st).

(** *** The cards shown (lines 738-739) *)

(** [Object.values(grouped).filter(group => Number(group.total || 0) > 0)];
    the order of the cards is that of the keys of [grouped]. *)
Definition cards (grouped : gmap string group) : list group :=
  List.filter (λ g, Qltb 0 (or0 (total g))) (map_to_list grouped).*2.

(** *** Editing a row (lines 426-465) *)

(** The object held in [editModalRow]: the columns of the row as the form
    shows them, and the date the row had when the form was opened. An
    amount typed in the form is a string that the store and the sums read
    as a number; the model holds that number. *)
Record edit_row : Type := mk_edit_row {
  fields : Expense.t;
  _originalDate : jsv string
}.

(** [x || y] on string-valued cells. *)
Definition or_else (x y : jsv string) : jsv string := if truthy x then x else y.

(** [openEdit(row)]: the value given to [setEditModalRow]. [now] is the
    clock, read when the row has no date. *)
Definition openEdit (now : Z) (row : Expense.t) : edit_row :=
  mk_edit_row
    (Expense.mk (Expense.id row) (Expense.user_id row) (Expense.trip_id row)
       (or_else (Expense.category_id row) Null)
       (Val (num_or0 (Expense.amount row)))
       (Expense.kind row)
       (or_else (Expense.note row) (Val ""))
       (Expense.original_text row)
       (match Expense.date row with
        | Val d => if truthy (Val d) then Val (String.substring 0 16 d)
                   else Val (String.substring 0 16 (toISOString now))
        | _ => Val (String.substring 0 16 (toISOString now))
        end)
       (Expense.created_at row))
    (Expense.date row).

(** [updateData]: the edited row without [id] and [_originalDate], its
    date completed to an ISO string when there is one. *)
Definition updateData (updatedRow : edit_row) : Expense.t :=
  let f := fields updatedRow in
  Expense.mk Undef (Expense.user_id f) (Expense.trip_id f) (Expense.category_id f)
    (Expense.amount f) (Expense.kind f) (Expense.note f) (Expense.original_text f)
    (match Expense.date f with
     | Val dateTimeLocal =>
         if truthy (Val dateTimeLocal) then Val (dateTimeLocal +:+ ":00.000Z")
         else Val dateTimeLocal
     | d => d
     end)
    (Expense.created_at f).

(** The three pieces of state [submitEdit] changes. *)
Record editing : Type := mk_editing {
  e_table : list Expense.t;
  e_expenses : list Expense.t;
  editModalRow : option edit_row
}.

(** [submitEdit(updatedRow)]; [error] tells whether the store call failed.
    The store sets the columns of [updateData] in the row of that id, the
    local list is patched with the same columns. *)
Definition submitEdit (error : bool) (updatedRow : edit_row) (st : editing) : editing :=
  let id := Expense.id (fields updatedRow) in
  if error then st
  else
    mk_editing
      ((λ r, if Store.sql_eq (Expense.id r) id then spread r (updateData updatedRow) else r)
         <$> e_table st)
      ((λ r, if strict_eq (Expense.id r) id then spread r (updateData updatedRow) else r)
         <$> e_expenses st)
      None.

End Dashboard.

(** ** TripsTab.jsx *)

Module TripsTab.
Import Num.

(** [expenseSums[trip.id] || 0]: the trip's rows of kind [expense]. *)
Definition spent_of (expensesData : list Expense.t) (tripId : string) : Q :=
  foldl (λ sum exp,
           if strict_eq (Expense.trip_id exp) (Val tripId) &&
              strict_eq (Expense.kind exp) (Val "expense")
           then (sum + num_or0 (Expense.amount exp))%Q else sum)
        0%Q expensesData.

(** [budgetSums[trip.id] || 0]: every budget row of the trip. *)
Definition budget_of (budgetsData : list Budget.t) (tripId : string) : Q :=
  foldl (λ sum bud,
           if bool_decide (Budget.trip_id bud = Some tripId)
           then (sum + or0 (Budget.amount bud))%Q else sum)
        0%Q budgetsData.

(** The summary attached to a trip card (lines 129-144). *)
Definition balance (budget spent : Q) : Q := (budget - spent)%Q.

Definition spentPct (budget spent : Q) : Q :=
  if Qltb 0 budget then Math_min 100 ((spent / budget) * 100)%Q else 0%Q.

(** The number printed by [{trip.spentPct.toFixed(0)}% used] (line 677) and
    by [{trip.spentPct.toFixed(1)}%] (line 842). *)
Definition pct_text (budget spent : Q) : Q := spentPct budget spent.

(** The bar turns red when [trip.spentPct > 100] (line 671). *)
Definition bar_is_red (budget spent : Q) : bool := Qltb 100 (spentPct budget spent).

(** The month of the trip's start (line 414): the year as the template
    literal prints it, without padding, and the month padded to two digits;
    an invalid date prints as NaN. *)
Definition monthYear (t : Trip.t) : string :=
  match Date_parse (Trip.start_date t) with
  | Some d => ToString (getFullYear d) +:+ "-" +:+ pad 2 (getMonth d + 1)
  | None => "NaN-NaN"
  end.

(** Set the amount of the first row that satisfies [p]. *)
Fixpoint update_first (p : Budget.t → bool) (amount : Q) (l : list Budget.t) : list Budget.t :=
  match l with
  | [] => []
  | b :: t =>
      if p b
      then Budget.mk (Budget.user_id b) (Budget.trip_id b) (Budget.month_year b) amount :: t
      else b :: update_first p amount t
  end.

(** [setTripBudget(tripId, budgetAmount)] (lines 398-453), store calls
    succeeding: the [budgets] table afterwards. The row returned by the
    [limit(1)] query is the first matching row of the table. *)
Definition setTripBudget (budgets : list Budget.t) (trips : list Trip.t) (user_id : string)
    (tripId : string) (budgetAmount : Q) : list Budget.t :=
  if Qle_bool budgetAmount 0 then budgets
  else
    match List.find (λ t, bool_decide (Trip.id t = tripId)) trips with
    | None => budgets
    | Some trip =>
        let mine (b : Budget.t) :=
          bool_decide (Budget.user_id b = user_id) &&
          bool_decide (Budget.trip_id b = Some tripId) in
        if existsb mine budgets
        then update_first mine budgetAmount budgets
        else budgets ++ [Budget.mk user_id (Some tripId) (monthYear trip) budgetAmount]
    end.

(** [deleteCategory(tripId, categoryId, _)] of the trip view (lines
    375-396): the [expenses] table afterwards. *)
Definition deleteCategory (db_expenses : list Expense.t) (tripId categoryId : string)
  : list Expense.t :=
  List.filter
    (λ e, negb (strict_eq (Expense.trip_id e) (Val tripId) &&
                strict_eq (Expense.category_id e) (Val categoryId)))
    db_expenses.

(** *** Loading the trip cards ([loadTripsWithSummary], lines 25-151) *)

(** A row of [trips]: a trip and its owner. *)
Record trip_row : Type := mk_trip_row { owner : string; trip : Trip.t }.

(** The four tables the tab reads and writes. *)
Record tables : Type := mk_tables {
  t_categories : list Category.t;
  t_trips : list trip_row;
  t_expenses : list Expense.t;
  t_budgets : list Budget.t
}.

(** [catMap], from category id to name (lines 31-36). *)
Definition catMap (categoriesData : list Category.t) : gmap string string :=
  foldl (λ m cat, <[Category.id cat := Category.name cat]> m) ∅ categoriesData.

(** [.order('start_date', { ascending: false })]. *)
Definition start_time (t : Trip.t) : Z := default 0 (Date_parse (Trip.start_date t)).

Definition later_start (a b : Trip.t) : Prop := start_time b <= start_time a.

#[export] Instance later_start_dec a b : Decision (later_start a b).
Proof. unfold later_start. apply _. Defined.

(** [tripsData]: the trips of the user, the latest start first. *)
Definition tripsData (trips : list trip_row) (user_id : string) : list Trip.t :=
  merge_sort later_start (trip <$> List.filter (λ r, bool_decide (owner r = user_id)) trips).

(** The date filter (lines 55-64): [Some None] when a piece of a date is 0
    or not a number, so that nothing is filtered; [None] when [toISOString]
    throws; the two bounds otherwise. *)
Definition date_filter (startDateStr endDateStr : string) : option (option (string * string)) :=
  let '(sy, sm, sd) := Range.ymd startDateStr in
  let '(ey, em, ed) := Range.ymd endDateStr in
  if Range.falsy sy || Range.falsy sm || Range.falsy sd ||
     Range.falsy ey || Range.falsy em || Range.falsy ed
  then Some None
  else match Range.isoRefs startDateStr endDateStr with
       | Some bounds => Some (Some bounds)
       | None => None
       end.

(** [.order('created_at', { ascending: false })]. *)
Definition created_time (r : Expense.t) : Z := default 0 (Range.instant (Expense.created_at r)).

Definition newer_created (a b : Expense.t) : Prop := created_time b <= created_time a.

#[export] Instance newer_created_dec a b : Decision (newer_created a b).
Proof. unfold newer_created. apply _. Defined.

(** The filters of the expenses query (lines 67-77): owner, a trip, and the
    date range when there is one. *)
Definition trip_expense (user_id : string) (range : option (string * string)) (r : Expense.t)
  : bool :=
  strict_eq (Expense.user_id r) (Val user_id) &&
  match Expense.trip_id r with Val _ => true | _ => false end &&
  match range with
  | Some bounds => Range.in_range_store bounds (Expense.date r)
  | None => true
  end.

(** [expensesData]. *)
Definition expensesData (table : list Expense.t) (user_id : string)
    (range : option (string * string)) : list Expense.t :=
  merge_sort newer_created (List.filter (trip_expense user_id range) table).

(** The property key a cell is turned into when it indexes an object. *)
Definition prop_key (c : jsv string) : string :=
  match c with
  | Val s => s
  | Null => "null"
  | Undef => "undefined"
  end.

(** One turn of the loop over [expensesData] (lines 85-94), on
    [expensesByTrip] and [expenseSums]. The two objects have the same keys,
    so that the sum read at a key of the first is there. *)
Definition by_trip_step (acc : gmap string (list Expense.t) * gmap string Q) (exp : Expense.t)
  : gmap string (list Expense.t) * gmap string Q :=
  let '(expensesByTrip, expenseSums) := acc in
  let tid := prop_key (Expense.trip_id exp) in
  let '(held, expenseSums) :=
    match expensesByTrip !! tid with
    | Some held => (held, expenseSums)
    | None => ([], <[tid := 0%Q]> expenseSums)
    end in
  (<[tid := (held ++ [exp])%list]> expensesByTrip,
   if strict_eq (Expense.kind exp) (Val "expense")
   then <[tid := (default 0%Q (expenseSums !! tid) + num_or0 (Expense.amount exp))%Q]> expenseSums
   else expenseSums).

(** [budgetsData] (lines 99-103). *)
Definition budgetsData (budgets : list Budget.t) (user_id : string) : list Budget.t :=
  List.filter (λ b, bool_decide (Budget.user_id b = user_id) &&
                    bool_decide (Budget.trip_id b ≠ None)) budgets.

(** One turn of the loop over [budgetsData] (lines 108-112), on
    [budgetSums] and [budgetAmountsByTrip]. *)
Definition budget_step (acc : gmap string Q * gmap string Q) (bud : Budget.t)
  : gmap string Q * gmap string Q :=
  let '(budgetSums, budgetAmountsByTrip) := acc in
  let tid := default "null" (Budget.trip_id bud) in
  let sum := match budgetSums !! tid with
             | Some s => or0 s
             | None => 0%Q
             end in
  (<[tid := (sum + or0 (Budget.amount bud))%Q]> budgetSums,
   <[tid := or0 (Budget.amount bud)]> budgetAmountsByTrip).

(** The test of the overlap filter (lines 119-125) for one trip; [None]
    when a date of the trip is invalid and [toISOString] throws. *)
Definition overlaps (startIso endIso : string) (trip : Trip.t) : option bool :=
  tripStart ← toISOString <$> Date_parse (Trip.start_date trip);
  tripEnd ← toISOString <$> Date_parse (Trip.end_date trip);
  Some (str_le tripStart endIso && str_ge tripEnd startIso).

(** [tripsData.filter(...)] with that test. *)
Fixpoint filter_overlapping (startIso endIso : string) (l : list Trip.t) : option (list Trip.t) :=
  match l with
  | [] => Some []
  | trip :: rest =>
      match overlaps startIso endIso trip, filter_overlapping startIso endIso rest with
      | Some keep, Some kept => Some (if keep : bool then trip :: kept else kept)
      | _, _ => None
      end
  end.

(** A trip with its summary (lines 129-144). *)
Record summary : Type := mk_summary {
  s_trip : Trip.t;
  s_spent : Q;
  s_budget : Q;
  s_balance : Q;
  s_spentPct : Q
}.

(** [sums[trip.id] || 0]. *)
Definition sum_at (sums : gmap string Q) (tripId : string) : Q :=
  match sums !! tripId with
  | Some s => or0 s
  | None => 0%Q
  end.

Definition summarize (expenseSums budgetSums : gmap string Q) (trip : Trip.t) : summary :=
  let spent := sum_at expenseSums (Trip.id trip) in
  let budget := sum_at budgetSums (Trip.id trip) in
  mk_summary trip spent budget (balance budget spent) (spentPct budget spent).

(** The state of the tab that the load sets. *)
Record tab : Type := mk_tab {
  categories : gmap string string;
  trips : list summary;
  tripExpenses : gmap string (list Expense.t);
  tripBudgetAmounts : gmap string Q
}.

(** [loadTripsWithSummary()]: the state afterwards and the number given to
    [onTripStatusChange], if it is called. The state is set piece by piece,
    so that a load that throws has set the pieces before the throw. *)
Definition loadTripsWithSummary (db : tables) (user_id startDateStr endDateStr : string)
    (st : tab) : tab * option nat :=
  let cats := catMap (t_categories db) in
  let data := tripsData (t_trips db) user_id in
  if bool_decide (data = []) then
    (mk_tab cats [] (tripExpenses st) (tripBudgetAmounts st), Some 0%nat)
  else
    match date_filter startDateStr endDateStr with
    | None => (mk_tab cats (trips st) (tripExpenses st) (tripBudgetAmounts st), None)
    | Some range =>
        let '(expensesByTrip, expenseSums) :=
          foldl by_trip_step (∅, ∅) (expensesData (t_expenses db) user_id range) in
        let '(budgetSums, budgetAmountsByTrip) :=
          foldl budget_step (∅, ∅) (budgetsData (t_budgets db) user_id) in
        match match range with
              | Some (startIso, endIso) => filter_overlapping startIso endIso data
              | None => Some data
              end with
        | None => (mk_tab cats (trips st) expensesByTrip budgetAmountsByTrip, None)
        | Some filteredTrips =>
            (mk_tab cats (summarize expenseSums budgetSums <$> filteredTrips)
               expensesByTrip budgetAmountsByTrip,
             Some (length filteredTrips))
        end
    end.

(** *** Creating and deleting a trip (lines 171-255) *)

(** The form [newTrip]. *)
Record new_trip : Type := mk_new_trip { nt_name : string; nt_start : string; nt_end : string }.

(** [a >= b] on dates; false when either is invalid. *)
Definition date_ge (a b : option Z) : bool :=
  match a, b with
  | Some x, Some y => y <=? x
  | _, _ => false
  end.

(** The message with which [createTrip] refuses the form, if it does. *)
Definition createTrip_refusal (newTrip : new_trip) : option string :=
  if negb (truthy (Val (nt_name newTrip))) || negb (truthy (Val (nt_start newTrip))) ||
     negb (truthy (Val (nt_end newTrip)))
  then Some "Please fill all fields"
  else if date_ge (Date_parse (nt_start newTrip)) (Date_parse (nt_end newTrip))
  then Some "End date must be after start date"
  else None.

(** [createTrip()], the insert succeeding: the [trips] table afterwards and
    the message shown. [id] is the id the store gives to the new row. *)
Definition createTrip (trips : list trip_row) (user_id : string) (newTrip : new_trip)
    (id : string) : list trip_row * string :=
  match createTrip_refusal newTrip with
  | Some message => (trips, message)
  | None =>
      ((trips ++ [mk_trip_row user_id
                    (Trip.mk id (nt_name newTrip) (nt_start newTrip) (nt_end newTrip))])%list,
       "")
  end.

(** The store call of [deleteTrip] that fails, if one does. *)
Inductive failing_call : Type :=
  | DeleteExpenses
  | DeleteBudgets
  | DeleteTrip.

(** [deleteTrip(tripId)], once confirmed: the tables afterwards and the
    message shown. The three deletes are separate calls, each made only
    when the one before succeeded. *)
Definition deleteTrip (failing : option failing_call) (db : tables) (tripId : string)
  : tables * string :=
  let without_expenses :=
    List.filter (λ e, negb (Store.sql_eq (Expense.trip_id e) (Val tripId))) (t_expenses db) in
  let without_budgets :=
    List.filter (λ b, negb (bool_decide (Budget.trip_id b = Some tripId))) (t_budgets db) in
  let without_trip :=
    List.filter (λ r, negb (bool_decide (Trip.id (trip r) = tripId))) (t_trips db) in
  match failing with
  | Some DeleteExpenses => (db, "Failed to delete trip expenses")
  | Some DeleteBudgets =>
      (mk_tables (t_categories db) (t_trips db) without_expenses (t_budgets db),
       "Failed to delete trip budgets")
  | Some DeleteTrip =>
      (mk_tables (t_categories db) (t_trips db) without_expenses without_budgets,
       "Failed to delete trip")
  | None =>
      (mk_tables (t_categories db) without_trip without_expenses without_budgets,
       "Trip deleted successfully")
  end.

(** *** Selecting rows of a trip (lines 290-342) *)

(** The updater of [toggleSelectExpense(expenseId)]. *)
Definition toggleSelectExpense (expenseId : jsv string) (prev : Dashboard.selection)
  : Dashboard.selection :=
  if bool_decide (expenseId ∈ prev) then prev ∖ {[ expenseId ]} else prev ∪ {[ expenseId ]}.

(** The updater of [selectAllInCategory(_, _, groupRows)]. *)
Definition selectAllInCategory (groupRows : list Expense.t) (prev : Dashboard.selection)
  : Dashboard.selection :=
  if forallb (λ r, bool_decide (Expense.id r ∈ prev)) groupRows
  then foldl (λ newSet r, newSet ∖ {[ Expense.id r ]}) prev groupRows
  else foldl (λ newSet r, newSet ∪ {[ Expense.id r ]}) prev groupRows.

(** [deleteSelectedExpenses()]: the [expenses] table and the selection
    afterwards; the cards are loaded again when the rows were deleted. *)
Definition deleteSelectedExpenses (confirmed error : bool) (table : list Expense.t)
    (selectedExpenses : Dashboard.selection) : list Expense.t * Dashboard.selection :=
  if bool_decide (size selectedExpenses = 0%nat) then (table, selectedExpenses)
  else if negb confirmed then (table, selectedExpenses)
  else if error then (table, selectedExpenses)
  else (List.filter (λ r, negb (Dashboard.sql_in (Expense.id r) selectedExpenses)) table, ∅).

(** *** The groups of an expanded card ([groupExpensesByCategory],
    lines 455-475) *)

(** The object [grouped]: its entries in the order in which the keys were
    added, which is the order of [Object.values]. *)
Definition group_entries : Type := list (string * Dashboard.group).

(** The entry of [key], made by [init] when the key is new, after [f]. *)
Fixpoint upsert (key : string) (init : Dashboard.group) (f : Dashboard.group → Dashboard.group)
    (grouped : group_entries) : group_entries :=
  match grouped with
  | [] => [(key, f init)]
  | (k, g) :: rest =>
      if bool_decide (k = key) then (k, f g) :: rest
      else (k, g) :: upsert key init f rest
  end.

(** One turn of the loop. *)
Definition group_step (categories : gmap string string) (grouped : group_entries)
    (exp : Expense.t) : group_entries :=
  let catId := Dashboard.group_key exp in
  let catName := Dashboard.group_name categories exp in
  upsert (catId +:+ "-" +:+ catName)
    (Dashboard.mk_group catId catName 0%Q [])
    (λ g, Dashboard.mk_group (Dashboard.g_id g) (Dashboard.g_name g)
            (Dashboard.total g + num_or0 (Expense.amount exp))%Q
            (Dashboard.rows g ++ [exp])%list)
    grouped.

(** [list.sort((a, b) => b.total - a.total)]: the sort is stable, groups
    of equal total keep their order. *)
Fixpoint insert_by_total (g : Dashboard.group) (l : list Dashboard.group)
  : list Dashboard.group :=
  match l with
  | [] => [g]
  | h :: t =>
      if Qle_bool (Dashboard.total h) (Dashboard.total g) then g :: l
      else h :: insert_by_total g t
  end.

Definition sort_by_total (l : list Dashboard.group) : list Dashboard.group :=
  foldr insert_by_total [] l.

Definition groupExpensesByCategory (categories : gmap string string)
    (expenses : list Expense.t) : list Dashboard.group :=
  sort_by_total (foldl (group_step categories) [] expenses).*2.

End TripsTab.

(** ** groqCategorizer.js *)

Module Categorizer.

Record result : Type := mk_result {
  category : string;
  confidence : Q;
  reasoning : string
}.

(** The table [patterns], in the order of its keys; each regular expression
    is an alternation of literal words. *)
Definition patterns : list (string * list string) :=
  [ ("Food", ["food"; "eat"; "meal"; "restaurant"; "pizza"; "burger"; "lunch"; "breakfast";
              "dinner"; "grocery"; "snack"; "chips"; "chocolate"; "coffee"; "tea"]);
    ("Transport", ["transport"; "taxi"; "uber"; "bus"; "metro"; "train"; "flight"; "car";
                   "bike"; "fuel"; "gas"; "parking"; "ride"]);
    ("Shopping", ["shop"; "buy"; "clothes"; "dress"; "shoes"; "shirt"; "pants"; "jacket";
                  "coat"; "bag"; "purchase"]);
    ("Entertainment", ["movie"; "cinema"; "game"; "concert"; "ticket"; "show";
                       "entertainment"; "party"; "fun"]);
    ("Bills", ["bill"; "electricity"; "water"; "phone"; "internet"; "rent"; "housing";
               "utility"; "subscription"; "membership"]);
    ("Healthcare", ["hospital"; "doctor"; "medicine"; "medical"; "health"; "pharmacy";
                    "cure"; "treatment"]);
    ("Skincare", ["skincare"; "facewash"; "lotion"; "cream"; "soap"; "shampoo";
                  "conditioner"; "deodorant"]);
    ("Other", ["other"; "misc"; "miscellaneous"]) ].

(** [pattern.test(textLower)]. *)
Definition test (words : list string) (textLower : string) : bool :=
  existsb (includes textLower) words.

(** The first loop: the first pattern that matches and names an available
    category. *)
Fixpoint by_pattern (ps : list (string * list string)) (textLower : string)
    (categories : list Category.t) : option result :=
  match ps with
  | [] => None
  | (categoryName, pattern) :: rest =>
      if test pattern textLower &&
         existsb (λ c, bool_decide (toLowerCase (Category.name c) = toLowerCase categoryName))
                 categories
      then Some (mk_result categoryName (7 # 10)
                   ("Matched by keyword pattern for " +:+ categoryName))
      else by_pattern rest textLower categories
  end.

(** The second loop: the first category whose name and some word of the text
    contain one another. *)
Fixpoint by_name (cats : list Category.t) (textLower : string) : option result :=
  match cats with
  | [] => None
  | cat :: rest =>
      let catNameLower := toLowerCase (Category.name cat) in
      if existsb (λ word, includes word catNameLower || includes catNameLower word)
                 (split_ws textLower)
      then Some (mk_result (Category.name cat) (6 # 10) "Matched category name in text")
      else by_name rest textLower
  end.

Definition manualCategorizeByKeyword (text : string) (categories : list Category.t) : result :=
  let textLower := toLowerCase text in
  match by_pattern patterns textLower categories with
  | Some r => r
  | None =>
      match by_name categories textLower with
      | Some r => r
      | None => mk_result "Other" (3 # 10) "No matching category found"
      end
  end.

(** What the primary resolver did. The request and the JSON reader are
    outside the model; their outcome is an input. *)
Inductive llm_outcome : Type :=
  | NoApiKey
  | CallFailed
  | NoJson
  | TruncatedUnreadable
  | NoClosingBrace
  | Parsed (category : jsv string) (confidence : jsv Q) (reasoning : jsv string).

(** The two outcomes in which the resolver gave no answer at all. *)
Definition unavailable (o : llm_outcome) : bool :=
  match o with
  | NoApiKey | CallFailed => true
  | _ => false
  end.

Definition categorizeExpenseWithLLM (o : llm_outcome) (expenseDescription : string)
    (availableCategories : list Category.t) : result :=
  if bool_decide (trim expenseDescription = "") then mk_result "Other" 0 "Empty description"
  else if bool_decide (availableCategories = []) then
    manualCategorizeByKeyword expenseDescription availableCategories
  else
    match o with
    | NoApiKey | CallFailed => manualCategorizeByKeyword expenseDescription availableCategories
    | NoJson => mk_result "Other" 0 "Could not parse LLM response"
    | TruncatedUnreadable => mk_result "Other" 0 "Failed to parse LLM response"
    | NoClosingBrace => mk_result "Other" 0 "Invalid LLM response format"
    | Parsed c conf why =>
        match c with
        | Val name =>
            if truthy c
            then mk_result (trim name)
                   (match conf with Val q => if Qeq_bool q 0 then 8 # 10 else q | _ => 8 # 10 end)
                   (match why with Val w => if truthy why then w else "Categorized by LLM"
                                 | _ => "Categorized by LLM" end)
            else manualCategorizeByKeyword expenseDescription availableCategories
        | _ => manualCategorizeByKeyword expenseDescription availableCategories
        end
    end.

End Categorizer.

(** ** ExpenseInput.jsx *)

Module ExpenseInput.
Import Categorizer.

(** [findCategoryIdByName(name)] (lines 1058-1067 of the listing). A
    category whose name is empty is skipped by [c.name && ...]. *)
Definition findCategoryIdByName (categories : list Category.t) (name : string) : jsv string :=
  if negb (truthy (Val name)) then Null
  else
    let target := toLowerCase (trim name) in
    let named (p : string → bool) :=
      List.find (λ c, truthy (Val (Category.name c)) && p (toLowerCase (Category.name c)))
                categories in
    match named (λ n, bool_decide (n = target)) with
    | Some found => Val (Category.id found)
    | None =>
        match named (λ n, includes n target) with
        | Some partial => Val (Category.id partial)
        | None =>
            match named (λ n, bool_decide (n = "other")) with
            | Some other => Val (Category.id other)
            | None => Null
            end
        end
    end.

(** What [/\d+(?:\.\d{2})?/] matches at the start of [s], which begins
    with a digit, and the rest of [s]. *)
Definition number_token (s : string) : string * string :=
  let '(int, r) := span_digits s in
  match r with
  | String dot (String a (String b r')) =>
      if bool_decide (dot = "."%char) && is_digit a && is_digit b
      then (int +:+ String dot (String a (String b EmptyString)), r')
      else (int, r)
  | _ => (int, r)
  end.

(** [text.match(/(\d+(?:\.\d{2})?)/)]: the match starts at the first digit
    of the text. *)
Fixpoint match_amount (text : string) : option string :=
  match text with
  | EmptyString => None
  | String c t => if is_digit c then Some (number_token text).1 else match_amount t
  end.

(** [Number(tok)] for a token of that shape. *)
Definition Number_token (tok : string) : Q :=
  let '(int, r) := span_digits tok in
  match r with
  | String _ frac => (inject_Z (digits_value 0 int) + Qmake (digits_value 0 frac) 100)%Q
  | EmptyString => inject_Z (digits_value 0 int)
  end.

(** [description.replace(/^\d+(?:\.\d{2})?\s*/, '')]. *)
Definition strip_amount (s : string) : string :=
  match s with
  | String c _ => if is_digit c then trimStart (number_token s).2 else s
  | EmptyString => s
  end.

Record parsed : Type := mk_parsed {
  amount : Q;
  kind : string;
  categoryName : string;
  category_id : jsv string;
  description : string;
  confidence : Q
}.

Inductive outcome : Type :=
  | Ignored            (* empty input: nothing happens *)
  | MissingAmount      (* 'Please include an amount ...' *)
  | InvalidAmount      (* 'Amount must be a positive number.' *)
  | Row (p : parsed).

(** [handleSubmit] up to the choice of the date: the columns of the row to
    insert, from the text, the category list and what the resolver did. *)
Definition handleSubmit (o : llm_outcome) (categories : list Category.t) (text : string)
  : outcome :=
  if bool_decide (trim text = "") then Ignored
  else
    let parseResponse := categorizeExpenseWithLLM o (trim text) categories in
    match match_amount text with
    | None => MissingAmount
    | Some tok =>
        let amount := Number_token tok in
        if Qle_bool amount 0 then InvalidAmount
        else
          let categoryName :=
            if truthy (Val (category parseResponse)) then category parseResponse else "Other" in
          let stripped := trim (strip_amount (trim text)) in
          let description := if truthy (Val stripped) then stripped else categoryName in
          let textLower := toLowerCase text in
          let kind :=
            if includes textLower "borr" then "borrowed"
            else if includes textLower "len" || includes textLower "lend" then "lended"
            else "expense" in
          Row (mk_parsed amount kind categoryName (findCategoryIdByName categories categoryName)
                 description (Categorizer.confidence parseResponse))
    end.

(** *** The date of the new row (lines 1127-1160 of the listing) *)

(** [iso.split('T')[0]]. *)
Fixpoint before_T (s : string) : string :=
  match s with
  | EmptyString => EmptyString
  | String c t => if bool_decide (c = "T"%char) then EmptyString else String c (before_T t)
  end.

(** [a <= b] on dates; false when either is invalid. *)
Definition date_le (a b : option Z) : bool :=
  match a, b with
  | Some x, Some y => x <=? y
  | _, _ => false
  end.

Inductive date_outcome : Type :=
  | NoDate                        (* 'Please select a date within the selected range' *)
  | DateError                     (* [toISOString] throws, the [catch] shows the error *)
  | Dated (expenseDate : string).

(** The date read from [customDate]: the start of that day in UTC, or the
    clock when a piece of it is 0 or not a number. *)
Definition custom_date (now : Z) (customDate : string) : date_outcome :=
  let '(customY, customM, customD) := Range.ymd customDate in
  if Range.falsy customY || Range.falsy customM || Range.falsy customD
  then Dated (toISOString now)
  else match Range.utc_iso customY customM customD 0 0 0 0 with
       | Some iso => Dated iso
       | None => DateError
       end.

(** The choice of [expenseDate]. [now] is the clock; [startDateStr] and
    [endDateStr] are the props, [null] by default. *)
Definition expenseDate (now : Z) (startDateStr endDateStr : jsv string) (customDate : string)
  : date_outcome :=
  match startDateStr, endDateStr with
  | Val s, Val e =>
      if truthy startDateStr && truthy endDateStr then
        let todayDate := Date_parse (before_T (toISOString now)) in
        if date_le (Date_parse s) todayDate && date_le todayDate (Date_parse e)
        then Dated (toISOString now)
        else if negb (truthy (Val customDate)) then NoDate
        else custom_date now customDate
      else if truthy (Val customDate) then custom_date now customDate
      else Dated (toISOString now)
  | _, _ =>
      if truthy (Val customDate) then custom_date now customDate
      else Dated (toISOString now)
  end.

(** [insertRow]: the row given to the store, which adds the id. *)
Definition insertRow (user_id : string) (trip_id : jsv string) (text : string) (p : parsed)
    (expenseDate : string) : Expense.t :=
  Expense.mk Undef (Val user_id) (if truthy trip_id then trip_id else Undef) (category_id p)
    (Val (amount p)) (Val (kind p)) (Val (description p)) (Val text) (Val expenseDate) Undef.

End ExpenseInput.

(** ** App.jsx *)

Module App.

(** The rows counted by the query of [checkTripsForDateRange]
    (lines 62-67). *)
Definition overlapping (user_id startIso endIso : string) (r : TripsTab.trip_row) : bool :=
  bool_decide (TripsTab.owner r = user_id) &&
  Store.date_le (Trip.start_date (TripsTab.trip r)) endIso &&
  Store.date_ge (Trip.end_date (TripsTab.trip r)) startIso.

(** [checkTripsForDateRange(startStr, endStr)] (lines 39-78): the value of
    [hasTrips] afterwards. [user] is the id of the signed-in user, if any;
    [error] tells whether the store call failed. *)
Definition checkTripsForDateRange (trips : list TripsTab.trip_row) (user : option string)
    (startStr endStr : string) (error : bool) (hasTrips : bool) : bool :=
  match user with
  | None => false
  | Some user_id =>
      if negb (truthy (Val startStr)) || negb (truthy (Val endStr)) then false
      else
        match TripsTab.date_filter startStr endStr with
        | None => hasTrips
        | Some None => false
        | Some (Some (startIso, endIso)) =>
            if error then false
            else Nat.ltb 0 (length (List.filter (overlapping user_id startIso endIso) trips))
        end
  end.

(** [handleTripStatusChange(count)] (lines 89-91): the value of
    [hasTrips] afterwards. *)
Definition handleTripStatusChange (count : nat) : bool := Nat.ltb 0 count.

End App.

(** * Vocabulary of the properties, and example data *)

Import Range Num Dashboard Categorizer ExpenseInput.

(** The sum of the amounts of a list of rows, each read as the code reads
    it ([Number(row.amount || 0)]). *)
Definition sum_amounts (l : list Expense.t) : Q :=
  foldr (λ r acc, (num_or0 (Expense.amount r) + acc)%Q) 0%Q l.

(** The tests of the first loop on [row.kind]. *)
Definition is_lended (r : Expense.t) : bool := strict_eq (Expense.kind r) (Val "lended").
Definition is_borrowed (r : Expense.t) : bool := strict_eq (Expense.kind r) (Val "borrowed").

(** The rows that are neither lent nor borrowed: the [expense] kind. *)
Definition is_plain (r : Expense.t) : bool := negb (is_lended r) && negb (is_borrowed r).

(** The rows that go to the group of key [k]. *)
Definition has_key (k : string) (r : Expense.t) : bool := bool_decide (group_key r = k).

(** What holds of the map after the rows [l] went through the loop. *)
Record grouped_inv (l : list Expense.t) (m : gmap string group) : Prop := {
  inv_rows : ∀ k g, m !! k = Some g → rows g = List.filter (has_key k) l;
  inv_total : ∀ k g, m !! k = Some g → (total g == sum_amounts (rows g))%Q;
  inv_id : ∀ k g, m !! k = Some g → g_id g = k;
  inv_dom : ∀ r, r ∈ l → is_Some (m !! group_key r);
  inv_sum : (totalSpent m == sum_amounts l)%Q
}.

(** The sum of the amounts of budget rows. *)
Definition budget_sum (l : list Budget.t) : Q :=
  foldr (λ b acc, (or0 (Budget.amount b) + acc)%Q) 0%Q l.




(** The view of March 2025 of user [u1], casual context. *)
Definition march : View.t := View.mk "u1" None "2025-03-01" "2025-03-31".
Definition march_bounds : string * string :=
  ("2025-03-01T00:00:00.000Z", "2025-03-31T23:59:59.999Z").

(** An expense of [u1] dated [d]. *)
Definition tea (d : string) : Expense.t :=
  Expense.mk (Val "e1") (Val "u1") Null (Val "c1") (Val 40%Q) (Val "expense")
    (Val "tea") (Val "40 tea") (Val d) (Val d).

(** The start of the range as the store prints a [timestamptz] column. *)
Definition midnight_pg : string := "2025-03-01T00:00:00+00:00".

(** The UPDATE notification of an amount change, for a row held in the
    collection and dated the first instant of the range. *)
Definition tea_55 : Expense.t :=
  Expense.mk (Val "e1") Undef Undef Undef (Val 55%Q) Undef Undef Undef (Val midnight_pg) Undef.

(** The rows of the range that the limit cuts off. *)
Definition not_loaded (table : list Expense.t) (v : View.t) (bounds : string * string)
  : list Expense.t :=
  drop 1000 (merge_sort newer_first (filter (λ r, load_filter v bounds r = true) table)).

(** A trip from 15 March to 10 April 2025. *)
Definition goa : Trip.t := Trip.mk "t1" "Goa" "2025-03-15" "2025-04-10".


(** A trip expense in the category [c1]. *)
Definition snacks : Expense.t :=
  Expense.mk (Val "e7") (Val "u1") (Val "t1") (Val "c1") (Val 120%Q) (Val "expense")
    (Val "snacks") (Val "120 snacks") (Val "2025-03-16T10:00:00+00:00")
    (Val "2025-03-16T10:00:00+00:00").

(** Two categories, one of them the fallback. *)
Definition food_other : list Category.t := [Category.mk "c1" "Food"; Category.mk "c2" "Other"].

(** A small collection: two plain rows of one category, a plain row
    without category, a lent and a borrowed row. *)
Definition five_rows : list Expense.t :=
  [ Expense.mk (Val "a") (Val "u1") Null (Val "c1") (Val 100%Q) (Val "expense") Null Null Null Null;
    Expense.mk (Val "b") (Val "u1") Null Null (Val (25 # 2)) (Val "expense") Null Null Null Null;
    Expense.mk (Val "c") (Val "u1") Null (Val "c1") (Val 30%Q) (Val "lended") Null Null Null Null;
    Expense.mk (Val "d") (Val "u1") Null (Val "c1") (Val 7%Q) (Val "expense") Null Null Null Null;
    Expense.mk (Val "e") (Val "u1") Null Null (Val 500%Q) (Val "borrowed") Null Null Null Null ].

(** 1001 rows of March 2025, one per minute from the start of the month,
    oldest first. *)
Definition minute_row (k : nat) : Expense.t :=
  let d := toISOString (1740787200000 + 60000 * Z.of_nat k) in
  Expense.mk (Val d) (Val "u1") Null Null (Val 1%Q) (Val "expense") Null Null (Val d) (Val d).

(** One row more than the limit of the bulk load. *)
Definition many_rows : list Expense.t := minute_row <$> seq 0 1001.

(** The first and the last instant that [toISOString] prints with a year of
    four digits: 0000-01-01T00:00:00.000Z and 9999-12-31T23:59:59.999Z. *)
Definition iso_min : Z := -62167219200000.
Definition iso_max : Z := 253402300799999.

(** A date as one number, the way it reads: year, month, day. *)
Definition date_key (c : Z * Z * Z) : Z := c.1.1 * 10000 + c.1.2 * 100 + c.2.

(** The days [z], [z + 1], ... ([n] of them) of a cycle have a month and a
    day in range and dates in increasing order, each after [prev]. *)
Fixpoint dates_increase (n : nat) (z prev : Z) : bool :=
  match n with
  | O => true
  | S k =>
      let '(y, m, d) := civil_of_doe z in
      let key := date_key (y, m, d) in
      if (0 <=? y) && (y <=? 400) && (1 <=? m) && (m <=? 12) && (1 <=? d) && (d <=? 31) &&
         (prev <? key)
      then dates_increase k (z + 1) key
      else false
  end.

(** What [dates_increase] establishes of one day of the cycle. *)
Record day_ok (prev doe : Z) : Prop := {
  ok_year : 0 <= (civil_of_doe doe).1.1 <= 400;
  ok_month : 1 <= (civil_of_doe doe).1.2 <= 12;
  ok_day : 1 <= (civil_of_doe doe).2 <= 31;
  ok_after : prev < date_key (civil_of_doe doe)
}.

(** A time of day as one number, the way it reads: hours, minutes,
    seconds, milliseconds. *)
Definition time_key (r : Z) : Z :=
  r / 3600000 * 10000000 + r / 60000 mod 60 * 100000 + r / 1000 mod 60 * 1000 + r mod 1000.

(** An instant as one number, the way [toISOString] prints it. *)
Definition iso_key (t : Z) : Z :=
  date_key (civil_from_days (t / msPerDay)) * 1000000000 + time_key (t mod msPerDay).

(** The value of a date input: [YYYY-MM-DD]. *)
Definition date_string (y m d : Z) : string := pad 4 y +:+ "-" +:+ pad 2 m +:+ "-" +:+ pad 2 d.

(** A date of the calendar, with a year of four digits that [Date.UTC] and
    [new Date] read alike (a year below 100 means 1900 + year to the
    first). *)
Definition calendar_date (y m d : Z) : Prop :=
  100 <= y <= 9999 ∧ 1 <= m <= 12 ∧ 1 <= d <= days_in_month y m.

(** The first instant of a day, in UTC. *)
Definition day_start (y m d : Z) : Z := days_from_civil y m d * msPerDay.

(** The day number of the first day of the month numbered [n] = 12 * year
    + month index. *)
Definition month_start (n : Z) : Z := days_from_civil (n / 12) (n mod 12 + 1) 1.

(** Linear arithmetic with divisions by constants. *)
Ltac zdiv := Z.to_euclidean_division_equations; lia.

(** Case analysis on the comparisons of the goal. *)
Ltac split_tests :=
  repeat match goal with
         | |- context [?a <=? ?b] => destruct (Z.leb_spec a b); try zdiv
         | |- context [?a <? ?b] => destruct (Z.ltb_spec a b); try zdiv
         end.

(** Comparisons of the goal that hold. *)
Ltac leb_true := repeat (rewrite (proj2 (Z.leb_le _ _)) by lia); cbn [andb].

(** A closed statement settled by evaluation. *)
Ltac evaluated := vm_compute; first [ reflexivity | discriminate | intuition discriminate ].

(** ** Vocabulary of the further properties *)





(** The budget rows of a trip and their sum. *)
Definition budgets_at (tid : string) (l : list Budget.t) : list Budget.t :=
  List.filter (λ b, bool_decide (default "null" (Budget.trip_id b) = tid)) l.

Record budget_inv (l : list Budget.t) (acc : gmap string Q * gmap string Q) : Prop := {
  binv_absent : ∀ tid, budgets_at tid l = [] → acc.1 !! tid = None ∧ acc.2 !! tid = None;
  binv_present : ∀ tid, budgets_at tid l ≠ [] →
                   (∃ s, acc.1 !! tid = Some s ∧ (s == budget_sum (budgets_at tid l))%Q) ∧
                   ∃ b, last (budgets_at tid l) = Some b ∧
                        acc.2 !! tid = Some (or0 (Budget.amount b))
}.

(** A date string that [new Date] reads as an instant of the years 0000 to
    9999. *)
Definition iso_readable (s : string) : Prop :=
  ∃ t, Date_parse s = Some t ∧ iso_min <= t <= iso_max.

(** The trip overlaps the closed interval of instants from [lo] to [hi]. *)
Definition listed (lo hi : Z) (t : Trip.t) : bool :=
  match Date_parse (Trip.start_date t), Date_parse (Trip.end_date t) with
  | Some ts, Some te => (ts <=? hi) && (lo <=? te)
  | _, _ => false
  end.

(** The key under which [groupExpensesByCategory] files a row. *)
Definition entry_key (categories : gmap string string) (exp : Expense.t) : string :=
  group_key exp +:+ "-" +:+ group_name categories exp.

(** [grouped[key]]: the entry of a key. *)
Fixpoint entry_at (key : string) (grouped : TripsTab.group_entries) : option group :=
  match grouped with
  | [] => None
  | (k, g) :: rest => if bool_decide (k = key) then Some g else entry_at key rest
  end.

(** The rows of a list filed under a key. *)
Definition rows_under (categories : gmap string string) (key : string) (l : list Expense.t)
  : list Expense.t :=
  List.filter (λ r, bool_decide (entry_key categories r = key)) l.

(** The sum of the totals of a list of groups. *)
Definition sum_totals (l : list group) : Q := foldr (λ g acc, (total g + acc)%Q) 0%Q l.

(** [a] comes before [b] when sorted by total, the largest first. *)
Definition total_ge (a b : group) : Prop := (total b <= total a)%Q.

(** What the loop of [groupExpensesByCategory] has built after the rows
    [l]: a key has an entry when rows are filed under it, and the entry
    holds them in order, their sum, and the id and name of the first. *)
Record entries_inv (categories : gmap string string) (l : list Expense.t)
    (grouped : TripsTab.group_entries) : Prop := {
  einv_keys : NoDup grouped.*1;
  einv_absent : ∀ key, rows_under categories key l = [] → entry_at key grouped = None;
  einv_present : ∀ key r0 rest, rows_under categories key l = r0 :: rest →
                   ∃ g, entry_at key grouped = Some g ∧
                        rows g = r0 :: rest ∧
                        g_id g = group_key r0 ∧ g_name g = group_name categories r0 ∧
                        (total g == sum_amounts (r0 :: rest))%Q;
  einv_rows : mjoin (rows <$> grouped.*2) ≡ₚ l
}.

(** The total of the group of a key, zero when there is no such group. *)
Definition group_total (grouped : gmap string group) (k : string) : Q :=
  from_option total 0%Q (grouped !! k).

(** The map over the collection in [deleteCategory]. *)
Definition recategorize (categoryId : string) (other : jsv string) (e : Expense.t) : Expense.t :=
  if strict_eq (Expense.category_id e) (Val categoryId) then with_category other e else e.

(** A collection and a category list in which [c1] is to be deleted. *)
Definition food_state : state := mk_state five_rows food_other food_other five_rows.

(** The rows of the [budgets] table of a user and a trip. *)
Definition trip_budget_row (user_id tripId : string) (b : Budget.t) : bool :=
  bool_decide (Budget.user_id b = user_id) && bool_decide (Budget.trip_id b = Some tripId).

(** [budgetSums[tripId] || 0] as [loadTripsWithSummary] computes it from the
    [budgets] table. *)
Definition card_budget (budgets : list Budget.t) (user_id tripId : string) : Q :=
  TripsTab.sum_at (foldl TripsTab.budget_step (∅, ∅) (TripsTab.budgetsData budgets user_id)).1
    tripId.

(** Two budget rows of the trip [goa], as the dashboard saves them. *)
Definition goa_budgets : list Budget.t :=
  [Budget.mk "u1" (Some "t1") "2025-03" 1000; Budget.mk "u1" (Some "t1") "2025-04" 1000].

(** No two rows of a collection have the same id. *)
Definition distinct_ids (l : list Expense.t) : Prop := NoDup (Expense.id <$> l).

(** Every character of a string passes a test. *)
Fixpoint string_forall (p : ascii → bool) (s : string) : bool :=
  match s with
  | EmptyString => true
  | String c t => p c && string_forall p t
  end.

(** A text without a digit. *)
Definition no_digit (s : string) : bool := string_forall (λ c, negb (is_digit c)) s.

(** The tables of a user with one trip, one expense of the trip and two
    budget rows, and the tab before its first load. *)
Definition goa_tables : TripsTab.tables :=
  TripsTab.mk_tables food_other [TripsTab.mk_trip_row "u1" goa] [snacks] goa_budgets.

Definition empty_tab : TripsTab.tab := TripsTab.mk_tab ∅ [] ∅ ∅.


(** * Properties *)

(** ** Sums of amounts *)

Lemma Qplus_swap_L (y a b : Q) : (y + a + b = y + b + a)%Q.
Proof.
  destruct y as [yn yd], a as [an ad], b as [bn bd].
  unfold Qplus; cbn [Qnum Qden]. f_equal; [ | lia ].
  rewrite !Pos2Z.inj_mul. ring.
Qed.

Lemma or0_eq (q : Q) : (or0 q == q)%Q.
Proof.
  unfold or0, num_or0. destruct (Qeq_bool q 0) eqn:E; [ | reflexivity ].
  apply Qeq_bool_eq in E. symmetry. exact E.
Qed.

Lemma num_or0_Val (q : Q) : (num_or0 (Val q) == q)%Q.
Proof. apply or0_eq. Qed.

Lemma sum_amounts_app (l1 l2 : list Expense.t) :
  (sum_amounts (l1 ++ l2) == sum_amounts l1 + sum_amounts l2)%Q.
Proof.
  induction l1 as [ | r l1 IH ]; cbn.
  - symmetry. apply Qplus_0_l.
  - fold (sum_amounts (l1 ++ l2)) (sum_amounts l1). rewrite IH. ring.
Qed.

Lemma sum_amounts_snoc (l : list Expense.t) (r : Expense.t) :
  (sum_amounts (l ++ [r]) == sum_amounts l + num_or0 (Expense.amount r))%Q.
Proof. rewrite sum_amounts_app. cbn. ring. Qed.

Lemma sum_amounts_perm (l1 l2 : list Expense.t) :
  l1 ≡ₚ l2 → (sum_amounts l1 == sum_amounts l2)%Q.
Proof.
  induction 1 as [ | x l l' _ IH | x y l | l l' l'' _ IH1 _ IH2 ]; cbn.
  - reflexivity.
  - fold (sum_amounts l) (sum_amounts l'). rewrite IH. reflexivity.
  - fold (sum_amounts l). ring.
  - rewrite IH1. exact IH2.
Qed.

Lemma filter_none {A} (f : A → bool) (l : list A) :
  (∀ x, In x l → f x = false) → List.filter f l = [].
Proof.
  induction l as [ | a l IH ]; intros H; cbn; [ done | ].
  rewrite (H a) by (by left). apply IH. intros x Hx. apply H. by right.
Qed.

Lemma foldl_as_foldr {A B} (f : A → B → A) (a : A) (l : list B) :
  foldl f a l = foldr (λ x acc, f acc x) a (rev l).
Proof.
  induction l as [ | x l IH ] using rev_ind; [ done | ].
  by rewrite foldl_snoc, rev_unit, IH.
Qed.

(** ** The first loop: lent, borrowed, the rest *)

Lemma partition_kinds_spec (l : list Expense.t) (p : partition) :
  (lendedTotal (foldl partition_step p l)
     == lendedTotal p + sum_amounts (List.filter is_lended l))%Q ∧
  (borrowedTotal (foldl partition_step p l)
     == borrowedTotal p + sum_amounts (List.filter is_borrowed l))%Q ∧
  catExpenses (foldl partition_step p l) = (catExpenses p ++ List.filter is_plain l)%list.
Proof.
  revert p. induction l as [ | r l IH ]; intros p; cbn [foldl List.filter].
  - cbn. rewrite app_nil_r. repeat split; ring.
  - destruct (IH (partition_step p r)) as (H1 & H2 & H3).
    rewrite H1, H2, H3. unfold partition_step, is_plain, is_lended, is_borrowed.
    destruct (Expense.kind r) as [ | | k ]; cbn.
    1,2: repeat split;
      first [ reflexivity | rewrite <- app_assoc; reflexivity ].
    repeat case_bool_decide; subst; try discriminate; cbn; unfold sum_amounts;
      repeat split;
      first [ reflexivity | ring | rewrite <- app_assoc; reflexivity ].
Qed.

(** ** The second loop: groups by category *)

Lemma totalSpent_insert_fresh (m : gmap string group) (k : string) (g : group) :
  m !! k = None → totalSpent (<[k := g]> m) = (totalSpent m + or0 (total g))%Q.
Proof.
  intros Hk. unfold totalSpent.
  rewrite map_fold_insert_L; [ reflexivity | | exact Hk ].
  intros. apply Qplus_swap_L.
Qed.

Lemma totalSpent_insert_over (m : gmap string group) (k : string) (g0 g : group) :
  m !! k = Some g0 →
  (totalSpent (<[k := g]> m) + or0 (total g0) == totalSpent m + or0 (total g))%Q.
Proof.
  intros Hk.
  rewrite <- (insert_delete_id m k g0 Hk) at 2.
  rewrite <- (insert_delete_eq m k g).
  rewrite !totalSpent_insert_fresh by apply lookup_delete_eq.
  ring.
Qed.

Lemma totalSpent_empty : totalSpent ∅ = 0%Q.
Proof. unfold totalSpent. apply map_fold_empty. Qed.

(** [Object.values(grouped)] lists the groups in the order of the object's
    keys; the reduction gives [totalSpent] in whatever order the groups
    come. *)
Lemma totalSpent_any_order (grouped : gmap string group) (values : list (string * group)) :
  values ≡ₚ map_to_list grouped →
  foldl (λ s kg, (s + or0 (total kg.2))%Q) 0%Q values = totalSpent grouped.
Proof.
  intros Hperm. unfold totalSpent. rewrite map_fold_foldr.
  rewrite foldl_as_foldr.
  transitivity (foldr (λ kg s, (s + or0 (total kg.2))%Q) 0%Q (map_to_list grouped)).
  - apply (foldr_permutation_proper (=)).
    + by intros kg s1 s2 ->.
    + intros a1 a2 b. apply Qplus_swap_L.
    + by rewrite <- Permutation_rev.
  - apply foldr_ext; [ | done | done ]. by intros [k g] s.
Qed.

Lemma grouped_inv_empty : grouped_inv [] ∅.
Proof.
  split; try (intros k g H; by rewrite lookup_empty in H).
  - intros r H. by apply elem_of_nil in H.
  - rewrite totalSpent_empty. reflexivity.
Qed.

Lemma filter_has_key_same (l : list Expense.t) (r : Expense.t) :
  List.filter (has_key (group_key r)) (l ++ [r]) =
  (List.filter (has_key (group_key r)) l ++ [r])%list.
Proof.
  rewrite List.filter_app. cbn. unfold has_key at 2.
  by rewrite bool_decide_eq_true_2.
Qed.

Lemma filter_has_key_other (k : string) (l : list Expense.t) (r : Expense.t) :
  group_key r ≠ k →
  List.filter (has_key k) (l ++ [r]) = List.filter (has_key k) l.
Proof.
  intros H. rewrite List.filter_app. cbn. unfold has_key at 2.
  rewrite bool_decide_eq_false_2 by done. by rewrite app_nil_r.
Qed.

Section Grouping.

(** The names of the categories play no part in the totals. *)
Context (names : gmap string string).

Lemma grouped_inv_add_row (l : list Expense.t) (m : gmap string group) (r : Expense.t) :
  grouped_inv l m → grouped_inv (l ++ [r]) (add_row names m r).
Proof.
  intros [Hrows Htot Hid Hdom Hsum]. unfold add_row.
  set (key := group_key r).
  set (g := match m !! key with Some g => g | None => _ end).
  assert (Hg_rows : rows g = List.filter (has_key key) l).
  { subst g. destruct (m !! key) as [g0|] eqn:E; [ by apply Hrows | ].
    cbn. symmetry. apply filter_none.
    intros x Hx. unfold has_key. case_bool_decide as Hk; [ | done ].
    apply list_elem_of_In, Hdom in Hx. rewrite Hk, E in Hx. by destruct Hx. }
  assert (Hg_tot : (total g == sum_amounts (rows g))%Q).
  { subst g. destruct (m !! key) as [g0|] eqn:E; [ by eapply Htot | reflexivity ]. }
  assert (Hg_id : g_id g = key).
  { subst g. destruct (m !! key) as [g0|] eqn:E; [ by eapply Hid | reflexivity ]. }
  split.
  - intros k g'. rewrite lookup_insert. case_decide as Hk.
    + intros [= <-]. cbn [rows]. subst k key. by rewrite filter_has_key_same, Hg_rows.
    + intros Hg'. rewrite filter_has_key_other by done. by apply Hrows.
  - intros k g'. rewrite lookup_insert. case_decide as Hk.
    + intros [= <-]. cbn [total rows]. rewrite sum_amounts_snoc, or0_eq, Hg_tot. reflexivity.
    + by apply Htot.
  - intros k g'. rewrite lookup_insert. case_decide as Hk.
    + intros [= <-]. cbn [g_id]. by rewrite Hg_id.
    + by apply Hid.
  - intros x Hx. rewrite lookup_insert. case_decide; [ by eexists | ].
    apply elem_of_app in Hx as [Hx | Hx]; [ by apply Hdom | ].
    apply list_elem_of_singleton in Hx. by subst.
  - rewrite sum_amounts_snoc, <- Hsum.
    destruct (m !! key) as [g0|] eqn:E.
    + apply (Qplus_inj_r _ _ (or0 (total g0))).
      rewrite (totalSpent_insert_over m key g0 _ E). cbn [total]. subst g.
      rewrite !or0_eq. ring.
    + rewrite (totalSpent_insert_fresh m key _ E). cbn [total]. subst g.
      rewrite !or0_eq. cbn [total]. ring.
Qed.

Lemma grouped_inv_ensure (l : list Expense.t) (m : gmap string group) (c : Category.t) :
  grouped_inv l m → grouped_inv l (ensure_category m c).
Proof.
  intros [Hrows Htot Hid Hdom Hsum]. unfold ensure_category.
  destruct (m !! Category.id c) as [g0|] eqn:E; [ by split | ].
  split.
  - intros k g'. rewrite lookup_insert. case_decide as Hk; [ | by apply Hrows ].
    intros [= <-]. cbn. subst k. symmetry. apply filter_none.
    intros x Hx. unfold has_key. case_bool_decide as Hk; [ | done ].
    apply list_elem_of_In, Hdom in Hx. rewrite Hk, E in Hx. by destruct Hx.
  - intros k g'. rewrite lookup_insert. case_decide as Hk; [ | by apply Htot ].
    intros [= <-]. reflexivity.
  - intros k g'. rewrite lookup_insert. case_decide as Hk; [ | by apply Hid ].
    by intros [= <-].
  - intros x Hx. rewrite lookup_insert. case_decide; [ by eexists | by apply Hdom ].
  - rewrite (totalSpent_insert_fresh m _ _ E), <- Hsum. cbn [total].
    rewrite or0_eq. ring.
Qed.

Lemma grouped_inv_rows (l l0 : list Expense.t) (m : gmap string group) :
  grouped_inv l0 m → grouped_inv (l0 ++ l) (foldl (add_row names) m l).
Proof.
  revert l0 m. induction l as [ | r l IH ]; intros l0 m H; cbn.
  - by rewrite app_nil_r.
  - rewrite (cons_middle r l0 l), app_assoc. apply IH. by apply grouped_inv_add_row.
Qed.

End Grouping.

Lemma grouped_inv_categories (l : list Expense.t) (cs : list Category.t)
    (m : gmap string group) :
  grouped_inv l m → grouped_inv l (foldl ensure_category m cs).
Proof.
  revert m. induction cs as [ | c cs IH ]; intros m H; cbn; [ done | ].
  apply IH. by apply grouped_inv_ensure.
Qed.

Lemma compute_grouped_inv (expenses : list Expense.t) (categories : list Category.t) :
  grouped_inv (List.filter is_plain expenses) (compute_grouped expenses categories).
Proof.
  unfold compute_grouped, partition_kinds.
  destruct (partition_kinds_spec expenses (mk_partition 0 0 [])) as (_ & _ & ->).
  cbn [catExpenses app]. apply grouped_inv_categories.
  apply (grouped_inv_rows _ _ []). apply grouped_inv_empty.
Qed.

(** The grand total of a collection is the sum of its plain rows. *)
Lemma totalSpent_collection (expenses : list Expense.t) (categories : list Category.t) :
  (totalSpent (compute_grouped expenses categories)
     == sum_amounts (List.filter is_plain expenses))%Q.
Proof. apply (inv_sum _ _ (compute_grouped_inv expenses categories)). Qed.

Example five_rows_grouped :
  let grouped := compute_grouped five_rows food_other in
  total <$> grouped !! "c1" = Some 107%Q ∧
  total <$> grouped !! "uncategorized" = Some (25 # 2) ∧
  total <$> grouped !! "c2" = Some 0%Q ∧
  g_name <$> grouped !! "uncategorized" = Some "Other" ∧
  Qred (totalSpent grouped) = (239 # 2) ∧
  lendedTotal (partition_kinds five_rows) = 30%Q ∧
  borrowedTotal (partition_kinds five_rows) = 500%Q.
Proof. by vm_compute. Qed.



(** ** Budget ledger *)

Lemma foldl_budget_sum (l : list Budget.t) (a : Q) :
  (foldl (λ sum row, (sum + or0 (Budget.amount row))%Q) a l == a + budget_sum l)%Q.
Proof.
  revert a. induction l as [ | b l IH ]; intros a; cbn [foldl budget_sum foldr].
  - ring.
  - rewrite IH. fold (budget_sum l). ring.
Qed.

Lemma period_budget_sum (budgets : list Budget.t) (u : string) (ctx : option string)
    (months : list string) :
  (period_budget budgets u ctx months
     == budget_sum (List.filter (budget_match u ctx months) budgets))%Q.
Proof. unfold period_budget. rewrite foldl_budget_sum. ring. Qed.

Lemma budget_match_true (u : string) (ctx : option string) (months : list string)
    (b : Budget.t) :
  budget_match u ctx months b = true ↔
  Budget.user_id b = u ∧ Budget.month_year b ∈ months ∧ Budget.trip_id b = ctx.
Proof.
  unfold budget_match. rewrite !andb_true_iff, !bool_decide_eq_true. tauto.
Qed.

Lemma budget_match_new (u : string) (ctx : option string) (months : list string)
    (m : string) (a : Q) :
  budget_match u ctx months (Budget.mk u ctx m a) = bool_decide (m ∈ months).
Proof.
  unfold budget_match. cbn [Budget.user_id Budget.trip_id Budget.month_year].
  rewrite (bool_decide_eq_true_2 (u = u)), (bool_decide_eq_true_2 (ctx = ctx)) by done.
  by destruct (bool_decide (m ∈ months)).
Qed.





(** ** Which months a budget touches *)


(** ** Balance and usage percentage *)

Lemma Qltb_true (a b : Q) : Qltb a b = true ↔ (a < b)%Q.
Proof.
  unfold Qltb. rewrite negb_true_iff. split.
  - intros H. apply Qnot_le_lt. intros Hle. apply Qle_bool_iff in Hle. congruence.
  - intros H. destruct (Qle_bool b a) eqn:E; [ | done ].
    apply Qle_bool_iff in E. exfalso. by apply (Qlt_not_le a b).
Qed.

Lemma Math_min_le_l (a b : Q) : (Math_min a b <= a)%Q.
Proof.
  unfold Math_min. destruct (Qle_bool a b) eqn:E; [ apply Qle_refl | ].
  apply Qlt_le_weak, Qnot_le_lt. intros H. apply Qle_bool_iff in H. congruence.
Qed.

Lemma Math_min_le_r (a b : Q) : (Math_min a b <= b)%Q.
Proof.
  unfold Math_min. destruct (Qle_bool a b) eqn:E; [ by apply Qle_bool_iff | apply Qle_refl ].
Qed.

(** The dashboard: 0 without a positive budget, otherwise the uncapped
    ratio; only the bar is capped. *)
Lemma dashboard_progress (totalBudget spent : Q) :
  ((totalBudget == 0)%Q → progress_text totalBudget spent = 0%Q) ∧
  ((0 < totalBudget)%Q → progress_text totalBudget spent = (spent / totalBudget * 100)%Q) ∧
  (bar_width totalBudget spent <= 100)%Q ∧
  ((progress totalBudget spent <= 100)%Q →
     bar_width totalBudget spent = progress totalBudget spent).
Proof.
  unfold progress_text, bar_width, progress. repeat split.
  - intros H0. destruct (Qltb 0 totalBudget) eqn:E; [ | done ].
    apply Qltb_true in E. rewrite H0 in E. by apply Qlt_irrefl in E.
  - intros Hpos. apply Qltb_true in Hpos. by rewrite Hpos.
  - apply Math_min_le_r.
  - intros H. unfold Math_min. apply Qle_bool_iff in H. by rewrite H.
Qed.

(** Scenario 4 on the dashboard: budget 1000, spent 1200. *)
Lemma dashboard_scenario_4 :
  (Dashboard.balance 1000 1200 == -200)%Q ∧
  (progress_text 1000 1200 == 120)%Q ∧
  (bar_width 1000 1200 == 100)%Q.
Proof. by vm_compute. Qed.

(** The trip cards never show more than 100. *)
Lemma trip_pct_at_most_100 (budget spent : Q) : (TripsTab.pct_text budget spent <= 100)%Q.
Proof.
  unfold TripsTab.pct_text, TripsTab.spentPct.
  destruct (Qltb 0 budget); [ apply Math_min_le_l | discriminate ].
Qed.

(** C3, on the trip cards. For a trip with budget 1000 and 1200 spent the
    balance is -200 and the dashboard reports 120, but the trip card
    prints 100: [spentPct] is capped before it is printed, and the test
    [spentPct > 100] that colours the bar never holds. *)
Theorem trip_card_usage_is_capped :
  (TripsTab.balance 1000 1200 == -200)%Q ∧
  (progress_text 1000 1200 == 120)%Q ∧
  (TripsTab.pct_text 1000 1200 == 100)%Q ∧
  ¬ (TripsTab.pct_text 1000 1200 == 1200 / 1000 * 100)%Q ∧
  (∀ budget spent, TripsTab.bar_is_red budget spent = false).
Proof.
  repeat split; try by vm_compute.
  intros budget spent. unfold TripsTab.bar_is_red.
  destruct (Qltb 100 (TripsTab.spentPct budget spent)) eqn:E; [ | done ].
  apply Qltb_true in E. exfalso.
  by apply (Qlt_not_le _ _ E), trip_pct_at_most_100.
Qed.

(** ** Live reconciliation *)

Lemma strict_eq_refl (x : jsv string) : strict_eq x x = true.
Proof. destruct x; cbn; [ done | done | by apply bool_decide_eq_true_2 ]. Qed.

Lemma strict_eq_Val_true (x : jsv string) (y : string) :
  strict_eq x (Val y) = true ↔ x = Val y.
Proof.
  destruct x as [ | | x ]; cbn; [ done | done | ].
  rewrite bool_decide_eq_true. split; congruence.
Qed.

Lemma has_id_prepend (row : Expense.t) (prev : list Expense.t) :
  has_id (Expense.id row) (prepend_new row prev) = true.
Proof.
  unfold prepend_new. destruct (has_id (Expense.id row) prev) eqn:E; [ done | ].
  cbn. by rewrite strict_eq_refl.
Qed.

(** A row whose identifier is held already is not added again. *)
Lemma prepend_new_present (row : Expense.t) (prev : list Expense.t) :
  has_id (Expense.id row) prev = true → prepend_new row prev = prev.
Proof. intros H. unfold prepend_new. by rewrite H. Qed.

Lemma prepend_new_idem (row : Expense.t) (prev : list Expense.t) :
  prepend_new row (prepend_new row prev) = prepend_new row prev.
Proof. apply prepend_new_present, has_id_prepend. Qed.

(** C5. Dedup idempotence. Applying the same insert twice, whether it is the
    optimistic [expense-added] event or the INSERT notification, gives the
    collection that applying it once gives; and once a row with that
    identifier is held, neither path adds it again. *)
Theorem insert_idempotent (v : View.t) (refs : option (string * string))
    (row : Expense.t) (prev : list Expense.t) :
  on_insert refs (Some row) (on_insert refs (Some row) prev) = on_insert refs (Some row) prev ∧
  handleAdded v refs row (handleAdded v refs row prev) = handleAdded v refs row prev ∧
  (has_id (Expense.id row) prev = true →
     on_insert refs (Some row) prev = prev ∧ handleAdded v refs row prev = prev).
Proof.
  split; [ | split ].
  - unfold on_insert. destruct (refs_set refs) as [bounds|]; [ | done ].
    destruct (in_range_strings bounds (Expense.date row)); [ | done ].
    apply prepend_new_idem.
  - unfold handleAdded.
    destruct (negb (strict_eq (Expense.user_id row) (Val (View.user_id v)))); [ done | ].
    destruct (match View.trip v with Some t => _ | None => _ end); [ done | ].
    destruct (negb (in_range_dates refs (Expense.date row))); [ done | ].
    apply prepend_new_idem.
  - intros H. split.
    + unfold on_insert. destruct (refs_set refs) as [bounds|]; [ | done ].
      destruct (in_range_strings bounds (Expense.date row)); [ | done ].
      by apply prepend_new_present.
    + unfold handleAdded.
      destruct (negb (strict_eq (Expense.user_id row) (Val (View.user_id v)))); [ done | ].
      destruct (match View.trip v with Some t => _ | None => _ end); [ done | ].
      destruct (negb (in_range_dates refs (Expense.date row))); [ done | ].
      by apply prepend_new_present.
Qed.

(** What [over] keeps: the pushed column when the notification has it. *)
Lemma over_spec {A} (held pushed : jsv A) :
  (pushed = Undef → over held pushed = held) ∧ (pushed ≠ Undef → over held pushed = pushed).
Proof. destruct pushed; cbn; split; congruence. Qed.

Lemma find_id_Some (x : jsv string) (prev : list Expense.t) (held : Expense.t) :
  find_id x prev = Some held → held ∈ prev ∧ strict_eq (Expense.id held) x = true.
Proof.
  unfold find_id. intros H. apply List.find_some in H as [H1 H2].
  by rewrite list_elem_of_In.
Qed.

Lemma find_id_is_Some (x : jsv string) (prev : list Expense.t) (r : Expense.t) :
  r ∈ prev → strict_eq (Expense.id r) x = true → is_Some (find_id x prev).
Proof.
  intros Hr Hx. unfold find_id.
  destruct (List.find _ prev) eqn:E; [ by eexists | ].
  apply list_elem_of_In in Hr. pose proof (List.find_none _ _ E _ Hr) as Hn.
  cbn in Hn. congruence.
Qed.

(** The UPDATE updater, branch by branch, with the range test the handler
    itself makes: a row tested out of range leaves no row of its identifier
    behind; tested in range, the rows keep their places, the rows of other
    identifiers are untouched and a row of that identifier becomes the held
    fields overlaid with the pushed ones. *)
Lemma update_rows_spec (bounds : string * string) (newRow : Expense.t)
    (prev : list Expense.t) :
  let next := update_rows bounds newRow prev in
  (in_range_strings bounds (Expense.date newRow) = false →
     next = List.filter (λ r, negb (strict_eq (Expense.id r) (Expense.id newRow))) prev ∧
     has_id (Expense.id newRow) next = false) ∧
  (in_range_strings bounds (Expense.date newRow) = true →
     length next = length prev ∧
     ∀ (i : nat) (r : Expense.t), prev !! i = Some r →
       (strict_eq (Expense.id r) (Expense.id newRow) = false → next !! i = Some r) ∧
       (strict_eq (Expense.id r) (Expense.id newRow) = true →
          ∃ held, find_id (Expense.id newRow) prev = Some held ∧
                  next !! i = Some (spread held newRow))).
Proof.
  intros next. subst next. unfold update_rows. split; intros Hr; rewrite Hr; cbn [negb].
  - split; [ done | ]. unfold has_id.
    induction prev as [ | a l IH ]; cbn; [ done | ].
    destruct (strict_eq (Expense.id a) (Expense.id newRow)) eqn:E; cbn; [ done | ].
    by rewrite E.
  - split; [ by rewrite length_fmap | ].
    intros i r Hi. rewrite list_lookup_fmap, Hi. cbn. split; intros E; rewrite E; [ done | ].
    destruct (find_id_is_Some (Expense.id newRow) prev r) as [held Hh]; [ | done | ].
    { by eapply list_elem_of_lookup_2. }
    exists held. by rewrite Hh.
Qed.

(** The UPDATE handler with both bounds set is the updater. *)
Lemma on_update_set (s e : string) (newRow : Expense.t) (prev : list Expense.t) :
  s ≠ "" → e ≠ "" →
  on_update (Some (s, e)) (Some newRow) prev = update_rows (s, e) newRow prev.
Proof.
  intros Hs He. unfold on_update, refs_set, truthy.
  by rewrite !bool_decide_eq_false_2.
Qed.

(** ** The order of ISO date strings *)

Lemma append_cons (x : ascii) (a b : string) : String x a +:+ b = String x (a +:+ b).
Proof. reflexivity. Qed.

Lemma append_nil_l (x : string) : EmptyString +:+ x = x.
Proof. reflexivity. Qed.

Lemma append_assoc_s (a b c : string) : (a +:+ b) +:+ c = a +:+ (b +:+ c).
Proof.
  induction a as [ | x a IH ]; [ reflexivity | ].
  by rewrite !append_cons, IH.
Qed.

Lemma code_digit_char (n : Z) : code (digit_char n) = 48 + n mod 10.
Proof.
  unfold code, digit_char.
  pose proof (Z.mod_pos_bound n 10 eq_refl) as Hn.
  rewrite N_ascii_embedding by lia. lia.
Qed.

Lemma str_compare_same_head (c : ascii) (x y : string) :
  str_compare (String c x) (String c y) = str_compare x y.
Proof. cbn. by rewrite Z.compare_refl. Qed.

Lemma str_compare_digit (a b : Z) (x y : string) :
  str_compare (String (digit_char a) x) (String (digit_char b) y) =
  match a mod 10 ?= b mod 10 with
  | Eq => str_compare x y
  | c => c
  end.
Proof.
  cbn [str_compare]. rewrite !code_digit_char.
  by rewrite <- (Zcompare_plus_compat (a mod 10) (b mod 10) 48).
Qed.

(** Comparing two numbers by their leading digits, then by their last. *)
Lemma compare_by_last_digit (a b : Z) (c : comparison) :
  match a / 10 ?= b / 10 with
  | Eq => match a mod 10 ?= b mod 10 with Eq => c | o => o end
  | o => o
  end = match a ?= b with Eq => c | o => o end.
Proof.
  pose proof (Z.div_mod a 10 ltac:(lia)). pose proof (Z.div_mod b 10 ltac:(lia)).
  pose proof (Z.mod_pos_bound a 10 eq_refl). pose proof (Z.mod_pos_bound b 10 eq_refl).
  destruct (Z.compare_spec (a / 10) (b / 10)), (Z.compare_spec (a mod 10) (b mod 10)),
    (Z.compare_spec a b); try done; lia.
Qed.

(** Two numbers written with the same number of digits compare as
    strings the way they compare as numbers. *)
Lemma str_compare_pad (w : nat) (a b : Z) (x y : string) :
  0 <= a < 10 ^ Z.of_nat w → 0 <= b < 10 ^ Z.of_nat w →
  str_compare (pad w a +:+ x) (pad w b +:+ y) =
  match a ?= b with
  | Eq => str_compare x y
  | c => c
  end.
Proof.
  revert a b x y. induction w as [ | w IH ]; intros a b x y Ha Hb.
  - cbn in *. assert (a = 0) by lia. assert (b = 0) by lia. by subst.
  - cbn [pad]. rewrite !append_assoc_s, !append_cons.
    change (EmptyString +:+ x) with x. change (EmptyString +:+ y) with y.
    rewrite Nat2Z.inj_succ, Z.pow_succ_r in Ha, Hb by lia.
    rewrite IH by (split; [ apply Z.div_pos | apply Z.div_lt_upper_bound ]; lia).
    rewrite str_compare_digit. apply compare_by_last_digit.
Qed.

(** Comparing two pairs by their first components, then by their second. *)
Lemma compare_lex (B a1 a2 b1 b2 : Z) (c : comparison) :
  0 <= a2 < B → 0 <= b2 < B →
  match a1 ?= b1 with
  | Eq => match a2 ?= b2 with Eq => c | o => o end
  | o => o
  end = match a1 * B + a2 ?= b1 * B + b2 with Eq => c | o => o end.
Proof.
  intros Ha Hb.
  destruct (Z.compare_spec a1 b1), (Z.compare_spec a2 b2),
    (Z.compare_spec (a1 * B + a2) (b1 * B + b2)); try done; nia.
Qed.

Lemma compare_Eq_id (c : comparison) :
  match c with Eq => Eq | Lt => Lt | Gt => Gt end = c.
Proof. by destruct c. Qed.

Lemma dates_increase_spec (n : nat) (z prev : Z) :
  dates_increase n z prev = true →
  (n ≠ O → day_ok prev z) ∧
  ∀ i, z < i < z + Z.of_nat n → day_ok (date_key (civil_of_doe (i - 1))) i.
Proof.
  revert z prev. induction n as [ | n IH ]; intros z prev H; [ split; [ done | lia ] | ].
  cbn [dates_increase] in H.
  destruct (civil_of_doe z) as [[y m] d] eqn:E.
  destruct ((0 <=? y) && (y <=? 400) && (1 <=? m) && (m <=? 12) && (1 <=? d) && (d <=? 31)
            && (prev <? date_key (y, m, d))) eqn:B; [ | done ].
  repeat (apply andb_true_iff in B as [B ?]).
  assert (Hz : day_ok prev z).
  { split; rewrite E; cbn [fst snd]; lia. }
  destruct (IH _ _ H) as [Hfirst Hrest]. split; [ done | ].
  intros i Hi. destruct (decide (i = z + 1)) as [-> | Hne].
  - replace (z + 1 - 1) with z by lia. rewrite E. apply Hfirst. lia.
  - apply Hrest. lia.
Qed.

Lemma cycle_dates_increase : dates_increase (Z.to_nat 146097) 0 0 = true.
Proof. vm_cast_no_check (eq_refl true). Qed.

Lemma cycle_day_ok (doe : Z) :
  0 <= doe < 146097 →
  0 <= (civil_of_doe doe).1.1 <= 400 ∧
  1 <= (civil_of_doe doe).1.2 <= 12 ∧
  1 <= (civil_of_doe doe).2 <= 31.
Proof.
  intros H. destruct (dates_increase_spec _ _ _ cycle_dates_increase) as [H0 Hrest].
  destruct (decide (doe = 0)) as [-> | Hne].
  - destruct H0 as [? ? ? ?]; [ done | done ].
  - destruct (Hrest doe) as [? ? ? ?]; [ lia | done ].
Qed.

Lemma cycle_next_day (doe : Z) :
  0 < doe < 146097 → date_key (civil_of_doe (doe - 1)) < date_key (civil_of_doe doe).
Proof.
  intros H. destruct (dates_increase_spec _ _ _ cycle_dates_increase) as [_ Hrest].
  destruct (Hrest doe) as [? ? ? ?]; [ lia | done ].
Qed.

Lemma cycle_dates_ordered (i j : Z) :
  0 <= i → i < j → j < 146097 → date_key (civil_of_doe i) < date_key (civil_of_doe j).
Proof.
  intros Hi Hij Hj. revert Hj. pattern j. apply (Zlt_lower_bound_ind _ (i + 1)); [ | lia ].
  intros k IH Hk Hk'. destruct (decide (k = i + 1)) as [-> | Hne].
  - pose proof (cycle_next_day (i + 1) ltac:(lia)) as H.
    by replace (i + 1 - 1) with i in H by lia.
  - pose proof (cycle_next_day k ltac:(lia)).
    pose proof (IH (k - 1) ltac:(lia) ltac:(lia)). lia.
Qed.

(** The date of a day number, by its cycle and its day of the cycle. *)
Lemma civil_from_days_cycle (z : Z) :
  let era := (z + 719468) / 146097 in
  let doe := (z + 719468) mod 146097 in
  civil_from_days z =
    ((civil_of_doe doe).1.1 + era * 400, (civil_of_doe doe).1.2, (civil_of_doe doe).2).
Proof.
  intros era doe. unfold civil_from_days.
  replace (z + 719468 - (z + 719468) / 146097 * 146097) with doe
    by (subst doe; rewrite Z.mod_eq by lia; lia).
  by destruct (civil_of_doe doe) as [[y m] d].
Qed.

Lemma civil_from_days_fields (z : Z) :
  1 <= (civil_from_days z).1.2 <= 12 ∧ 1 <= (civil_from_days z).2 <= 31.
Proof.
  rewrite civil_from_days_cycle. cbn [fst snd].
  apply cycle_day_ok, Z.mod_pos_bound. lia.
Qed.

(** Later days have later dates. *)
Lemma civil_from_days_mono (z1 z2 : Z) :
  z1 < z2 → date_key (civil_from_days z1) < date_key (civil_from_days z2).
Proof.
  intros H. rewrite !civil_from_days_cycle. unfold date_key. cbn [fst snd].
  set (a := z1 + 719468). set (b := z2 + 719468).
  pose proof (Z.mod_pos_bound a 146097 eq_refl) as Ha.
  pose proof (Z.mod_pos_bound b 146097 eq_refl) as Hb.
  pose proof (Z.div_mod a 146097 ltac:(lia)) as Ea.
  pose proof (Z.div_mod b 146097 ltac:(lia)) as Eb.
  pose proof (cycle_day_ok _ Ha) as (Hya & Hma & Hda).
  pose proof (cycle_day_ok _ Hb) as (Hyb & Hmb & Hdb).
  assert (Hab : a < b) by (subst a b; lia).
  destruct (decide (a / 146097 = b / 146097)) as [Heq | Hne].
  - pose proof (cycle_dates_ordered (a mod 146097) (b mod 146097)
                  ltac:(lia) ltac:(lia) ltac:(lia)) as Hk.
    unfold date_key in Hk. rewrite Heq. lia.
  - assert (a / 146097 < b / 146097).
    { pose proof (Z.div_le_mono a b 146097 eq_refl ltac:(lia)). lia. }
    assert (Hlast : date_key (civil_of_doe (a mod 146097)) <= 4000229).
    { destruct (decide (a mod 146097 = 146096)) as [-> | Hn]; [ by vm_compute | ].
      pose proof (cycle_dates_ordered (a mod 146097) 146096 ltac:(lia) ltac:(lia) eq_refl) as Hk.
      vm_compute (date_key (civil_of_doe 146096)) in Hk. lia. }
    assert (Hfirst : 301 <= date_key (civil_of_doe (b mod 146097))).
    { destruct (decide (b mod 146097 = 0)) as [-> | Hn]; [ by vm_compute | ].
      pose proof (cycle_dates_ordered 0 (b mod 146097) ltac:(lia) ltac:(lia) ltac:(lia)) as Hk.
      vm_compute (date_key (civil_of_doe 0)) in Hk. lia. }
    unfold date_key in Hlast, Hfirst. lia.
Qed.

Lemma time_fields (r : Z) :
  0 <= r < msPerDay →
  ∃ h mi s ms,
    r / 3600000 = h ∧ r / 60000 mod 60 = mi ∧ r / 1000 mod 60 = s ∧ r mod 1000 = ms ∧
    r = 3600000 * h + 60000 * mi + 1000 * s + ms ∧
    0 <= h < 24 ∧ 0 <= mi < 60 ∧ 0 <= s < 60 ∧ 0 <= ms < 1000.
Proof.
  unfold msPerDay. intros Hr.
  exists (r / 3600000), (r / 60000 mod 60), (r / 1000 mod 60), (r mod 1000).
  pose proof (Z.div_mod r 1000 ltac:(lia)).
  pose proof (Z.mod_pos_bound r 1000 eq_refl).
  pose proof (Z.div_mod (r / 1000) 60 ltac:(lia)).
  pose proof (Z.mod_pos_bound (r / 1000) 60 eq_refl).
  pose proof (Z.div_mod (r / 60000) 60 ltac:(lia)).
  pose proof (Z.mod_pos_bound (r / 60000) 60 eq_refl).
  assert (r / 1000 / 60 = r / 60000) by (rewrite Z.div_div by lia; done).
  assert (r / 60000 / 60 = r / 3600000) by (rewrite Z.div_div by lia; done).
  repeat split; try done; lia.
Qed.

Lemma time_key_mono (r1 r2 : Z) :
  0 <= r1 → r1 < r2 → r2 < msPerDay → 0 <= time_key r1 < time_key r2 ∧ time_key r2 < 1000000000.
Proof.
  intros H1 H12 H2.
  destruct (time_fields r1 ltac:(lia)) as (h1 & mi1 & s1 & ms1 & E1 & E2 & E3 & E4 & Er1 & ?).
  destruct (time_fields r2 ltac:(lia)) as (h2 & mi2 & s2 & ms2 & F1 & F2 & F3 & F4 & Er2 & ?).
  unfold time_key. rewrite E1, E2, E3, E4, F1, F2, F3, F4. lia.
Qed.

Lemma time_key_bound (r : Z) : 0 <= r < msPerDay → 0 <= time_key r < 1000000000.
Proof.
  intros H.
  destruct (time_fields r H) as (h1 & mi1 & s1 & ms1 & E1 & E2 & E3 & E4 & Er1 & ?).
  unfold time_key. rewrite E1, E2, E3, E4. lia.
Qed.

(** Later instants have larger keys. *)
Lemma iso_key_mono (t1 t2 : Z) : t1 < t2 → iso_key t1 < iso_key t2.
Proof.
  intros H. unfold iso_key.
  pose proof (Z.mod_pos_bound t1 msPerDay eq_refl) as B1.
  pose proof (Z.mod_pos_bound t2 msPerDay eq_refl) as B2.
  pose proof (Z.div_mod t1 msPerDay ltac:(done)) as E1.
  pose proof (Z.div_mod t2 msPerDay ltac:(done)) as E2.
  pose proof (time_key_bound _ B1). pose proof (time_key_bound _ B2).
  destruct (decide (t1 / msPerDay = t2 / msPerDay)) as [Heq | Hne].
  - rewrite Heq. pose proof (time_key_mono (t1 mod msPerDay) (t2 mod msPerDay)). lia.
  - assert (t1 / msPerDay < t2 / msPerDay).
    { pose proof (Z.div_le_mono t1 t2 msPerDay eq_refl ltac:(lia)). lia. }
    pose proof (civil_from_days_mono _ _ H2). lia.
Qed.

Lemma iso_key_compare (t1 t2 : Z) : (iso_key t1 ?= iso_key t2) = (t1 ?= t2).
Proof.
  destruct (Z.compare_spec t1 t2) as [-> | H | H].
  - apply Z.compare_refl.
  - apply Z.compare_lt_iff. by apply iso_key_mono.
  - apply Z.compare_gt_iff. by apply iso_key_mono.
Qed.

Lemma iso_year_range (t : Z) :
  iso_min <= t <= iso_max → 0 <= (civil_from_days (t / msPerDay)).1.1 <= 9999.
Proof.
  unfold iso_min, iso_max. intros Ht.
  assert (Hd : -719528 <= t / msPerDay <= 2932896).
  { split.
    - apply (Z.div_le_lower_bound t msPerDay); [ done | unfold msPerDay; lia ].
    - apply Z.lt_succ_r, (Z.div_lt_upper_bound t msPerDay); [ done | unfold msPerDay; lia ]. }
  pose proof (civil_from_days_fields (t / msPerDay)) as (Hm & Hday).
  assert (Hlo : 101 <= date_key (civil_from_days (t / msPerDay))).
  { destruct (decide (t / msPerDay = -719528)) as [-> | Hn]; [ by vm_compute | ].
    pose proof (civil_from_days_mono (-719528) (t / msPerDay) ltac:(lia)) as Hk.
    vm_compute (date_key (civil_from_days (-719528))) in Hk. lia. }
  assert (Hhi : date_key (civil_from_days (t / msPerDay)) <= 99991231).
  { destruct (decide (t / msPerDay = 2932896)) as [-> | Hn]; [ by vm_compute | ].
    pose proof (civil_from_days_mono (t / msPerDay) 2932896 ltac:(lia)) as Hk.
    vm_compute (date_key (civil_from_days 2932896)) in Hk. lia. }
  unfold date_key in Hlo, Hhi. lia.
Qed.

(** Two instants printed by [toISOString] with years of four digits compare
    as strings the way they compare as instants. *)
Lemma str_compare_toISOString (t1 t2 : Z) :
  iso_min <= t1 <= iso_max → iso_min <= t2 <= iso_max →
  str_compare (toISOString t1) (toISOString t2) = (t1 ?= t2).
Proof.
  intros H1 H2. rewrite <- iso_key_compare.
  pose proof (iso_year_range t1 H1) as Hy1. pose proof (iso_year_range t2 H2) as Hy2.
  pose proof (civil_from_days_fields (t1 / msPerDay)) as (Hm1 & Hd1).
  pose proof (civil_from_days_fields (t2 / msPerDay)) as (Hm2 & Hd2).
  destruct (time_fields (t1 mod msPerDay) (Z.mod_pos_bound t1 msPerDay eq_refl))
    as (h1 & mi1 & s1 & ms1 & E1 & E2 & E3 & E4 & _ & ? & ? & ? & ?).
  destruct (time_fields (t2 mod msPerDay) (Z.mod_pos_bound t2 msPerDay eq_refl))
    as (h2 & mi2 & s2 & ms2 & F1 & F2 & F3 & F4 & _ & ? & ? & ? & ?).
  unfold iso_key, date_key, time_key, toISOString.
  destruct (civil_from_days (t1 / msPerDay)) as [[y1 m1] d1].
  destruct (civil_from_days (t2 / msPerDay)) as [[y2 m2] d2].
  cbn [fst snd] in *. rewrite E1, E2, E3, E4, F1, F2, F3, F4.
  unfold iso_year.
  replace ((0 <=? y1) && (y1 <=? 9999)) with true by (symmetry; apply andb_true_iff; lia).
  replace ((0 <=? y2) && (y2 <=? 9999)) with true by (symmetry; apply andb_true_iff; lia).
  rewrite !append_cons, !append_nil_l.
  rewrite (str_compare_pad 4) by (cbn; lia). rewrite str_compare_same_head.
  rewrite (str_compare_pad 2) by (cbn; lia). rewrite str_compare_same_head.
  rewrite (str_compare_pad 2) by (cbn; lia). rewrite str_compare_same_head.
  rewrite (str_compare_pad 2) by (cbn; lia). rewrite str_compare_same_head.
  rewrite (str_compare_pad 2) by (cbn; lia). rewrite str_compare_same_head.
  rewrite (str_compare_pad 2) by (cbn; lia). rewrite str_compare_same_head.
  rewrite (str_compare_pad 3) by (cbn; lia).
  change (str_compare "Z" "Z") with Eq.
  rewrite (compare_lex 100 y1 m1 y2 m2) by lia.
  rewrite (compare_lex 100 _ d1 _ d2) by lia.
  rewrite (compare_lex 100 _ h1 _ h2) by lia.
  rewrite (compare_lex 100 _ mi1 _ mi2) by lia.
  rewrite (compare_lex 100 _ s1 _ s2) by lia.
  rewrite (compare_lex 1000 _ ms1 _ ms2) by lia.
  rewrite compare_Eq_id. f_equal; ring.
Qed.

(** ** Range membership at the bounds *)

(** The two tests that compare instants are the closed interval between the
    instants of the bounds, for every date that can be read. *)
Lemma instant_tests_closed (bounds : string * string) (d : string) (t lo hi : Z) :
  Date_parse d = Some t → Date_parse bounds.1 = Some lo → Date_parse bounds.2 = Some hi →
  in_range_store bounds (Val d) = (lo <=? t) && (t <=? hi) ∧
  in_range_dates (Some bounds) (Val d) = (lo <=? t) && (t <=? hi).
Proof.
  intros Hd Hlo Hhi. unfold in_range_store, in_range_dates, instant. cbn [mbind option_bind].
  rewrite Hd, Hlo, Hhi. split; [ done | ]. cbn [date_lt].
  rewrite negb_orb. f_equal; [ | rewrite (Z.leb_antisym hi t) ]; by rewrite ?Z.leb_antisym.
Qed.

(** For dates printed by [toISOString] with years of four digits, the
    notification test is the closed interval of instants. *)
Lemma notification_test_closed (t lo hi : Z) :
  iso_min <= t <= iso_max → iso_min <= lo <= iso_max → iso_min <= hi <= iso_max →
  in_range_strings (toISOString lo, toISOString hi) (Val (toISOString t))
  = (lo <=? t) && (t <=? hi).
Proof.
  intros Ht Hlo Hhi. unfold in_range_strings, str_ge, str_le. cbn [fst snd].
  rewrite !str_compare_toISOString by done.
  destruct (Z.compare_spec t lo), (Z.compare_spec t hi), (Z.leb_spec lo t), (Z.leb_spec t hi);
    try done; lia.
Qed.

(** The bounds built for a range are the printed instants of the start of
    its first day and of the last millisecond of its last day. *)
Lemma isoRefs_instants (startDateStr endDateStr : string) (sy sm sd ey em ed lo hi : Z) :
  ymd startDateStr = (Some sy, Some sm, Some sd) →
  ymd endDateStr = (Some ey, Some em, Some ed) →
  Date_UTC sy (sm - 1) sd 0 0 0 0 = Some lo →
  Date_UTC ey (em - 1) ed 23 59 59 999 = Some hi →
  isoRefs startDateStr endDateStr = Some (toISOString lo, toISOString hi) ∧
  (∀ first, Date_UTC ey (em - 1) ed 0 0 0 0 = Some first → hi = first + msPerDay - 1).
Proof.
  intros Hs He Hlo Hhi. split.
  - unfold isoRefs, utc_iso. rewrite Hs, He. cbn [mbind option_bind].
    by rewrite Hlo, Hhi.
  - intros first Hf. unfold Date_UTC, TimeClip in Hhi, Hf. cbv zeta in Hhi, Hf.
    set (day := days_from_civil _ _ _ + ed - 1) in Hhi, Hf.
    destruct (Z.abs (day * msPerDay + _) <=? _) in Hhi; [ | done ].
    destruct (Z.abs (day * msPerDay + _) <=? _) in Hf; [ | done ].
    simplify_eq. unfold msPerDay. lia.
Qed.

(** For a range and a row date printed by [toISOString] with years of four
    digits, the notification test holds exactly from the first instant of
    the first day to the last millisecond of the last day, both included. *)
Lemma notification_range_closed (startDateStr endDateStr : string)
    (sy sm sd ey em ed lo hi t : Z) :
  ymd startDateStr = (Some sy, Some sm, Some sd) →
  ymd endDateStr = (Some ey, Some em, Some ed) →
  Date_UTC sy (sm - 1) sd 0 0 0 0 = Some lo →
  Date_UTC ey (em - 1) ed 23 59 59 999 = Some hi →
  iso_min <= lo <= iso_max → iso_min <= hi <= iso_max → iso_min <= t <= iso_max →
  ∃ bounds, isoRefs startDateStr endDateStr = Some bounds ∧
            in_range_strings bounds (Val (toISOString t)) = (lo <=? t) && (t <=? hi).
Proof.
  intros Hs He Hlo Hhi Rlo Rhi Rt.
  destruct (isoRefs_instants _ _ _ _ _ _ _ _ _ _ Hs He Hlo Hhi) as [Hrefs _].
  eexists. split; [ exact Hrefs | ]. by apply notification_test_closed.
Qed.

Lemma march_bounds_built :
  isoRefs "2025-03-01" "2025-03-31" = Some march_bounds ∧
  loadRange_bounds "2025-03-01" "2025-03-31" = Some march_bounds.
Proof. by vm_compute. Qed.

(** With dates printed the way [toISOString] prints them, the three range
    tests agree at the bounds of March 2025 and one millisecond outside. *)
Lemma march_bounds_closed :
  let tests d := (in_range_store march_bounds (Val d),
                  in_range_dates (Some march_bounds) (Val d),
                  in_range_strings march_bounds (Val d)) in
  tests "2025-03-01T00:00:00.000Z" = (true, true, true) ∧
  tests "2025-03-31T23:59:59.999Z" = (true, true, true) ∧
  tests "2025-02-28T23:59:59.999Z" = (false, false, false) ∧
  tests "2025-04-01T00:00:00.000Z" = (false, false, false).
Proof. by vm_compute. Qed.

(** C6, at the start of the range. A row dated exactly the first instant
    of 2025-03-01, printed [2025-03-01T00:00:00+00:00], is in the range for
    the bulk load and for the optimistic handler, which compare instants,
    and out of it for the notification handlers, which compare the strings:
    the INSERT notification does not add it. *)
Theorem range_start_dropped_by_notification :
  Date_parse midnight_pg = Date_parse march_bounds.1 ∧
  in_range_store march_bounds (Val midnight_pg) = true ∧
  loadRange [tea midnight_pg] march [] = [tea midnight_pg] ∧
  in_range_dates (Some march_bounds) (Val midnight_pg) = true ∧
  handleAdded march (Some march_bounds) (tea midnight_pg) [] = [tea midnight_pg] ∧
  in_range_strings march_bounds (Val midnight_pg) = false ∧
  on_insert (Some march_bounds) (Some (tea midnight_pg)) [] = [].
Proof. by vm_compute. Qed.

(** C4, at the start of the range. The row is held (the bulk load returned
    it) and the update leaves its date, the first instant of the range,
    as it was; the handler tests the date strings, finds the row out of
    range and removes it instead of merging the new amount into it. *)
Theorem update_at_range_start_evicts :
  loadRange [tea midnight_pg] march [] = [tea midnight_pg] ∧
  in_range_store march_bounds (Expense.date tea_55) = true ∧
  on_update (Some march_bounds) (Some tea_55) [tea midnight_pg] = [] ∧
  Expense.amount (spread (tea midnight_pg) tea_55) = Val 55%Q ∧
  Expense.note (spread (tea midnight_pg) tea_55) = Val "tea".
Proof. by vm_compute. Qed.

(** ** Bulk load *)

#[local] Instance newer_first_total : Total newer_first.
Proof. intros a b. unfold newer_first. lia. Qed.

#[local] Instance newer_first_trans : Transitive newer_first.
Proof. intros a b c. unfold newer_first. lia. Qed.

Lemma sum_plain_perm (l1 l2 : list Expense.t) :
  l1 ≡ₚ l2 → (sum_amounts (List.filter is_plain l1) == sum_amounts (List.filter is_plain l2))%Q.
Proof.
  induction 1 as [ | x l l' _ IH | x y l | l l' l'' _ IH1 _ IH2 ]; cbn [List.filter].
  - reflexivity.
  - destruct (is_plain x); [ | exact IH ].
    cbn. fold (sum_amounts (List.filter is_plain l)) (sum_amounts (List.filter is_plain l')).
    by rewrite IH.
  - destruct (is_plain x), (is_plain y); cbn; try reflexivity.
    fold (sum_amounts (List.filter is_plain l)). ring.
  - by rewrite IH1.
Qed.

Lemma loaded_and_not_loaded (table : list Expense.t) (v : View.t) (bounds : string * string) :
  (loadRange_query table v bounds ++ not_loaded table v bounds)%list
    ≡ₚ filter (λ r, load_filter v bounds r = true) table.
Proof.
  unfold loadRange_query, not_loaded. rewrite firstn_skipn. apply merge_sort_Permutation.
Qed.

Example many_rows_loaded :
  (loadRange many_rows march [], not_loaded many_rows march march_bounds)
  = (minute_row <$> reverse (seq 1 1000), [minute_row 0]).
Proof. vm_cast_no_check (eq_refl (minute_row <$> reverse (seq 1 1000), [minute_row 0])). Qed.

(** The filters of the query, spelled out: the owner, a date that can be
    read and lies between the bounds, both included, and the trip context. *)
Lemma load_filter_spec (v : View.t) (bounds : string * string) (r : Expense.t) :
  load_filter v bounds r = true ↔
  Expense.user_id r = Val (View.user_id v) ∧
  (∃ d t lo hi, Expense.date r = Val d ∧ Date_parse d = Some t ∧
                Date_parse bounds.1 = Some lo ∧ Date_parse bounds.2 = Some hi ∧
                lo <= t <= hi) ∧
  match View.trip v with
  | Some tr => (Trip.id tr ≠ "" ∧ Expense.trip_id r = Val (Trip.id tr)) ∨
               (Trip.id tr = "" ∧ Expense.trip_id r = Null)
  | None => Expense.trip_id r = Null
  end.
Proof.
  assert (Hnull : ∀ x : jsv string, strict_eq x Null = true ↔ x = Null).
  { by intros [ | | x ]. }
  assert (Hdate : in_range_store bounds (Expense.date r) = true ↔
            ∃ d t lo hi, Expense.date r = Val d ∧ Date_parse d = Some t ∧
                         Date_parse bounds.1 = Some lo ∧ Date_parse bounds.2 = Some hi ∧
                         lo <= t <= hi).
  { unfold in_range_store. split.
    - destruct (Expense.date r) as [ | | d ]; try done.
      destruct (Date_parse bounds.1) as [lo | ]; [ | done ].
      destruct (Date_parse bounds.2) as [hi | ]; [ | done ].
      destruct (Date_parse d) as [t | ] eqn:Ed; [ | done ].
      intros H. apply andb_true_iff in H as [H1 H2]. apply Z.leb_le in H1, H2.
      by exists d, t, lo, hi.
    - intros (d & t & lo & hi & -> & Hd & -> & -> & H1 & H2). rewrite Hd.
      apply andb_true_iff. lia. }
  assert (Htrip : match View.trip v with
                  | Some t =>
                      if truthy (Val (Trip.id t))
                      then strict_eq (Expense.trip_id r) (Val (Trip.id t))
                      else strict_eq (Expense.trip_id r) Null
                  | None => strict_eq (Expense.trip_id r) Null
                  end = true ↔
                  match View.trip v with
                  | Some tr => (Trip.id tr ≠ "" ∧ Expense.trip_id r = Val (Trip.id tr)) ∨
                               (Trip.id tr = "" ∧ Expense.trip_id r = Null)
                  | None => Expense.trip_id r = Null
                  end).
  { destruct (View.trip v) as [tr | ]; [ | apply Hnull ]. cbn [truthy].
    destruct (decide (Trip.id tr = "")) as [E | E].
    - rewrite bool_decide_eq_true_2 by done. cbn [negb]. rewrite Hnull. tauto.
    - rewrite bool_decide_eq_false_2 by done. cbn [negb]. rewrite strict_eq_Val_true. tauto. }
  unfold load_filter. rewrite !andb_true_iff, strict_eq_Val_true, Hdate, Htrip. tauto.
Qed.

(** The instant a row of the range is ordered by is the instant of its
    date. *)
Lemma row_time_read (r : Expense.t) (d : string) (t : Z) :
  Expense.date r = Val d → Date_parse d = Some t → row_time r = t.
Proof. intros Hd Ht. unfold row_time, instant. by rewrite Hd, Ht. Qed.

(** C10. The bulk load returns at most 1000 rows, the newest of the rows of
    the range: together with the rows cut off they are the rows of the
    range, and no row cut off is newer than a row returned. When more than
    1000 rows are in the range, exactly 1000 are returned, and the rows cut
    off are in no group, so that the grand total is short of the sum over
    the range by their amounts, and the balance too. The rows of the range
    are the rows of the table of that owner and that trip context whose date
    can be read and lies between the bounds, both included; the rows
    returned come newest first by the instants of their dates, and the date
    of a row cut off is at or before the date of every row returned. *)
Theorem bulk_load_limit (table : list Expense.t) (v : View.t) (bounds : string * string)
    (categories : list Category.t) (totalBudget : Q) :
  let in_range := filter (λ r, load_filter v bounds r = true) table in
  let loaded := loadRange_query table v bounds in
  let cut := not_loaded table v bounds in
  let grouped := compute_grouped loaded categories in
  let dated r t := ∃ d, Expense.date r = Val d ∧ Date_parse d = Some t in
  (length loaded ≤ 1000)%nat ∧
  (loaded ++ cut)%list ≡ₚ in_range ∧
  (∀ kept old, kept ∈ loaded → old ∈ cut → row_time old <= row_time kept) ∧
  (1000 < length in_range →
     length loaded = 1000 ∧ length cut = length in_range - 1000)%nat ∧
  (∀ k g r, grouped !! k = Some g → r ∈ rows g → r ∈ loaded) ∧
  (totalSpent grouped
     == sum_amounts (List.filter is_plain in_range) - sum_amounts (List.filter is_plain cut))%Q ∧
  (Dashboard.balance totalBudget (totalSpent grouped)
     == totalBudget - sum_amounts (List.filter is_plain in_range)
        + sum_amounts (List.filter is_plain cut))%Q ∧
  (∀ r, r ∈ in_range ↔
        r ∈ table ∧
        Expense.user_id r = Val (View.user_id v) ∧
        (∃ t lo hi, dated r t ∧ Date_parse bounds.1 = Some lo ∧
                    Date_parse bounds.2 = Some hi ∧ lo <= t <= hi) ∧
        match View.trip v with
        | Some tr => (Trip.id tr ≠ "" ∧ Expense.trip_id r = Val (Trip.id tr)) ∨
                     (Trip.id tr = "" ∧ Expense.trip_id r = Null)
        | None => Expense.trip_id r = Null
        end) ∧
  (∀ r, r ∈ loaded ∨ r ∈ cut → ∃ t, dated r t) ∧
  (∀ kept old tk to, kept ∈ loaded → old ∈ cut → dated kept tk → dated old to → to <= tk) ∧
  (∀ (i j : nat) a b ta tb, (i < j)%nat → loaded !! i = Some a → loaded !! j = Some b →
     dated a ta → dated b tb → tb <= ta).
Proof.
  intros in_range loaded cut grouped dated.
  pose proof (loaded_and_not_loaded table v bounds) as Hperm.
  fold loaded cut in_range in Hperm.
  assert (Hlen : length (merge_sort newer_first in_range) = length in_range)
    by apply Permutation_length, merge_sort_Permutation.
  assert (Hsum : (totalSpent grouped
     == sum_amounts (List.filter is_plain in_range) - sum_amounts (List.filter is_plain cut))%Q).
  { subst grouped. rewrite totalSpent_collection, <- (sum_plain_perm _ _ Hperm).
    rewrite List.filter_app, sum_amounts_app. ring. }
  assert (Hsorted : StronglySorted newer_first (loaded ++ cut)).
  { subst loaded cut. unfold loadRange_query, not_loaded. rewrite firstn_skipn.
    apply StronglySorted_merge_sort; apply _. }
  assert (Hrange : ∀ r, r ∈ in_range ↔
            r ∈ table ∧
            Expense.user_id r = Val (View.user_id v) ∧
            (∃ t lo hi, dated r t ∧ Date_parse bounds.1 = Some lo ∧
                        Date_parse bounds.2 = Some hi ∧ lo <= t <= hi) ∧
            match View.trip v with
            | Some tr => (Trip.id tr ≠ "" ∧ Expense.trip_id r = Val (Trip.id tr)) ∨
                         (Trip.id tr = "" ∧ Expense.trip_id r = Null)
            | None => Expense.trip_id r = Null
            end).
  { intros r. subst in_range. rewrite list_elem_of_filter, load_filter_spec.
    split.
    - intros ((Hu & (d & t & lo & hi & Hd & Ht & Hlo & Hhi & Hin) & Hc) & Htab).
      split; [ done | ]. split; [ done | ]. split; [ | done ].
      exists t, lo, hi. split; [ by exists d | done ].
    - intros (Htab & Hu & (t & lo & hi & (d & Hd & Ht) & Hlo & Hhi & Hin) & Hc).
      split; [ | done ]. split; [ done | ]. split; [ | done ].
      by exists d, t, lo, hi. }
  assert (Hdated : ∀ r, r ∈ loaded ∨ r ∈ cut → ∃ t, dated r t).
  { intros r Hr. apply elem_of_app in Hr. rewrite Hperm in Hr.
    apply Hrange in Hr as (_ & _ & (t & _ & _ & Hd & _) & _). by exists t. }
  assert (Htime : ∀ r t, dated r t → row_time r = t).
  { intros r t (d & Hd & Ht). by apply (row_time_read r d). }
  assert (Hcut : ∀ kept old, kept ∈ loaded → old ∈ cut → row_time old <= row_time kept).
  { intros kept old Hk Ho.
    by apply (StronglySorted_app_1_elem_of newer_first loaded cut kept old). }
  split; [ | split; [ | split; [ | split; [ | split; [ | split; [ | split;
    [ | split; [ | split; [ | split ] ] ] ] ] ] ] ] ].
  - subst loaded. unfold loadRange_query. rewrite length_take. lia.
  - exact Hperm.
  - exact Hcut.
  - intros Hmany. split.
    + subst loaded. unfold loadRange_query. fold in_range. rewrite length_take. lia.
    + subst cut. unfold not_loaded. fold in_range. rewrite length_drop. lia.
  - intros k g r Hg Hr.
    rewrite (inv_rows _ _ (compute_grouped_inv loaded categories) k g Hg) in Hr.
    apply list_elem_of_In, List.filter_In in Hr as [Hr _].
    apply List.filter_In in Hr as [Hr _]. by apply list_elem_of_In.
  - exact Hsum.
  - unfold Dashboard.balance. rewrite !or0_eq, Hsum. ring.
  - exact Hrange.
  - exact Hdated.
  - intros kept old tk to Hk Ho Dk Do.
    rewrite <- (Htime kept tk Dk), <- (Htime old to Do). by apply Hcut.
  - intros i j a b ta tb Hij Ha Hb Da Db.
    rewrite <- (Htime a ta Da), <- (Htime b tb Db).
    assert (Hl : StronglySorted newer_first (loaded ++ cut)) by done.
    apply (lookup_app_l_Some _ cut) in Ha, Hb.
    clear -Hl Hij Ha Hb. revert i j Hij Ha Hb.
    induction Hl as [ | x l Hl IH Hall ]; intros i j Hij Ha Hb; [ done | ].
    destruct j as [ | j ]; [ lia | ]. cbn in Hb. destruct i as [ | i ].
    + cbn in Ha. injection Ha as ->.
      rewrite Forall_forall in Hall. apply Hall. by eapply list_elem_of_lookup_2.
    + cbn in Ha. apply (IH i j); [ lia | done | done ].
Qed.

(** ** Deleting a category *)



Lemma elem_of_remove_category (categoryId : string) (l : list Category.t) (c : Category.t) :
  c ∈ List.filter (λ c, negb (bool_decide (Category.id c = categoryId))) l ↔
  c ∈ l ∧ Category.id c ≠ categoryId.
Proof.
  rewrite list_elem_of_In, List.filter_In, <- list_elem_of_In.
  by rewrite negb_true_iff, bool_decide_eq_false.
Qed.


(** ** Categorisation fallback *)

(** With the resolver unavailable and a text that is not blank, the result
    is the keyword match. *)
Lemma fallback_is_keyword_match (o : llm_outcome) (text : string) (cats : list Category.t) :
  unavailable o = true → trim text ≠ "" →
  categorizeExpenseWithLLM o text cats = manualCategorizeByKeyword text cats.
Proof.
  intros Ho Ht. unfold categorizeExpenseWithLLM.
  rewrite bool_decide_eq_false_2 by done.
  case_bool_decide; [ done | ]. by destruct o.
Qed.

(** Scenario 2: the borrow marker decides the kind. *)
Lemma scenario_borrowed :
  ∃ p, handleSubmit CallFailed
         [Category.mk "1" "Food"; Category.mk "2" "Other"] "500 borrowed from Raj" = Row p ∧
       ExpenseInput.amount p = 500%Q ∧ ExpenseInput.kind p = "borrowed".
Proof. eexists. by vm_compute. Qed.

(** C9. Categorisation fallback determinism. When the primary resolver is
    unavailable, the category and the whole parsed row depend on the text
    and the category list only: whichever way the resolver failed, the
    result is the same, and it is the keyword match. For the text
    "250 lunch with friends" and the categories Food and Other the row has
    amount 250, kind "expense", category "Food" found by the keyword
    pattern, and description "lunch with friends". *)
Theorem fallback_deterministic :
  (∀ o1 o2 text cats,
     unavailable o1 = true → unavailable o2 = true →
     categorizeExpenseWithLLM o1 text cats = categorizeExpenseWithLLM o2 text cats ∧
     handleSubmit o1 cats text = handleSubmit o2 cats text) ∧
  (∀ o text cats,
     unavailable o = true → trim text ≠ "" →
     categorizeExpenseWithLLM o text cats = manualCategorizeByKeyword text cats) ∧
  (∀ o, unavailable o = true →
     categorizeExpenseWithLLM o "250 lunch with friends"
       [Category.mk "1" "Food"; Category.mk "2" "Other"]
     = mk_result "Food" (7 # 10) "Matched by keyword pattern for Food" ∧
     handleSubmit o [Category.mk "1" "Food"; Category.mk "2" "Other"] "250 lunch with friends"
     = Row (mk_parsed 250 "expense" "Food" (Val "1") "lunch with friends" (7 # 10))).
Proof.
  split; [ | split ].
  - intros o1 o2 text cats H1 H2.
    assert (E : categorizeExpenseWithLLM o1 (trim text) cats
                = categorizeExpenseWithLLM o2 (trim text) cats).
    { destruct o1, o2; try discriminate; reflexivity. }
    split.
    + destruct o1, o2; try discriminate; reflexivity.
    + unfold handleSubmit. by rewrite E.
  - apply fallback_is_keyword_match.
  - intros o Ho. destruct o; try discriminate; by vm_compute.
Qed.

(** * Further properties

    Properties of the functions the specification leaves aside, and of the
    way the functions work together. *)

(** ** Dates: printing and reading *)

Lemma is_digit_digit_char (n : Z) : is_digit (digit_char n) = true.
Proof.
  unfold is_digit. rewrite code_digit_char.
  pose proof (Z.mod_pos_bound n 10 eq_refl). apply andb_true_iff. lia.
Qed.

Lemma digit_val_digit_char (n : Z) : digit_val (digit_char n) = n mod 10.
Proof. unfold digit_val. rewrite code_digit_char. lia. Qed.

Lemma pad_succ (k : nat) (n : Z) (r : string) :
  pad (S k) n +:+ r = pad k (n / 10) +:+ String (digit_char n) r.
Proof. cbn [pad]. by rewrite append_assoc_s, append_cons, append_nil_l. Qed.

Lemma low_digits (k : nat) (n : Z) :
  n mod 10 ^ Z.of_nat (S k) = 10 * ((n / 10) mod 10 ^ Z.of_nat k) + n mod 10.
Proof.
  rewrite Nat2Z.inj_succ, Z.pow_succ_r by lia.
  rewrite Z.rem_mul_r by (try apply Z.pow_nonzero; lia). lia.
Qed.

(** Reading [k] digits where [pad k n] stands gives the low [k] digits of [n]. *)
Lemma read_digits_pad (k j : nat) (acc n : Z) (r : string) :
  read_digits (k + j) acc (pad k n +:+ r)
  = read_digits j (acc * 10 ^ Z.of_nat k + n mod 10 ^ Z.of_nat k) r.
Proof.
  revert j acc n r. induction k as [ | k IH ]; intros j acc n r.
  - cbn [pad Nat.add]. rewrite append_nil_l. f_equal. cbn. rewrite Z.mod_1_r. lia.
  - rewrite pad_succ. replace (S k + j)%nat with (k + S j)%nat by lia.
    rewrite IH. cbn [read_digits]. rewrite is_digit_digit_char, digit_val_digit_char.
    f_equal. rewrite (low_digits k n), Nat2Z.inj_succ, Z.pow_succ_r by lia. ring.
Qed.

Lemma read_pad (k : nat) (n : Z) (r : string) :
  0 <= n < 10 ^ Z.of_nat k → read_digits k 0 (pad k n +:+ r) = Some (n, r).
Proof.
  intros H. rewrite <- (Nat.add_0_r k) at 1. rewrite read_digits_pad. cbn [read_digits].
  by rewrite Z.mod_small.
Qed.

Lemma digits_value_pad (k : nat) (acc n : Z) :
  digits_value acc (pad k n) = acc * 10 ^ Z.of_nat k + n mod 10 ^ Z.of_nat k.
Proof.
  revert acc n. induction k as [ | k IH ]; intros acc n.
  - cbn. rewrite Z.mod_1_r. lia.
  - cbn [pad]. assert (G : ∀ a s c, digits_value a (s +:+ String c "") = 10 * digits_value a s + digit_val c).
    { intros a s. revert a. induction s as [ | x s IHs ]; intros a c; [ done | ].
      rewrite append_cons. cbn [digits_value]. apply IHs. }
    rewrite G, IH, digit_val_digit_char, (low_digits k n), Nat2Z.inj_succ, Z.pow_succ_r by lia.
    ring.
Qed.

Lemma pad_length (k : nat) (n : Z) : String.length (pad k n) = k.
Proof.
  revert n. induction k as [ | k IH ]; intros n; [ done | ].
  cbn [pad]. assert (G : ∀ s c, String.length (s +:+ String c "") = S (String.length s)).
  { induction s as [ | x s IHs ]; intros c; [ done | ]. rewrite append_cons. cbn. by rewrite IHs. }
  by rewrite G, IH.
Qed.

(** The digits of [pad k n] are a run of digits. *)
Lemma span_digits_pad (k : nat) (n : Z) (c : ascii) (r : string) :
  is_digit c = false → span_digits (pad k n +:+ String c r) = (pad k n, String c r).
Proof.
  intros Hc. revert n c r Hc.
  assert (G : ∀ (s : string) (x c : ascii) (r : string),
             is_digit x = true → is_digit c = false →
             span_digits (s +:+ String c r) = (s, String c r) →
             span_digits (s +:+ String x (String c r)) = (s +:+ String x "", String c r)).
  { induction s as [ | y s IHs ]; intros x c r Hx Hc Hs.
    - rewrite !append_nil_l. cbn [span_digits]. by rewrite Hx, Hc.
    - rewrite !append_cons in *. cbn [span_digits] in *.
      destruct (is_digit y); [ | done ].
      destruct (span_digits (s +:+ String c r)) as [d0 r0] eqn:E. simplify_eq.
      by rewrite (IHs x c r Hx Hc E). }
  induction k as [ | k IH ]; intros n c r Hc.
  - cbn [pad]. rewrite append_nil_l. cbn [span_digits]. by rewrite Hc.
  - rewrite pad_succ. cbn [pad]. apply G; [ apply is_digit_digit_char | done | by apply IH ].
Qed.

Lemma expect_head (c : ascii) (r : string) : expect c (String c "" +:+ r) = Some r.
Proof. rewrite append_cons, append_nil_l. cbn [expect]. by rewrite bool_decide_eq_true_2. Qed.

Lemma expect_other (c x : ascii) (r : string) : x ≠ c → expect c (String x "" +:+ r) = None.
Proof. intros H. rewrite append_cons, append_nil_l. cbn [expect]. by rewrite bool_decide_eq_false_2. Qed.

Lemma append_nil_r_s (a : string) : a +:+ "" = a.
Proof. induction a as [ | c a IH ]; [ done | ]. by rewrite append_cons, IH. Qed.

Lemma days_in_month_bounds (y m : Z) : 1 <= m <= 12 → 28 <= days_in_month y m <= 31.
Proof.
  intros Hm.
  assert (Hc : m = 1 ∨ m = 2 ∨ m = 3 ∨ m = 4 ∨ m = 5 ∨ m = 6 ∨ m = 7 ∨ m = 8 ∨ m = 9 ∨
               m = 10 ∨ m = 11 ∨ m = 12) by lia.
  unfold days_in_month, days_from_civil. cbv zeta.
  destruct Hc as [-> | [-> | [-> | [-> | [-> | [-> | [-> | [-> | [-> | [-> | [-> | ->]]]]]]]]]]];
    split_tests; zdiv.
Qed.

(** A date printed with four digits for the year and two for month and day
    reads as the start of that day. *)
Lemma Date_parse_date (y m d : Z) :
  0 <= y <= 9999 → 1 <= m <= 12 → 1 <= d <= days_in_month y m →
  Date_parse (pad 4 y +:+ "-" +:+ pad 2 m +:+ "-" +:+ pad 2 d)
  = TimeClip (days_from_civil y m d * msPerDay).
Proof.
  intros Hy Hm Hd. pose proof (days_in_month_bounds y m Hm).
  unfold Date_parse.
  rewrite read_pad by (cbn; lia). cbn [mbind option_bind].
  rewrite expect_head. cbn [mbind option_bind].
  rewrite read_pad by (cbn; lia). cbn [mbind option_bind].
  rewrite expect_head. cbn [mbind option_bind].
  rewrite <- (append_nil_r_s (pad 2 d)) at 1.
  rewrite read_pad by (cbn; lia). cbn [mbind option_bind read_time].
  leb_true. f_equal. lia.
Qed.

(** *** Days and calendar dates *)

(** The day number of a date is read back from it, and the date is one of
    the calendar. *)
Lemma days_from_civil_from_days (z : Z) :
  let '(y, m, d) := civil_from_days z in
  days_from_civil y m d = z ∧ 1 <= m <= 12 ∧ 1 <= d <= days_in_month y m.
Proof.
  unfold civil_from_days, civil_of_doe, days_in_month, days_from_civil. cbv zeta.
  set (doe := z + 719468 - (z + 719468) / 146097 * 146097).
  assert (Hdoe : 0 <= doe < 146097) by (subst doe; zdiv).
  assert (Ez : z = doe + (z + 719468) / 146097 * 146097 - 719468) by (subst doe; lia).
  set (era := (z + 719468) / 146097) in *. clearbody era doe. subst z.
  set (yoe := (doe - doe / 1460 + doe / 36524 - doe / 146096) / 365).
  set (doy := doe - (365 * yoe + yoe / 4 - yoe / 100)).
  assert (Hy : 0 <= yoe <= 399 ∧ 0 <= doy <= 365) by (subst doy yoe; zdiv).
  assert (Hleap : doy = 365 → yoe mod 4 = 3 ∧ (yoe mod 100 ≠ 99 ∨ yoe = 399)) by (subst doy yoe; zdiv).
  set (mp := (5 * doy + 2) / 153).
  assert (Hmp : 0 <= mp <= 11) by (subst mp; zdiv).
  set (m := if mp <? 10 then mp + 3 else mp - 9).
  assert (Hm : m = mp + 3 ∧ mp < 10 ∨ m = mp - 9 ∧ 10 <= mp)
    by (subst m; destruct (Z.ltb_spec mp 10); lia).
  destruct Hm as [[-> ?] | [-> ?]].
  - destruct (Z.leb_spec (mp + 3) 2), (Z.ltb_spec 2 (mp + 3)); try lia.
    replace ((yoe + era * 400) / 400) with era by zdiv.
    replace (yoe + era * 400 - era * 400) with yoe by lia.
    replace (mp + 3 - 3) with mp by lia.
    split; [ subst doy mp; zdiv | ].
    split; [ lia | ].
    split; [ subst mp; zdiv | ].
    assert (Emp : mp = (5 * doy + 2) / 153) by done. 
    assert (Edoy : doy = doe - (365 * yoe + yoe / 4 - yoe / 100)) by done.
    clearbody mp doy. clear Hdoe. clearbody yoe.
    assert (Hc : mp = 0 ∨ mp = 1 ∨ mp = 2 ∨ mp = 3 ∨ mp = 4 ∨ mp = 5 ∨ mp = 6 ∨ mp = 7 ∨ mp = 8 ∨ mp = 9)
      by lia.
    destruct Hc as [-> | [-> | [-> | [-> | [-> | [-> | [-> | [-> | [-> | ->]]]]]]]]];
      split_tests; try zdiv.
  - destruct (Z.leb_spec (mp - 9) 2), (Z.ltb_spec 2 (mp - 9)); try lia.
    replace (yoe + 1 + era * 400 - 1) with (yoe + era * 400) by lia.
    replace ((yoe + era * 400) / 400) with era by zdiv.
    replace (yoe + era * 400 - era * 400) with yoe by lia.
    replace (mp - 9 + 9) with mp by lia.
    split; [ subst doy mp; zdiv | ].
    split; [ lia | ].
    split; [ subst mp; zdiv | ].
    assert (Emp : mp = (5 * doy + 2) / 153) by done.
    assert (Edoy : doy = doe - (365 * yoe + yoe / 4 - yoe / 100)) by done.
    clearbody mp doy. clear Hdoe. clearbody yoe.
    assert (Hc : mp = 10 ∨ mp = 11) by lia.
    destruct Hc as [-> | ->]; split_tests; try zdiv.
Qed.

(** *** Reading what [toISOString] prints *)

Lemma substring_prefix (a b : string) : String.substring 0 (String.length a) (a +:+ b) = a.
Proof.
  induction a as [ | c a IH ]; cbn [String.length].
  - rewrite append_nil_l. by destruct b.
  - rewrite append_cons. cbn [String.substring]. by rewrite IH.
Qed.

Lemma pad_nonempty (k : nat) (n : Z) : pad (S k) n ≠ "".
Proof. intros H. apply (f_equal String.length) in H. by rewrite pad_length in H. Qed.

Lemma frac_ms_pad (ms : Z) : 0 <= ms < 1000 → frac_ms (pad 3 ms) = ms.
Proof.
  intros H. unfold frac_ms.
  rewrite <- (pad_length 3 ms) at 1. rewrite substring_prefix, digits_value_pad.
  rewrite Z.mod_small by (cbn; lia). lia.
Qed.

(** An instant printed field by field, in the form of [toISOString], reads
    as that instant. *)
Lemma Date_parse_printed (y m d h mi s ms : Z) :
  0 <= y <= 9999 → 1 <= m <= 12 → 1 <= d <= days_in_month y m →
  0 <= h < 24 → 0 <= mi < 60 → 0 <= s < 60 → 0 <= ms < 1000 →
  Date_parse (pad 4 y +:+ "-" +:+ pad 2 m +:+ "-" +:+ pad 2 d +:+ "T" +:+
              pad 2 h +:+ ":" +:+ pad 2 mi +:+ ":" +:+ pad 2 s +:+ "." +:+ pad 3 ms +:+ "Z")
  = TimeClip (days_from_civil y m d * msPerDay + (3600000 * h + 60000 * mi + 1000 * s + ms)).
Proof.
  intros Hy Hm Hd Hh Hmi Hs Hms. pose proof (days_in_month_bounds y m Hm).
  unfold Date_parse.
  rewrite read_pad by (cbn; lia). cbn [mbind option_bind].
  rewrite expect_head. cbn [mbind option_bind].
  rewrite read_pad by (cbn; lia). cbn [mbind option_bind].
  rewrite expect_head. cbn [mbind option_bind].
  rewrite read_pad by (cbn; lia). cbn [mbind option_bind].
  rewrite (append_cons "T"), append_nil_l. cbn [read_time].
  rewrite bool_decide_eq_true_2 by done.
  rewrite read_pad by (cbn; lia). cbn [mbind option_bind].
  rewrite expect_head. cbn [mbind option_bind].
  rewrite read_pad by (cbn; lia). cbn [mbind option_bind].
  unfold read_seconds. rewrite expect_head.
  rewrite read_pad by (cbn; lia). cbn [mbind option_bind].
  rewrite (proj2 (Z.ltb_ge 59 s)) by lia.
  rewrite expect_head.
  rewrite span_digits_pad by done.
  rewrite bool_decide_eq_false_2 by apply pad_nonempty.
  cbn [mbind option_bind]. rewrite frac_ms_pad by done.
  cbn [read_zone]. rewrite !bool_decide_eq_true_2 by done. cbn [mbind option_bind default].
  leb_true. cbn [mbind option_bind]. leb_true. unfold id. f_equal. lia.
Qed.

Lemma TimeClip_iso (t : Z) : iso_min <= t <= iso_max → TimeClip t = Some t.
Proof. unfold iso_min, iso_max, TimeClip. intros H. by rewrite (proj2 (Z.leb_le _ _)) by lia. Qed.

(** What [toISOString] prints reads back as the instant printed. *)
Lemma Date_parse_toISOString (t : Z) :
  iso_min <= t <= iso_max → Date_parse (toISOString t) = Some t.
Proof.
  intros Ht. pose proof (iso_year_range t Ht) as Hy.
  pose proof (days_from_civil_from_days (t / msPerDay)) as Hc.
  destruct (time_fields (t mod msPerDay) (Z.mod_pos_bound t msPerDay eq_refl))
    as (h & mi & s & ms & E1 & E2 & E3 & E4 & Er & ? & ? & ? & ?).
  unfold toISOString. destruct (civil_from_days (t / msPerDay)) as [[y m] d].
  cbn [fst snd] in Hy. destruct Hc as (Hz & Hm & Hd).
  rewrite E1, E2, E3, E4. unfold iso_year.
  replace ((0 <=? y) && (y <=? 9999)) with true by (symmetry; apply andb_true_iff; lia).
  rewrite Date_parse_printed by done.
  rewrite Hz, <- Er. rewrite <- TimeClip_iso by done. f_equal.
  pose proof (Z.div_mod t msPerDay ltac:(done)). lia.
Qed.

(** *** The pieces of a printed date *)

Lemma digit_char_not_T (n : Z) : digit_char n ≠ "T"%char.
Proof.
  intros H. apply (f_equal code) in H. rewrite code_digit_char in H.
  pose proof (Z.mod_pos_bound n 10 eq_refl). vm_compute (code "T") in H. lia.
Qed.

Lemma before_T_pad (k : nat) (n : Z) (b : string) :
  before_T (pad k n +:+ b) = pad k n +:+ before_T b.
Proof.
  revert n b. induction k as [ | k IH ]; intros n b.
  - cbn [pad]. by rewrite !append_nil_l.
  - rewrite !pad_succ, IH. cbn [before_T].
    by rewrite bool_decide_eq_false_2 by apply digit_char_not_T.
Qed.

Lemma substring_app (a b : string) (k : nat) :
  String.substring 0 (String.length a + k) (a +:+ b) = a +:+ String.substring 0 k b.
Proof.
  induction a as [ | c a IH ]; cbn [String.length Nat.add].
  - by rewrite !append_nil_l.
  - rewrite !append_cons. cbn [String.substring]. by rewrite IH.
Qed.

Lemma substring_pad (w : nat) (n : Z) (b : string) (k : nat) :
  String.substring 0 (w + k) (pad w n +:+ b) = pad w n +:+ String.substring 0 k b.
Proof. rewrite <- (pad_length w n) at 1. apply substring_app. Qed.

Lemma substring_pad_exact (w : nat) (n : Z) (b : string) :
  String.substring 0 w (pad w n +:+ b) = pad w n.
Proof.
  rewrite <- (Nat.add_0_r w) at 1. rewrite substring_pad.
  replace (String.substring 0 0 b) with "" by (by destruct b). apply append_nil_r_s.
Qed.

(** The fields [toISOString] prints. *)
Lemma toISOString_fields (t : Z) :
  iso_min <= t <= iso_max →
  ∃ y m d h mi s ms,
    toISOString t = pad 4 y +:+ "-" +:+ pad 2 m +:+ "-" +:+ pad 2 d +:+ "T" +:+
                    pad 2 h +:+ ":" +:+ pad 2 mi +:+ ":" +:+ pad 2 s +:+ "." +:+
                    pad 3 ms +:+ "Z" ∧
    t = days_from_civil y m d * msPerDay + (3600000 * h + 60000 * mi + 1000 * s + ms) ∧
    0 <= y <= 9999 ∧ 1 <= m <= 12 ∧ 1 <= d <= days_in_month y m ∧
    0 <= h < 24 ∧ 0 <= mi < 60 ∧ 0 <= s < 60 ∧ 0 <= ms < 1000.
Proof.
  intros Ht. pose proof (iso_year_range t Ht) as Hy.
  pose proof (days_from_civil_from_days (t / msPerDay)) as Hc.
  destruct (time_fields (t mod msPerDay) (Z.mod_pos_bound t msPerDay eq_refl))
    as (h & mi & s & ms & E1 & E2 & E3 & E4 & Er & ? & ? & ? & ?).
  unfold toISOString. destruct (civil_from_days (t / msPerDay)) as [[y m] d].
  cbn [fst snd] in Hy. destruct Hc as (Hz & Hm & Hd).
  exists y, m, d, h, mi, s, ms. rewrite E1, E2, E3, E4. unfold iso_year.
  replace ((0 <=? y) && (y <=? 9999)) with true by (symmetry; apply andb_true_iff; lia).
  repeat split; try done; try lia.
  rewrite Hz, <- Er. pose proof (Z.div_mod t msPerDay ltac:(done)). lia.
Qed.

(** The date part of what [toISOString] prints reads as the start of the
    day of the instant. *)
Lemma Date_parse_date_part (t : Z) :
  iso_min <= t <= iso_max →
  Date_parse (before_T (toISOString t)) = Some (t - t mod msPerDay).
Proof.
  intros Ht.
  destruct (toISOString_fields t Ht) as (y & m & d & h & mi & s & ms & E & Et & ? & ? & ? & ? & ? & ? & ?).
  rewrite E. rewrite before_T_pad. rewrite (append_cons "-"), append_nil_l. cbn [before_T].
  rewrite bool_decide_eq_false_2 by done. rewrite before_T_pad.
  rewrite (append_cons "-"), append_nil_l. cbn [before_T].
  rewrite bool_decide_eq_false_2 by done. rewrite before_T_pad.
  rewrite (append_cons "T"), append_nil_l. cbn [before_T].
  rewrite bool_decide_eq_true_2 by done.
  change (String "-" (pad 2 m +:+ String "-" (pad 2 d +:+ "")))
    with ("-" +:+ pad 2 m +:+ "-" +:+ (pad 2 d +:+ "")).
  rewrite append_nil_r_s, Date_parse_date by done.
  assert (E0 : t - t mod msPerDay = days_from_civil y m d * msPerDay).
  { unfold msPerDay in *. Z.to_euclidean_division_equations; lia. }
  rewrite <- E0. unfold TimeClip, iso_min, iso_max, msPerDay in *.
  rewrite (proj2 (Z.leb_le _ _)); [ done | ].
  Z.to_euclidean_division_equations; lia.
Qed.

(** The first sixteen characters of what [toISOString] prints, completed
    with zero seconds, are what it prints for the start of the minute. *)
Lemma toISOString_minute (t : Z) :
  iso_min <= t <= iso_max →
  String.substring 0 16 (toISOString t) +:+ ":00.000Z" = toISOString (t - t mod 60000).
Proof.
  intros Ht.
  assert (Ht' : iso_min <= t - t mod 60000 <= iso_max).
  { unfold iso_min, iso_max in *. Z.to_euclidean_division_equations; lia. }
  pose proof (iso_year_range t Ht) as Hy.
  unfold toISOString.
  assert (Ed : (t - t mod 60000) / msPerDay = t / msPerDay).
  { unfold msPerDay. Z.to_euclidean_division_equations; lia. }
  rewrite Ed. destruct (civil_from_days (t / msPerDay)) as [[y m] d]. cbn [fst snd] in Hy.
  set (r := t mod msPerDay). set (r' := (t - t mod 60000) mod msPerDay).
  assert (E1 : r' / 3600000 = r / 3600000)
    by (subst r r'; unfold msPerDay; Z.to_euclidean_division_equations; lia).
  assert (E2 : r' / 60000 mod 60 = r / 60000 mod 60)
    by (subst r r'; unfold msPerDay; Z.to_euclidean_division_equations; lia).
  assert (E3 : r' / 1000 mod 60 = 0)
    by (subst r r'; unfold msPerDay; Z.to_euclidean_division_equations; lia).
  assert (E4 : r' mod 1000 = 0)
    by (subst r r'; unfold msPerDay; Z.to_euclidean_division_equations; lia).
  rewrite E1, E2, E3, E4. unfold iso_year.
  replace ((0 <=? y) && (y <=? 9999)) with true by (symmetry; apply andb_true_iff; lia).
  change 16%nat with (4 + 12)%nat. rewrite substring_pad.
  rewrite (append_cons "-"), append_nil_l. cbn [String.substring].
  change 11%nat with (2 + 9)%nat. rewrite substring_pad.
  rewrite (append_cons "-"), append_nil_l. cbn [String.substring].
  change 8%nat with (2 + 6)%nat. rewrite substring_pad.
  rewrite (append_cons "T"), append_nil_l. cbn [String.substring].
  change 5%nat with (2 + 3)%nat. rewrite substring_pad.
  rewrite (append_cons ":"), append_nil_l. cbn [String.substring].
  rewrite substring_pad_exact.
  change (pad 2 0) with "00". change (pad 3 0) with "000".
  by rewrite !append_assoc_s, !append_cons, !append_nil_l.
Qed.

(** *** Date inputs *)

Lemma rev_string_app (acc s : string) : rev_string acc s = rev_string "" s +:+ acc.
Proof.
  revert acc. induction s as [ | c s IH ]; intros acc; cbn [rev_string].
  - by rewrite append_nil_l.
  - rewrite (IH (String c acc)), (IH (String c "")).
    by rewrite append_assoc_s, append_cons, append_nil_l.
Qed.

Lemma rev_string_snoc (s : string) (c : ascii) :
  rev_string "" (s +:+ String c "") = String c (rev_string "" s).
Proof.
  induction s as [ | x s IH ]; [ done | ].
  rewrite append_cons. cbn [rev_string]. rewrite rev_string_app, IH.
  rewrite (rev_string_app (String x "")). by rewrite append_cons.
Qed.

Lemma rev_string_involutive (s : string) : rev_string "" (rev_string "" s) = s.
Proof.
  induction s as [ | c s IH ]; [ done | ].
  cbn [rev_string]. by rewrite (rev_string_app (String c "") s), rev_string_snoc, IH.
Qed.

Lemma is_space_digit_char (n : Z) : is_space (digit_char n) = false.
Proof.
  unfold is_space. rewrite code_digit_char.
  pose proof (Z.mod_pos_bound n 10 eq_refl).
  apply orb_false_iff. split; [ lia | apply andb_false_iff; lia ].
Qed.

Lemma trimStart_pad (k : nat) (n : Z) (r : string) :
  trimStart (pad (S k) n +:+ r) = pad (S k) n +:+ r.
Proof.
  revert n r. induction k as [ | k IH ]; intros n r.
  - rewrite pad_succ. cbn [pad]. rewrite append_nil_l. cbn [trimStart].
    by rewrite is_space_digit_char.
  - rewrite pad_succ. apply IH.
Qed.

Lemma rev_pad_head (k : nat) (n : Z) :
  rev_string "" (pad (S k) n) = String (digit_char n) (rev_string "" (pad k (n / 10))).
Proof. cbn [pad]. apply rev_string_snoc. Qed.

Lemma trim_pad (k : nat) (n : Z) : trim (pad k n) = pad k n.
Proof.
  destruct k as [ | k ]; [ done | ].
  unfold trim, trimEnd. rewrite <- (append_nil_r_s (pad (S k) n)) at 1.
  rewrite trimStart_pad, append_nil_r_s, rev_pad_head. cbn [trimStart].
  rewrite is_space_digit_char, <- rev_pad_head. apply rev_string_involutive.
Qed.

Lemma span_digits_pad_end (k : nat) (n : Z) : span_digits (pad k n) = (pad k n, "").
Proof.
  revert n. induction k as [ | k IH ]; intros n; [ done | ].
  cbn [pad].
  assert (G : ∀ s x, is_digit x = true → span_digits s = (s, "") →
                     span_digits (s +:+ String x "") = (s +:+ String x "", "")).
  { induction s as [ | y s IHs ]; intros x Hx Hs.
    - rewrite append_nil_l. cbn [span_digits]. by rewrite Hx.
    - rewrite !append_cons in *. cbn [span_digits] in *.
      destruct (is_digit y); [ | done ].
      destruct (span_digits s) as [d0 r0] eqn:E. simplify_eq.
      by rewrite (IHs x Hx eq_refl). }
  apply G; [ apply is_digit_digit_char | apply IH ].
Qed.

Lemma Number_pad (k : nat) (n : Z) : 0 <= n < 10 ^ Z.of_nat k → Number (pad k n) = Some n.
Proof.
  intros H. unfold Number. rewrite trim_pad, span_digits_pad_end.
  rewrite bool_decide_eq_true_2 by done. by rewrite digits_value_pad, Z.mod_small by done.
Qed.

Lemma digit_char_not_dash (n : Z) : digit_char n ≠ "-"%char.
Proof.
  intros H. apply (f_equal code) in H. rewrite code_digit_char in H.
  pose proof (Z.mod_pos_bound n 10 eq_refl). vm_compute (code "-") in H. lia.
Qed.

Lemma split_dash_from_pad (k : nat) (n : Z) (cur r : string) :
  split_dash_from cur (pad k n +:+ r)
  = split_dash_from (rev_string cur (pad k n)) r.
Proof.
  revert n cur r. induction k as [ | k IH ]; intros n cur r.
  - cbn [pad rev_string]. by rewrite append_nil_l.
  - rewrite pad_succ, IH. cbn [split_dash_from].
    rewrite bool_decide_eq_false_2 by apply digit_char_not_dash.
    f_equal. cbn [pad]. rewrite (rev_string_app cur), (rev_string_app cur (_ +:+ _)).
    by rewrite rev_string_snoc, append_cons.
Qed.

Lemma split_dash_date (y m d : Z) :
  split_dash (date_string y m d) = [pad 4 y; pad 2 m; pad 2 d].
Proof.
  unfold split_dash, date_string.
  rewrite split_dash_from_pad, (append_cons "-"), append_nil_l. cbn [split_dash_from].
  rewrite bool_decide_eq_true_2 by done. rewrite rev_string_involutive. f_equal.
  rewrite split_dash_from_pad, (append_cons "-"), append_nil_l. cbn [split_dash_from].
  rewrite bool_decide_eq_true_2 by done. rewrite rev_string_involutive. f_equal.
  rewrite <- (append_nil_r_s (pad 2 d)) at 1. rewrite split_dash_from_pad.
  cbn [split_dash_from]. by rewrite rev_string_involutive.
Qed.

(** The pieces read from a date input. *)
Lemma ymd_date (y m d : Z) :
  0 <= y <= 9999 → 0 <= m <= 99 → 0 <= d <= 99 →
  ymd (date_string y m d) = (Some y, Some m, Some d).
Proof.
  intros Hy Hm Hd. unfold ymd. rewrite split_dash_date. cbn [fmap list_fmap lookup list_lookup mjoin option_join].
  by rewrite !Number_pad by (cbn; lia).
Qed.

(** *** The instants of date inputs *)

Lemma days_from_civil_day (y m d : Z) :
  days_from_civil y m d = days_from_civil y m 1 + d - 1.
Proof. unfold days_from_civil. cbv zeta. lia. Qed.

Lemma days_from_civil_range (y m d : Z) :
  0 <= y <= 9999 → 1 <= m <= 12 → 1 <= d <= 31 →
  -719528 <= days_from_civil y m d <= 2932896.
Proof.
  intros Hy Hm Hd. unfold days_from_civil. cbv zeta.
  destruct (Z.leb_spec m 2), (Z.ltb_spec 2 m); try lia; zdiv.
Qed.

Lemma day_start_range (y m d : Z) :
  calendar_date y m d →
  iso_min <= day_start y m d ∧ day_start y m d + msPerDay - 1 <= iso_max.
Proof.
  intros (Hy & Hm & Hd). pose proof (days_in_month_bounds y m Hm).
  pose proof (days_from_civil_range y m d ltac:(lia) Hm ltac:(lia)).
  unfold day_start, iso_min, iso_max, msPerDay. lia.
Qed.

Lemma Date_UTC_day (y m d h mi s ms : Z) :
  100 <= y → 1 <= m <= 12 →
  Date_UTC y (m - 1) d h mi s ms
  = TimeClip (day_start y m d + (h * 3600000 + mi * 60000 + s * 1000 + ms)).
Proof.
  intros Hy Hm. unfold Date_UTC, day_start. cbv zeta.
  replace ((0 <=? y) && (y <=? 99)) with false by (symmetry; apply andb_false_iff; lia).
  assert (E1 : (m - 1) / 12 = 0) by zdiv. assert (E2 : (m - 1) mod 12 + 1 = m) by zdiv.
  rewrite E1, E2, Z.add_0_r, (days_from_civil_day y m d). f_equal; lia.
Qed.

(** A date input reads, with [new Date], as the first instant of its day. *)
Lemma Date_parse_date_string (y m d : Z) :
  calendar_date y m d → Date_parse (date_string y m d) = Some (day_start y m d).
Proof.
  intros Hc. pose proof (day_start_range y m d Hc) as Hr. destruct Hc as (Hy & Hm & Hd).
  unfold date_string. rewrite Date_parse_date by (done || lia).
  apply TimeClip_iso. unfold day_start, msPerDay in *. lia.
Qed.

(** The bounds built from two date inputs: the first instant of the first
    day and the last millisecond of the last day, as [toISOString] prints
    them, for the refs and for the bulk load alike. *)
Lemma isoRefs_date_strings (sy sm sd ey em ed : Z) :
  calendar_date sy sm sd → calendar_date ey em ed →
  let bounds := (toISOString (day_start sy sm sd),
                 toISOString (day_start ey em ed + msPerDay - 1)) in
  isoRefs (date_string sy sm sd) (date_string ey em ed) = Some bounds ∧
  loadRange_bounds (date_string sy sm sd) (date_string ey em ed) = Some bounds.
Proof.
  intros Hs He bounds.
  pose proof (day_start_range _ _ _ Hs) as Rs. pose proof (day_start_range _ _ _ He) as Re.
  pose proof (days_in_month_bounds sy sm (proj1 (proj2 Hs))).
  pose proof (days_in_month_bounds ey em (proj1 (proj2 He))).
  destruct Hs as (Hsy & Hsm & Hsd), He as (Hey & Hem & Hed).
  assert (E : isoRefs (date_string sy sm sd) (date_string ey em ed) = Some bounds).
  { unfold isoRefs, utc_iso. rewrite !ymd_date by lia. cbn [mbind option_bind].
    rewrite !Date_UTC_day by lia.
    rewrite !TimeClip_iso by (unfold msPerDay, iso_min, iso_max in *; lia).
    cbn [fmap option_fmap option_map mbind option_bind]. subst bounds.
    do 3 f_equal; unfold msPerDay; lia. }
  split; [ done | ].
  unfold loadRange_bounds. rewrite !ymd_date by lia. cbn [falsy].
  repeat (rewrite (proj2 (Z.eqb_neq _ 0)) by lia). done.
Qed.

(** ** The range of a view *)

(** The bounds of a range given by two date inputs, and their instants. *)
Lemma range_bounds_of_date_inputs (sy sm sd ey em ed : Z) :
  calendar_date sy sm sd → calendar_date ey em ed →
  let lo := day_start sy sm sd in
  let hi := day_start ey em ed + msPerDay - 1 in
  ∃ bounds,
    isoRefs (date_string sy sm sd) (date_string ey em ed) = Some bounds ∧
    loadRange_bounds (date_string sy sm sd) (date_string ey em ed) = Some bounds ∧
    Date_parse bounds.1 = Some lo ∧ Date_parse bounds.2 = Some hi ∧
    Date_parse (date_string sy sm sd) = Some lo ∧
    Date_parse (date_string ey em ed) = Some (hi - msPerDay + 1).
Proof.
  intros Hs He lo hi.
  destruct (isoRefs_date_strings _ _ _ _ _ _ Hs He) as [E1 E2].
  pose proof (day_start_range _ _ _ Hs) as Rs. pose proof (day_start_range _ _ _ He) as Re.
  eexists. split; [ exact E1 | split; [ exact E2 | ] ]. cbn [fst snd].
  rewrite !Date_parse_toISOString, !Date_parse_date_string by
    (done || unfold msPerDay, iso_min, iso_max, day_start in *; lia).
  subst lo hi. repeat split. f_equal. lia.
Qed.

(** X1. A range given by two calendar dates (years 100 to 9999), written as
    the date inputs write them. The bounds kept in [startIsoRef] and
    [endIsoRef] and the bounds [loadRange] queries with are the same pair;
    read back as instants they are the first millisecond of the first day
    and the last millisecond of the last day, and [new Date] reads the two
    date strings themselves as the starts of those two days. *)
Theorem date_inputs_closed_range (sy sm sd ey em ed : Z) :
  calendar_date sy sm sd → calendar_date ey em ed →
  let lo := day_start sy sm sd in
  let hi := day_start ey em ed + msPerDay - 1 in
  ∃ bounds,
    isoRefs (date_string sy sm sd) (date_string ey em ed) = Some bounds ∧
    loadRange_bounds (date_string sy sm sd) (date_string ey em ed) = Some bounds ∧
    Date_parse bounds.1 = Some lo ∧ Date_parse bounds.2 = Some hi ∧
    Date_parse (date_string sy sm sd) = Some lo ∧
    Date_parse (date_string ey em ed) = Some (hi - msPerDay + 1).
Proof. exact (range_bounds_of_date_inputs sy sm sd ey em ed). Qed.

Lemma date_inputs_closed_range_march :
  ∃ bounds,
    isoRefs (date_string 2025 3 1) (date_string 2025 3 31) = Some bounds ∧
    loadRange_bounds (date_string 2025 3 1) (date_string 2025 3 31) = Some bounds ∧
    Date_parse bounds.1 = Some (day_start 2025 3 1) ∧
    Date_parse bounds.2 = Some (day_start 2025 3 31 + msPerDay - 1) ∧
    Date_parse (date_string 2025 3 1) = Some (day_start 2025 3 1) ∧
    Date_parse (date_string 2025 3 31) = Some (day_start 2025 3 31 + msPerDay - 1 - msPerDay + 1).
Proof. apply (date_inputs_closed_range 2025 3 1 2025 3 31); evaluated. Defined.

(** X2. For such a range and a new row whose date can be read, the range
    test of the [expense-added] listener and the range test of the store
    query are the same closed interval of instants, and the listener adds
    the row exactly when the bulk load would return it (same owner, same
    trip context, date in the range), in a casual view and in the view of a
    trip whose id is not empty. *)
Theorem optimistic_add_agrees_with_load
    (user_id : string) (trip : option Trip.t) (sy sm sd ey em ed : Z)
    (detail : Expense.t) (d : string) (t : Z) (prev : list Expense.t) :
  calendar_date sy sm sd → calendar_date ey em ed →
  (∀ tr, trip = Some tr → Trip.id tr ≠ "") →
  Expense.date detail = Val d → Date_parse d = Some t →
  let v := View.mk user_id trip (date_string sy sm sd) (date_string ey em ed) in
  let lo := day_start sy sm sd in
  let hi := day_start ey em ed + msPerDay - 1 in
  ∃ bounds,
    isoRefs (View.startDateStr v) (View.endDateStr v) = Some bounds ∧
    loadRange_bounds (View.startDateStr v) (View.endDateStr v) = Some bounds ∧
    in_range_dates (Some bounds) (Expense.date detail) = (lo <=? t) && (t <=? hi) ∧
    in_range_store bounds (Expense.date detail) = (lo <=? t) && (t <=? hi) ∧
    handleAdded v (Some bounds) detail prev
      = if load_filter v bounds detail then prepend_new detail prev else prev.
Proof.
  intros Hs He Htrip Hd Ht v lo hi.
  destruct (range_bounds_of_date_inputs _ _ _ _ _ _ Hs He) as (bounds & E1 & E2 & Plo & Phi & _).
  destruct (instant_tests_closed bounds d t _ _ Ht Plo Phi) as [Hstore Hdates].
  fold lo hi in Hstore, Hdates.
  exists bounds. split; [ exact E1 | split; [ exact E2 | ] ].
  rewrite Hd. split; [ exact Hdates | split; [ exact Hstore | ] ].
  unfold handleAdded, load_filter. subst v. cbn [View.user_id View.trip].
  rewrite Hd, Hdates, Hstore.
  destruct (strict_eq (Expense.user_id detail) (Val user_id)); cbn [negb andb]; [ | done ].
  destruct trip as [tr | ].
  - assert (Hid : truthy (Val (Trip.id tr)) = true).
    { cbn [truthy]. apply negb_true_iff, bool_decide_eq_false_2. by apply Htrip. }
    rewrite Hid.
    destruct (strict_eq (Expense.trip_id detail) (Val (Trip.id tr))); cbn [negb];
      [ | by rewrite andb_false_r ].
    rewrite andb_true_r. by destruct ((lo <=? t) && (t <=? hi)).
  - destruct (strict_eq (Expense.trip_id detail) Null); cbn [negb];
      [ | by rewrite andb_false_r ].
    rewrite andb_true_r. by destruct ((lo <=? t) && (t <=? hi)).
Qed.

Lemma optimistic_add_agrees_with_load_march :
  ∃ bounds,
    isoRefs (date_string 2025 3 1) (date_string 2025 3 31) = Some bounds ∧
    loadRange_bounds (date_string 2025 3 1) (date_string 2025 3 31) = Some bounds ∧
    in_range_dates (Some bounds) (Expense.date (tea midnight_pg))
      = (day_start 2025 3 1 <=? day_start 2025 3 1) &&
        (day_start 2025 3 1 <=? day_start 2025 3 31 + msPerDay - 1) ∧
    in_range_store bounds (Expense.date (tea midnight_pg))
      = (day_start 2025 3 1 <=? day_start 2025 3 1) &&
        (day_start 2025 3 1 <=? day_start 2025 3 31 + msPerDay - 1) ∧
    handleAdded (View.mk "u1" None (date_string 2025 3 1) (date_string 2025 3 31))
        (Some bounds) (tea midnight_pg) []
      = if load_filter (View.mk "u1" None (date_string 2025 3 1) (date_string 2025 3 31))
             bounds (tea midnight_pg)
        then prepend_new (tea midnight_pg) [] else [].
Proof.
  apply (optimistic_add_agrees_with_load "u1" None 2025 3 1 2025 3 31 (tea midnight_pg)
           midnight_pg (day_start 2025 3 1) []); evaluated.
Defined.

(** ** Editing a row *)

Lemma length_append_s (a b : string) :
  String.length (a +:+ b) = (String.length a + String.length b)%nat.
Proof. induction a as [ | c a IH ]; [ done | ]. rewrite append_cons. cbn. by rewrite IH. Qed.

(** The first sixteen characters of what [toISOString] prints are there. *)
Lemma toISOString_prefix_length (t : Z) :
  iso_min <= t <= iso_max → String.length (String.substring 0 16 (toISOString t)) = 16%nat.
Proof.
  intros Ht.
  destruct (toISOString_fields t Ht) as (y & m & d & h & mi & s & ms & E & _).
  rewrite E.
  change 16%nat with (4 + 12)%nat at 1. rewrite substring_pad.
  rewrite (append_cons "-"), append_nil_l. cbn [String.substring].
  change 11%nat with (2 + 9)%nat. rewrite substring_pad.
  rewrite (append_cons "-"), append_nil_l. cbn [String.substring].
  change 8%nat with (2 + 6)%nat. rewrite substring_pad.
  rewrite (append_cons "T"), append_nil_l. cbn [String.substring].
  change 5%nat with (2 + 3)%nat. rewrite substring_pad.
  rewrite (append_cons ":"), append_nil_l. cbn [String.substring].
  rewrite substring_pad_exact.
  repeat (rewrite ?length_append_s, ?pad_length; cbn [String.length]). lia.
Qed.

Lemma truthy_nonempty (s : string) : (0 < String.length s)%nat → truthy (Val s) = true.
Proof. intros H. destruct s; [ cbn in H; lia | done ]. Qed.

(** What the form holds and saves for a row whose date begins with the
    date, hour and minute of the instant [t]. *)
Lemma edit_date_saved (now : Z) (row : Expense.t) (t : Z) (tail : string) :
  iso_min <= t <= iso_max →
  Expense.date row = Val (String.substring 0 16 (toISOString t) +:+ tail) →
  Expense.date (updateData (openEdit now row)) = Val (toISOString (t - t mod 60000)).
Proof.
  intros Ht Hd. pose proof (toISOString_prefix_length t Ht) as Hl.
  unfold updateData, openEdit. cbn [fields Expense.date]. rewrite Hd.
  rewrite truthy_nonempty by (rewrite length_append_s; lia).
  assert (E : String.substring 0 16 (String.substring 0 16 (toISOString t) +:+ tail)
              = String.substring 0 16 (toISOString t)).
  { rewrite <- Hl at 1. apply substring_prefix. }
  rewrite !E, truthy_nonempty by lia. by rewrite toISOString_minute.
Qed.

Lemma over_self {A} (a : jsv A) : over a a = a.
Proof. by destruct a. Qed.

(** X3. Opening the edit form on a row and saving it untouched does not
    keep the date of the row: for a row whose date string begins with the
    date, hour and minute of the instant [t], the date saved is the start of
    the minute of [t], seconds and milliseconds dropped. The form is closed.
    The collection and the stored table keep their lengths and are patched
    place by place: a row of another id stays as it is, a row of the id of
    the edited row keeps its id and takes the saved date and the amount,
    category and note of the form, and the edited row itself becomes
    [edited]: its own columns, with the saved date, the amount read as a
    number, a missing or empty category as null and a missing note as the
    empty string. The collection takes the rows whose id is that of the
    edited row, the store those whose id is the same string: there a null or
    missing id matches no row. When the
    store call fails nothing changes. The saved date passes the notification
    range test of any range that holds [t] and starts on a minute. *)
Theorem edit_untouched_floors_date_to_minute
    (now : Z) (row : Expense.t) (t : Z) (tail : string) (st : editing) :
  iso_min <= t <= iso_max →
  Expense.date row = Val (String.substring 0 16 (toISOString t) +:+ tail) →
  let saved := toISOString (t - t mod 60000) in
  let st' := submitEdit false (openEdit now row) st in
  let edited :=
    Expense.mk (Expense.id row) (Expense.user_id row) (Expense.trip_id row)
      (match Expense.category_id row with
       | Val c => if bool_decide (c = "") then Null else Val c
       | _ => Null
       end)
      (Val (match Expense.amount row with
            | Val q => if Qeq_bool q 0 then 0%Q else q
            | _ => 0%Q
            end))
      (Expense.kind row)
      (match Expense.note row with
       | Val n => Val n
       | _ => Val ""
       end)
      (Expense.original_text row) (Val saved) (Expense.created_at row) in
  let patched (same_id : jsv string → jsv string → Prop) (before after : list Expense.t) :=
    length after = length before ∧
    (∀ (i : nat) r, before !! i = Some r → ¬ same_id (Expense.id r) (Expense.id row) →
                    after !! i = Some r) ∧
    (∀ (i : nat) r, before !! i = Some r → same_id (Expense.id r) (Expense.id row) →
                    ∃ r', after !! i = Some r' ∧
                          Expense.id r' = Expense.id r ∧
                          Expense.date r' = Val saved ∧
                          Expense.amount r' = Expense.amount edited ∧
                          Expense.category_id r' = Expense.category_id edited ∧
                          Expense.note r' = Expense.note edited) ∧
    (∀ (i : nat), before !! i = Some row → same_id (Expense.id row) (Expense.id row) →
                  after !! i = Some edited) in
  Date_parse saved = Some (t - t mod 60000) ∧
  t - 60000 < t - t mod 60000 <= t ∧
  editModalRow st' = None ∧
  patched eq (e_expenses st) (e_expenses st') ∧
  patched (λ cell x, ∃ a, cell = Val a ∧ x = Val a) (e_table st) (e_table st') ∧
  submitEdit true (openEdit now row) st = st ∧
  (∀ lo hi, iso_min <= lo <= iso_max → iso_min <= hi <= iso_max →
            lo mod 60000 = 0 → lo <= t <= hi →
            in_range_strings (toISOString lo, toISOString hi) (Val saved) = true).
Proof.
  intros Ht Hd saved st' edited patched.
  assert (Ht' : iso_min <= t - t mod 60000 <= iso_max).
  { unfold iso_min, iso_max in *. Z.to_euclidean_division_equations; lia. }
  pose proof (edit_date_saved now row t tail Ht Hd) as Hsaved. fold saved in Hsaved.
  set (upd := updateData (openEdit now row)) in *.
  assert (Hcat : Expense.category_id upd = Expense.category_id edited).
  { subst upd edited. unfold updateData, openEdit, or_else, truthy.
    cbn [fields Expense.category_id].
    destruct (Expense.category_id row) as [ | | c ]; try done.
    by destruct (bool_decide (c = "")). }
  assert (Hnote : Expense.note upd = Expense.note edited).
  { subst upd edited. unfold updateData, openEdit, or_else, truthy.
    cbn [fields Expense.note].
    destruct (Expense.note row) as [ | | n ]; try done.
    destruct (bool_decide (n = "")) eqn:E; cbn [negb]; [ | done ].
    apply bool_decide_eq_true_1 in E. by subst n. }
  assert (Hamt : Expense.amount upd = Expense.amount edited) by done.
  assert (Hcols : ∀ r, let r' := spread r upd in
            Expense.id r' = Expense.id r ∧ Expense.date r' = Val saved ∧
            Expense.amount r' = Expense.amount edited ∧
            Expense.category_id r' = Expense.category_id edited ∧
            Expense.note r' = Expense.note edited).
  { intros r r'. subst r'. unfold spread.
    cbn [Expense.id Expense.date Expense.amount Expense.category_id Expense.note].
    rewrite Hsaved, Hcat, Hnote, Hamt. cbn [over].
    repeat split; try done.
    - subst edited. cbn [Expense.category_id].
      destruct (Expense.category_id row) as [ | | c ]; try done.
      by destruct (bool_decide (c = "")).
    - subst edited. cbn [Expense.note]. by destruct (Expense.note row). }
  assert (Hrow : spread row upd = edited).
  { pose proof (Hcols row) as (_ & H1 & H2 & H3 & H4). cbv zeta in H1, H2, H3, H4.
    unfold spread in *.
    cbn [Expense.date Expense.amount Expense.category_id Expense.note] in H1, H2, H3, H4.
    rewrite H1, H2, H3, H4. subst edited upd. unfold updateData, openEdit.
    cbn [fields Expense.id Expense.user_id Expense.trip_id Expense.kind Expense.amount
         Expense.category_id Expense.note Expense.original_text Expense.created_at over].
    by rewrite !over_self. }
  assert (Hpatch : ∀ (same_id : jsv string → jsv string → Prop)
                     (test : jsv string → jsv string → bool) before,
            (∀ a b, test a b = true ↔ same_id a b) →
            patched same_id before
              ((λ r, if test (Expense.id r) (Expense.id row) then spread r upd else r)
                 <$> before)).
  { intros same_id test before Htest. subst patched. cbv beta.
    split; [ by rewrite length_fmap | ].
    split; [ | split ].
    - intros i r Hi Hid. rewrite list_lookup_fmap, Hi. cbn.
      destruct (test (Expense.id r) (Expense.id row)) eqn:E; [ | done ].
      by apply Htest in E.
    - intros i r Hi Hid. apply Htest in Hid. exists (spread r upd).
      split; [ by rewrite list_lookup_fmap, Hi; cbn; rewrite Hid | apply Hcols ].
    - intros i Hi Hid. apply Htest in Hid.
      by rewrite list_lookup_fmap, Hi; cbn; rewrite Hid, Hrow. }
  split; [ by apply Date_parse_toISOString | ].
  split; [ Z.to_euclidean_division_equations; lia | ].
  split; [ done | ].
  split.
  { apply (Hpatch eq strict_eq). intros a b. split.
    - destruct a, b; cbn; try done. intros E. by apply bool_decide_eq_true_1 in E as ->.
    - intros ->. destruct b; cbn; try done. by apply bool_decide_eq_true_2. }
  split.
  { apply (Hpatch (λ cell x, ∃ a, cell = Val a ∧ x = Val a) Store.sql_eq). intros a b. split.
    - destruct a as [ | | a ], b as [ | | b ]; cbn; try done.
      intros E. apply bool_decide_eq_true_1 in E as ->. by exists b.
    - intros (c & -> & ->). cbn. by apply bool_decide_eq_true_2. }
  split; [ done | ].
  intros lo hi Hlo Hhi Hal Hin. subst saved.
  rewrite notification_test_closed by done.
  apply andb_true_iff. split; apply Z.leb_le; Z.to_euclidean_division_equations; lia.
Qed.

Lemma edit_untouched_floors_date_to_minute_tea :
  Date_parse (toISOString (1740825045123 - 1740825045123 mod 60000))
  = Some (1740825045123 - 1740825045123 mod 60000) ∧
  e_expenses (submitEdit false (openEdit 0 (tea (toISOString 1740825045123)))
                (mk_editing [tea (toISOString 1740825045123)]
                            [tea (toISOString 1740825045123)] None)) !! 0%nat
  = Some (Expense.mk (Val "e1") (Val "u1") Null (Val "c1") (Val 40%Q) (Val "expense")
            (Val "tea") (Val "40 tea")
            (Val (toISOString (1740825045123 - 1740825045123 mod 60000)))
            (Val (toISOString 1740825045123))) ∧
  e_table (submitEdit false (openEdit 0 (tea (toISOString 1740825045123)))
             (mk_editing [tea (toISOString 1740825045123)]
                         [tea (toISOString 1740825045123)] None)) !! 0%nat
  = Some (Expense.mk (Val "e1") (Val "u1") Null (Val "c1") (Val 40%Q) (Val "expense")
            (Val "tea") (Val "40 tea")
            (Val (toISOString (1740825045123 - 1740825045123 mod 60000)))
            (Val (toISOString 1740825045123))).
Proof.
  refine (let H := edit_untouched_floors_date_to_minute 0
                     (tea (toISOString 1740825045123)) 1740825045123 ":45.123Z"
                     (mk_editing [tea (toISOString 1740825045123)]
                                 [tea (toISOString 1740825045123)] None) _ _ in
          conj (proj1 H)
            (conj (proj2 (proj2 (proj2 (proj1 (proj2 (proj2 (proj2 H)))))) 0%nat eq_refl eq_refl)
                  (proj2 (proj2 (proj2 (proj1 (proj2 (proj2 (proj2 (proj2 H))))))) 0%nat
                     eq_refl (ex_intro _ "e1" (conj eq_refl eq_refl))))); evaluated.
Defined.

(** ** The months of a range *)

Lemma month_start_next (n : Z) :
  month_start (n + 1) = month_start n + days_in_month (n / 12) (n mod 12 + 1).
Proof.
  unfold month_start, days_in_month.
  replace (n / 12 + (n mod 12 + 1) / 12) with ((n + 1) / 12) by zdiv.
  replace ((n mod 12 + 1) mod 12 + 1) with ((n + 1) mod 12 + 1) by zdiv. lia.
Qed.

Lemma month_start_mono (n k : Z) : 0 <= k → month_start n + 28 * k <= month_start (n + k).
Proof.
  intros Hk. revert k Hk. apply natlike_ind; [ replace (n + 0) with n by lia; lia | ].
  intros k Hk IH. replace (n + Z.succ k) with (n + k + 1) by lia.
  rewrite month_start_next.
  pose proof (days_in_month_bounds ((n + k) / 12) ((n + k) mod 12 + 1) ltac:(zdiv)). lia.
Qed.

(** A date of the calendar is the date of its day number. *)
Lemma civil_from_days_from_civil (y m d : Z) :
  1 <= m <= 12 → 1 <= d <= days_in_month y m →
  civil_from_days (days_from_civil y m d) = (y, m, d).
Proof.
  intros Hm Hd.
  pose proof (days_from_civil_from_days (days_from_civil y m d)) as H.
  destruct (civil_from_days (days_from_civil y m d)) as [[y' m'] d'].
  destruct H as (Hz & Hm' & Hd').
  rewrite (days_from_civil_day y m d), (days_from_civil_day y' m' d') in Hz.
  set (n := 12 * y + (m - 1)). set (n' := 12 * y' + (m' - 1)).
  assert (En : month_start n = days_from_civil y m 1).
  { unfold month_start. f_equal; subst n; zdiv. }
  assert (En' : month_start n' = days_from_civil y' m' 1).
  { unfold month_start. f_equal; subst n'; zdiv. }
  assert (Dn : days_in_month (n / 12) (n mod 12 + 1) = days_in_month y m)
    by (f_equal; subst n; zdiv).
  assert (Dn' : days_in_month (n' / 12) (n' mod 12 + 1) = days_in_month y' m')
    by (f_equal; subst n'; zdiv).
  pose proof (month_start_next n) as Sn. pose proof (month_start_next n') as Sn'.
  assert (Hnn : n = n').
  { destruct (Z.lt_trichotomy n n') as [Hlt | [Heq | Hgt]]; [ | done | ].
    - pose proof (month_start_mono (n + 1) (n' - (n + 1)) ltac:(lia)) as Hmono.
      replace (n + 1 + (n' - (n + 1))) with n' in Hmono by lia. lia.
    - pose proof (month_start_mono (n' + 1) (n - (n' + 1)) ltac:(lia)) as Hmono.
      replace (n' + 1 + (n - (n' + 1))) with n in Hmono by lia. lia. }
  assert (y = y' ∧ m = m') as [-> ->] by (subst n n'; lia).
  f_equal. lia.
Qed.

(** Year and month of an instant of a calendar day. *)
Lemma year_month_of_day (y m d tod : Z) :
  1 <= m <= 12 → 1 <= d <= days_in_month y m → 0 <= tod < msPerDay →
  getFullYear (day_start y m d + tod) = y ∧ getMonth (day_start y m d + tod) = m - 1.
Proof.
  intros Hm Hd Ht. unfold getFullYear, getMonth, day_start.
  replace ((days_from_civil y m d * msPerDay + tod) / msPerDay) with (days_from_civil y m d)
    by (unfold msPerDay in *; zdiv).
  rewrite civil_from_days_from_civil by done. cbn [fst snd]. lia.
Qed.

(** The loop of [getMonthsInRange] lists the months from [current] to
    [endMonthStart]. *)
Lemma months_loop_seqZ (fuel : nat) (current endMonthStart : Z) :
  fuel = Z.to_nat (endMonthStart - current + 1) →
  months_loop fuel current endMonthStart
  = format_yyyy_MM <$> seqZ current (endMonthStart - current + 1).
Proof.
  revert current. induction fuel as [ | fuel IH ]; intros current Hf.
  - cbn [months_loop]. by rewrite seqZ_nil by lia.
  - cbn [months_loop]. rewrite (proj2 (Z.leb_le _ _)) by lia.
    rewrite seqZ_cons by lia. cbn [fmap list_fmap]. f_equal.
    rewrite IH by lia. f_equal. f_equal; lia.
Qed.

Lemma format_yyyy_MM_inj (n1 n2 : Z) :
  0 <= n1 < 120000 → 0 <= n2 < 120000 → format_yyyy_MM n1 = format_yyyy_MM n2 → n1 = n2.
Proof.
  intros H1 H2 E. unfold format_yyyy_MM in E.
  apply (f_equal (read_digits 4 0)) in E.
  rewrite !read_pad in E by (cbn; zdiv). injection E as E1 E2 E3.
  apply (f_equal code) in E2, E3. rewrite !code_digit_char in E2, E3. zdiv.
Qed.

(** The months of a range given by two date inputs. *)
Lemma months_of_dates (sy sm sd ey em ed : Z) :
  calendar_date sy sm sd → calendar_date ey em ed →
  getMonthsInRange (Date_parse (date_string sy sm sd)) (Date_parse (date_string ey em ed))
  = format_yyyy_MM <$> seqZ (12 * sy + (sm - 1)) (12 * ey + em - (12 * sy + sm) + 1).
Proof.
  intros Hs He. rewrite !Date_parse_date_string by done. unfold getMonthsInRange.
  destruct Hs as (? & ? & ?), He as (? & ? & ?).
  destruct (year_month_of_day sy sm sd 0) as [Y1 M1]; [ done | done | done | ].
  destruct (year_month_of_day ey em ed 0) as [Y2 M2]; [ done | done | done | ].
  rewrite Z.add_0_r in Y1, M1, Y2, M2. rewrite Y1, M1, Y2, M2.
  rewrite months_loop_seqZ by lia. f_equal. f_equal; lia.
Qed.

(** X4. [getMonthsInRange] on two calendar dates lists, from the month of
    the first to the month of the second, each month once and in order,
    written [yyyy-MM]; it is empty when the second date lies in an earlier
    month than the first, and a month is listed exactly when it lies between
    the two. Local time is taken to be UTC. *)
Theorem months_of_a_date_range (sy sm sd ey em ed : Z) :
  calendar_date sy sm sd → calendar_date ey em ed →
  let months :=
    getMonthsInRange (Date_parse (date_string sy sm sd)) (Date_parse (date_string ey em ed)) in
  let first := 12 * sy + (sm - 1) in
  let last := 12 * ey + (em - 1) in
  months = format_yyyy_MM <$> seqZ first (last - first + 1) ∧
  length months = Z.to_nat (last - first + 1) ∧
  NoDup months ∧
  (last < first → months = []) ∧
  (∀ y m, 0 <= y <= 9999 → 1 <= m <= 12 →
          pad 4 y +:+ "-" +:+ pad 2 m ∈ months ↔ first <= 12 * y + (m - 1) <= last).
Proof.
  intros Hs He months first last.
  assert (E : months = format_yyyy_MM <$> seqZ first (last - first + 1)).
  { subst months. rewrite months_of_dates by done. f_equal. f_equal; subst first last; lia. }
  destruct Hs as (? & ? & ?), He as (? & ? & ?).
  assert (Hinj : ∀ a b, a ∈ seqZ first (last - first + 1) → b ∈ seqZ first (last - first + 1) →
                        format_yyyy_MM a = format_yyyy_MM b → a = b).
  { intros a b Ha Hb. apply elem_of_seqZ in Ha, Hb.
    apply format_yyyy_MM_inj; subst first last; lia. }
  split; [ exact E | ]. rewrite E. split; [ by rewrite length_fmap, length_seqZ | ].
  split; [ apply NoDup_fmap_2_strong; [ exact Hinj | apply NoDup_seqZ ] | ].
  split; [ intros Hlt; by rewrite seqZ_nil by lia | ].
  intros y m Hy Hm.
  assert (Ef : pad 4 y +:+ "-" +:+ pad 2 m = format_yyyy_MM (12 * y + (m - 1))).
  { unfold format_yyyy_MM. f_equal; [ f_equal; zdiv | ]. f_equal. f_equal. zdiv. }
  rewrite Ef, list_elem_of_fmap. split.
  - intros (n & En & Hn). apply elem_of_seqZ in Hn.
    apply format_yyyy_MM_inj in En; subst first last; lia.
  - intros Hin. exists (12 * y + (m - 1)). split; [ done | ]. apply elem_of_seqZ. lia.
Qed.

Lemma months_of_a_date_range_goa :
  getMonthsInRange (Date_parse (date_string 2025 3 15)) (Date_parse (date_string 2025 4 10))
  = format_yyyy_MM <$> seqZ (12 * 2025 + (3 - 1)) (12 * 2025 + (4 - 1) - (12 * 2025 + (3 - 1)) + 1).
Proof. apply (months_of_a_date_range 2025 3 15 2025 4 10); evaluated. Defined.

(** ** Budget: save, then load *)





(** ** Months and days *)

(** A later day is in the same month or in a later one. *)
Lemma month_of_later_day (sy sm sd ey em ed : Z) :
  1 <= sm <= 12 → 1 <= sd → 1 <= em <= 12 → 1 <= ed <= days_in_month ey em →
  days_from_civil sy sm sd <= days_from_civil ey em ed →
  12 * sy + sm <= 12 * ey + em.
Proof.
  intros Hsm Hsd Hem Hed Hle.
  rewrite (days_from_civil_day sy sm sd), (days_from_civil_day ey em ed) in Hle.
  set (n := 12 * sy + (sm - 1)). set (n' := 12 * ey + (em - 1)).
  assert (En : month_start n = days_from_civil sy sm 1).
  { unfold month_start. f_equal; subst n; zdiv. }
  assert (En' : month_start n' = days_from_civil ey em 1).
  { unfold month_start. f_equal; subst n'; zdiv. }
  assert (Dn' : days_in_month (n' / 12) (n' mod 12 + 1) = days_in_month ey em)
    by (f_equal; subst n'; zdiv).
  pose proof (month_start_next n') as Sn'.
  destruct (Z.le_gt_cases n n') as [Hok | Hgt]; [ subst n n'; lia | ].
  pose proof (month_start_mono (n' + 1) (n - (n' + 1)) ltac:(lia)) as Hmono.
  replace (n' + 1 + (n - (n' + 1))) with n in Hmono by lia. lia.
Qed.

Lemma date_string_truthy (y m d : Z) : truthy (Val (date_string y m d)) = true.
Proof.
  apply truthy_nonempty. unfold date_string.
  rewrite length_append_s, pad_length. lia.
Qed.

(** ** Creating a trip *)

(** X6. [createTrip] with a name and two calendar dates refuses an end
    date that is not after the start date with its message and leaves the
    table alone; otherwise it adds the trip, owned by the user, and shows no
    message, and the months that the dashboard budgets for the new trip begin
    with the month of its start date. Local time is taken to be UTC. *)
Theorem created_trip_has_budget_months
    (trips : list TripsTab.trip_row) (user_id name id : string) (sy sm sd ey em ed : Z) :
  name ≠ "" → calendar_date sy sm sd → calendar_date ey em ed →
  let newTrip := TripsTab.mk_new_trip name (date_string sy sm sd) (date_string ey em ed) in
  let created := TripsTab.mk_trip_row user_id
                   (Trip.mk id name (date_string sy sm sd) (date_string ey em ed)) in
  (day_start ey em ed <= day_start sy sm sd →
     TripsTab.createTrip trips user_id newTrip id
     = (trips, "End date must be after start date")) ∧
  (day_start sy sm sd < day_start ey em ed →
     TripsTab.createTrip trips user_id newTrip id = ((trips ++ [created])%list, "") ∧
     ∀ startDateStr endDateStr,
       ∃ rest, budget_months (View.mk user_id (Some (TripsTab.trip created))
                                startDateStr endDateStr)
               = (pad 4 sy +:+ "-" +:+ pad 2 sm) :: rest).
Proof.
  intros Hname Hs He newTrip created.
  assert (Hfilled : negb (truthy (Val name)) || negb (truthy (Val (date_string sy sm sd))) ||
                    negb (truthy (Val (date_string ey em ed))) = false).
  { rewrite !date_string_truthy. cbn [truthy]. by rewrite bool_decide_eq_false_2. }
  assert (E : TripsTab.createTrip_refusal newTrip
              = if day_start ey em ed <=? day_start sy sm sd
                then Some "End date must be after start date" else None).
  { unfold TripsTab.createTrip_refusal. subst newTrip.
    cbn [TripsTab.nt_name TripsTab.nt_start TripsTab.nt_end].
    rewrite Hfilled, !Date_parse_date_string by done. done. }
  unfold TripsTab.createTrip. rewrite E. split.
  - intros Hle. by rewrite (proj2 (Z.leb_le _ _)) by done.
  - intros Hlt. rewrite (proj2 (Z.leb_gt _ _)) by done. split; [ done | ].
    intros startDateStr endDateStr. unfold budget_months. subst created.
    cbn [View.trip TripsTab.trip Trip.start_date Trip.end_date].
    rewrite months_of_dates by done.
    destruct Hs as (? & ? & ?), He as (? & ? & ?).
    assert (12 * sy + sm <= 12 * ey + em).
    { apply (month_of_later_day sy sm sd ey em ed); try done; try lia.
      unfold day_start, msPerDay in Hlt. lia. }
    rewrite seqZ_cons by lia. cbn [fmap list_fmap]. eexists. f_equal.
    unfold format_yyyy_MM. f_equal; [ f_equal; zdiv | ]. f_equal. f_equal. zdiv.
Qed.

Lemma created_trip_has_budget_months_goa :
  TripsTab.createTrip [] "u1"
    (TripsTab.mk_new_trip "Goa" (date_string 2025 3 15) (date_string 2025 4 10)) "t1"
  = (([] ++ [TripsTab.mk_trip_row "u1"
               (Trip.mk "t1" "Goa" (date_string 2025 3 15) (date_string 2025 4 10))])%list, "").
Proof.
  refine (proj1 (proj2 (created_trip_has_budget_months [] "u1" "Goa" "t1"
                          2025 3 15 2025 4 10 _ _ _) _)); evaluated.
Defined.

(** ** The trip cards *)

Lemma filter_snoc {A} (f : A → bool) (l : list A) (x : A) :
  List.filter f (l ++ [x]) = (List.filter f l ++ if f x then [x] else [])%list.
Proof. rewrite List.filter_app. cbn [List.filter]. by destruct (f x). Qed.



Lemma budget_sum_app (l1 l2 : list Budget.t) :
  (budget_sum (l1 ++ l2) == budget_sum l1 + budget_sum l2)%Q.
Proof.
  induction l1 as [ | b l1 IH ].
  - cbn [app]. change (budget_sum []) with 0%Q. ring.
  - cbn [app]. change (budget_sum (b :: l1 ++ l2))
      with (or0 (Budget.amount b) + budget_sum (l1 ++ l2))%Q.
    change (budget_sum (b :: l1)) with (or0 (Budget.amount b) + budget_sum l1)%Q.
    rewrite IH. ring.
Qed.

Lemma budget_inv_step (l : list Budget.t) acc (bud : Budget.t) :
  budget_inv l acc → budget_inv (l ++ [bud]) (TripsTab.budget_step acc bud).
Proof.
  intros [Ha Hp]. destruct acc as [sums amounts]. cbn [fst snd] in *.
  set (key := default "null" (Budget.trip_id bud)).
  assert (Hrows : ∀ tid, budgets_at tid (l ++ [bud])
                         = (budgets_at tid l ++ if bool_decide (key = tid) then [bud] else [])%list).
  { intros tid. unfold budgets_at. by rewrite filter_snoc. }
  unfold TripsTab.budget_step. fold key. split; cbn [fst snd].
  - intros tid Hnil. rewrite Hrows in Hnil.
    destruct (bool_decide (key = tid)) eqn:Eb; [ by destruct (budgets_at tid l) | ].
    apply bool_decide_eq_false in Eb. rewrite app_nil_r in Hnil.
    rewrite !lookup_insert_ne by done. by apply Ha.
  - intros tid Hne. destruct (decide (key = tid)) as [<- | Hk].
    + rewrite !lookup_insert_eq, Hrows, bool_decide_eq_true_2 by done. split.
      * eexists. split; [ done | ]. rewrite budget_sum_app.
        cbn [budget_sum foldr]. destruct (budgets_at key l) as [ | b0 bs ] eqn:E.
        -- destruct (Ha key E) as [-> _]. cbn [budget_sum foldr]. ring.
        -- destruct (Hp key) as [(s & -> & Hs) _]; [ by rewrite E | ].
           rewrite or0_eq, Hs, E. ring.
      * exists bud. by rewrite last_snoc.
    + rewrite Hrows, bool_decide_eq_false_2, app_nil_r in Hne by done.
      rewrite !lookup_insert_ne, Hrows, bool_decide_eq_false_2, app_nil_r by done.
      by apply Hp.
Qed.

Lemma budget_inv_all (l : list Budget.t) :
  budget_inv l (foldl TripsTab.budget_step (∅, ∅) l).
Proof.
  induction l as [ | bud l IH ] using rev_ind.
  - split; intros tid H; [ done | by destruct H ].
  - rewrite foldl_app. cbn [foldl]. by apply budget_inv_step.
Qed.


Lemma sum_at_budget (l : list Budget.t) (tid : string) :
  (TripsTab.sum_at (foldl TripsTab.budget_step (∅, ∅) l).1 tid
     == budget_sum (budgets_at tid l))%Q.
Proof.
  destruct (budget_inv_all l) as [Ha Hp]. unfold TripsTab.sum_at.
  destruct (budgets_at tid l) as [ | r rs ] eqn:E.
  - by destruct (Ha tid E) as [-> _].
  - destruct (Hp tid) as [(s & -> & Hs) _]; [ by rewrite E | ]. by rewrite or0_eq, Hs, E.
Qed.

Lemma filter_perm {A} (f : A → bool) (l1 l2 : list A) :
  l1 ≡ₚ l2 → List.filter f l1 ≡ₚ List.filter f l2.
Proof.
  induction 1 as [ | x l l' _ IH | x y l | l l' l'' _ IH1 _ IH2 ]; cbn [List.filter].
  - done.
  - destruct (f x); by rewrite IH.
  - destruct (f x), (f y); try done. apply perm_swap.
  - by rewrite IH1.
Qed.

Lemma filter_twice {A} (f g : A → bool) (l : list A) :
  List.filter f (List.filter g l) = List.filter (λ x, g x && f x) l.
Proof.
  induction l as [ | x l IH ]; [ done | ]. cbn [List.filter].
  destruct (g x); cbn [List.filter andb]; by rewrite IH.
Qed.

Lemma filter_same {A} (f g : A → bool) (l : list A) :
  (∀ x, x ∈ l → f x = g x) → List.filter f l = List.filter g l.
Proof.
  induction l as [ | x l IH ]; intros H; [ done | ]. cbn [List.filter].
  rewrite (H x) by left. rewrite IH; [ done | ]. intros y Hy. apply H. by right.
Qed.


Lemma budget_sum_perm (l1 l2 : list Budget.t) :
  l1 ≡ₚ l2 → (budget_sum l1 == budget_sum l2)%Q.
Proof.
  induction 1 as [ | x l l' _ IH | x y l | l l' l'' _ IH1 _ IH2 ].
  - reflexivity.
  - change (or0 (Budget.amount x) + budget_sum l == or0 (Budget.amount x) + budget_sum l')%Q.
    by rewrite IH.
  - change (or0 (Budget.amount y) + (or0 (Budget.amount x) + budget_sum l)
            == or0 (Budget.amount x) + (or0 (Budget.amount y) + budget_sum l))%Q. ring.
  - by rewrite IH1.
Qed.

(** The budget of a trip, from the table: the budget rows of the user and
    the trip. *)
Lemma budgets_at_table (budgets : list Budget.t) (user_id tid : string) :
  budgets_at tid (TripsTab.budgetsData budgets user_id)
  = List.filter (λ b, bool_decide (Budget.user_id b = user_id) &&
                      bool_decide (Budget.trip_id b = Some tid)) budgets.
Proof.
  unfold budgets_at, TripsTab.budgetsData. rewrite filter_twice. apply filter_same.
  intros b _. cbn beta. destruct (bool_decide (Budget.user_id b = user_id)); [ | done ].
  cbn [andb]. destruct (Budget.trip_id b) as [x | ]; cbn [default].
  - rewrite bool_decide_eq_true_2 by done. cbn [andb].
    apply bool_decide_ext. unfold id. split; congruence.
  - rewrite (bool_decide_eq_false_2 (None ≠ None)) by (intros H; by apply H).
    cbn [andb]. symmetry. by apply bool_decide_eq_false_2.
Qed.



(** ** The trips of a range *)

(** The test on the printed dates of a trip is the test on its instants. *)
Lemma overlaps_listed (lo hi : Z) (t : Trip.t) :
  iso_min <= lo <= iso_max → iso_min <= hi <= iso_max →
  iso_readable (Trip.start_date t) → iso_readable (Trip.end_date t) →
  TripsTab.overlaps (toISOString lo) (toISOString hi) t = Some (listed lo hi t).
Proof.
  intros Hlo Hhi (ts & Es & Hs) (te & Ee & He). unfold TripsTab.overlaps, listed.
  rewrite Es, Ee. cbn [fmap option_fmap option_map mbind option_bind]. f_equal.
  unfold str_le, str_ge. rewrite !str_compare_toISOString by done.
  destruct (Z.compare_spec ts hi), (Z.compare_spec te lo), (Z.leb_spec ts hi), (Z.leb_spec lo te);
    try done; lia.
Qed.

Lemma filter_overlapping_listed (lo hi : Z) (l : list Trip.t) :
  iso_min <= lo <= iso_max → iso_min <= hi <= iso_max →
  (∀ t, t ∈ l → iso_readable (Trip.start_date t) ∧ iso_readable (Trip.end_date t)) →
  TripsTab.filter_overlapping (toISOString lo) (toISOString hi) l
  = Some (List.filter (listed lo hi) l).
Proof.
  intros Hlo Hhi. induction l as [ | t l IH ]; intros Hl; [ done | ].
  cbn [TripsTab.filter_overlapping List.filter].
  destruct (Hl t) as [Hs He]; [ left | ].
  rewrite overlaps_listed, IH by (done || intros t' Ht'; apply Hl; by right).
  by destruct (listed lo hi t).
Qed.

(** The store's test of a trip against the two bounds is the test on its
    instants. *)
Lemma store_overlap_listed (lo hi : Z) (t : Trip.t) :
  iso_min <= lo <= iso_max → iso_min <= hi <= iso_max →
  Store.date_le (Trip.start_date t) (toISOString hi) &&
  Store.date_ge (Trip.end_date t) (toISOString lo) = listed lo hi t.
Proof.
  intros Hlo Hhi. unfold Store.date_ge, Store.date_le, listed.
  rewrite !Date_parse_toISOString by done.
  destruct (Date_parse (Trip.start_date t)), (Date_parse (Trip.end_date t)); try done.
  by rewrite andb_false_r.
Qed.

(** The bounds of the tab for a range given by two date inputs. *)
Lemma date_filter_date_strings (sy sm sd ey em ed : Z) :
  calendar_date sy sm sd → calendar_date ey em ed →
  TripsTab.date_filter (date_string sy sm sd) (date_string ey em ed)
  = Some (Some (toISOString (day_start sy sm sd),
                toISOString (day_start ey em ed + msPerDay - 1))).
Proof.
  intros Hs He. destruct (isoRefs_date_strings _ _ _ _ _ _ Hs He) as [E1 _].
  pose proof (days_in_month_bounds sy sm (proj1 (proj2 Hs))).
  pose proof (days_in_month_bounds ey em (proj1 (proj2 He))).
  destruct Hs as (? & ? & ?), He as (? & ? & ?).
  unfold TripsTab.date_filter. rewrite E1, !ymd_date by lia. cbn [falsy].
  repeat (rewrite (proj2 (Z.eqb_neq _ 0)) by lia). done.
Qed.

(** The load of the tab for a range given by two date inputs, when the
    dates of the user's trips can be read: it lists the trips that overlap
    the range. *)
Lemma load_trips_listed (db : TripsTab.tables) (user_id : string)
    (sy sm sd ey em ed : Z) (st : TripsTab.tab) :
  calendar_date sy sm sd → calendar_date ey em ed →
  (∀ r, r ∈ TripsTab.t_trips db → TripsTab.owner r = user_id →
        iso_readable (Trip.start_date (TripsTab.trip r)) ∧
        iso_readable (Trip.end_date (TripsTab.trip r))) →
  let lo := day_start sy sm sd in
  let hi := day_start ey em ed + msPerDay - 1 in
  (iso_min <= lo <= iso_max ∧ iso_min <= hi <= iso_max) ∧
  (∀ t, t ∈ TripsTab.tripsData (TripsTab.t_trips db) user_id ↔
        ∃ r, r ∈ TripsTab.t_trips db ∧ TripsTab.owner r = user_id ∧ TripsTab.trip r = t) ∧
  ∃ st',
    TripsTab.loadTripsWithSummary db user_id (date_string sy sm sd) (date_string ey em ed) st
      = (st', Some (length (TripsTab.trips st'))) ∧
    TripsTab.s_trip <$> TripsTab.trips st'
      = List.filter (listed lo hi) (TripsTab.tripsData (TripsTab.t_trips db) user_id).
Proof.
  intros Hs He Hread lo hi.
  pose proof (day_start_range _ _ _ Hs) as Rs. pose proof (day_start_range _ _ _ He) as Re.
  assert (Hlo : iso_min <= lo <= iso_max) by (subst lo; unfold msPerDay in *; lia).
  assert (Hhi : iso_min <= hi <= iso_max)
    by (subst hi; unfold msPerDay, iso_min, iso_max, day_start in *; lia).
  set (data := TripsTab.tripsData (TripsTab.t_trips db) user_id).
  assert (Hdata : ∀ t, t ∈ data ↔
            ∃ r, r ∈ TripsTab.t_trips db ∧ TripsTab.owner r = user_id ∧ TripsTab.trip r = t).
  { intros t. subst data. unfold TripsTab.tripsData.
    rewrite merge_sort_Permutation, list_elem_of_fmap. split.
    - intros (r & -> & Hr). apply list_elem_of_In, List.filter_In in Hr as [Hr Ho].
      exists r. split; [ by apply list_elem_of_In | ]. split; [ | done ].
      by apply bool_decide_eq_true in Ho.
    - intros (r & Hr & Ho & <-). exists r. split; [ done | ].
      apply list_elem_of_In, List.filter_In. split; [ by apply list_elem_of_In | ].
      by apply bool_decide_eq_true. }
  assert (Hall : ∀ t, t ∈ data →
            iso_readable (Trip.start_date t) ∧ iso_readable (Trip.end_date t)).
  { intros t Ht. apply Hdata in Ht as (r & Hr & Ho & <-). by apply Hread. }
  split; [ done | ]. split; [ exact Hdata | ].
  unfold TripsTab.loadTripsWithSummary. fold data.
  rewrite date_filter_date_strings by done.
  rewrite filter_overlapping_listed by done. fold lo hi.
  destruct (foldl TripsTab.by_trip_step _ _) as [byTrip sums].
  destruct (foldl TripsTab.budget_step _ _) as [bsums amounts].
  case_bool_decide as Hnil.
  - match goal with |- ∃ _, (?x, _) = _ ∧ _ => exists x end.
    split; [ reflexivity | ]. cbn [TripsTab.trips]. by rewrite Hnil.
  - match goal with |- ∃ _, (?x, _) = _ ∧ _ => exists x end.
    split; [ cbn [TripsTab.trips]; by rewrite length_fmap | ].
    cbn [TripsTab.trips].
    induction (List.filter (listed lo hi) data) as [ | t l IH ]; [ done | ].
    cbn [fmap list_fmap]. f_equal. exact IH.
Qed.

(** The dates of the trip of the example can be read. *)
Lemma goa_dates_readable (r : TripsTab.trip_row) :
  r ∈ TripsTab.t_trips goa_tables → TripsTab.owner r = "u1" →
  iso_readable (Trip.start_date (TripsTab.trip r)) ∧
  iso_readable (Trip.end_date (TripsTab.trip r)).
Proof.
  intros Hr _. apply list_elem_of_singleton in Hr as ->. split.
  - exists (day_start 2025 3 15). evaluated.
  - exists (day_start 2025 4 10). evaluated.
Qed.

(** X8. For a range given by two calendar dates and a user whose trips
    all have dates that can be read, [loadTripsWithSummary] runs to its end
    and lists exactly the user's trips that overlap the range: those that
    start no later than the last millisecond of the range and end no
    earlier than its first instant. *)
Theorem trips_listed_iff_overlap (db : TripsTab.tables) (user_id : string)
    (sy sm sd ey em ed : Z) (st : TripsTab.tab) :
  calendar_date sy sm sd → calendar_date ey em ed →
  (∀ r, r ∈ TripsTab.t_trips db → TripsTab.owner r = user_id →
        iso_readable (Trip.start_date (TripsTab.trip r)) ∧
        iso_readable (Trip.end_date (TripsTab.trip r))) →
  let lo := day_start sy sm sd in
  let hi := day_start ey em ed + msPerDay - 1 in
  ∃ st',
    TripsTab.loadTripsWithSummary db user_id (date_string sy sm sd) (date_string ey em ed) st
      = (st', Some (length (TripsTab.trips st'))) ∧
    (∀ t, t ∈ TripsTab.s_trip <$> TripsTab.trips st' ↔
          (∃ r, r ∈ TripsTab.t_trips db ∧ TripsTab.owner r = user_id ∧ TripsTab.trip r = t) ∧
          ∃ ts te, Date_parse (Trip.start_date t) = Some ts ∧
                   Date_parse (Trip.end_date t) = Some te ∧ ts <= hi ∧ lo <= te).
Proof.
  intros Hs He Hread lo hi.
  destruct (load_trips_listed db user_id _ _ _ _ _ _ st Hs He Hread)
    as (_ & Hdata & st' & Hload & Htrips).
  exists st'. split; [ exact Hload | ]. intros t. rewrite Htrips, <- Hdata.
  rewrite list_elem_of_In, List.filter_In, <- list_elem_of_In.
  apply and_iff_compat_l. unfold listed. fold lo hi. split.
  - destruct (Date_parse (Trip.start_date t)) as [ts | ]; [ | done ].
    destruct (Date_parse (Trip.end_date t)) as [te | ]; [ | done ].
    intros [H1 H2]%andb_true_iff. exists ts, te. repeat split; lia.
  - intros (ts & te & -> & -> & H1 & H2). apply andb_true_iff. lia.
Qed.

Lemma trips_listed_iff_overlap_goa :
  ∃ st',
    TripsTab.loadTripsWithSummary goa_tables "u1" (date_string 2025 3 1) (date_string 2025 3 31)
      empty_tab
    = (st', Some (length (TripsTab.trips st'))).
Proof.
  destruct (trips_listed_iff_overlap goa_tables "u1" 2025 3 1 2025 3 31 empty_tab)
    as (st' & H & _).
  - evaluated.
  - evaluated.
  - exact goa_dates_readable.
  - by exists st'.
Defined.

(** X9. Under the same conditions, the flag [hasTrips] that
    [checkTripsForDateRange] computes in [App], its store call succeeding, is
    the flag that the trips tab gives to [handleTripStatusChange] after its
    load: the two ways of counting the trips of a range agree. *)
Theorem has_trips_agrees_with_trips_tab (db : TripsTab.tables) (user_id : string)
    (sy sm sd ey em ed : Z) (st : TripsTab.tab) (hasTrips : bool) :
  calendar_date sy sm sd → calendar_date ey em ed →
  (∀ r, r ∈ TripsTab.t_trips db → TripsTab.owner r = user_id →
        iso_readable (Trip.start_date (TripsTab.trip r)) ∧
        iso_readable (Trip.end_date (TripsTab.trip r))) →
  ∃ st' n,
    TripsTab.loadTripsWithSummary db user_id (date_string sy sm sd) (date_string ey em ed) st
      = (st', Some n) ∧
    App.checkTripsForDateRange (TripsTab.t_trips db) (Some user_id)
      (date_string sy sm sd) (date_string ey em ed) false hasTrips
    = App.handleTripStatusChange n.
Proof.
  intros Hs He Hread.
  destruct (load_trips_listed db user_id _ _ _ _ _ _ st Hs He Hread)
    as ((Hlo & Hhi) & _ & st' & Hload & Htrips).
  exists st', (length (TripsTab.trips st')). split; [ exact Hload | ].
  unfold App.checkTripsForDateRange, App.handleTripStatusChange.
  rewrite !date_string_truthy, date_filter_date_strings by done. cbn [negb orb].
  f_equal. rewrite <- (length_fmap TripsTab.s_trip), Htrips. unfold TripsTab.tripsData.
  rewrite (Permutation_length
             (filter_perm _ _ _ (merge_sort_Permutation TripsTab.later_start _))).
  set (lo := day_start sy sm sd) in *. set (hi := day_start ey em ed + msPerDay - 1) in *.
  clear Hload Htrips Hread. generalize (TripsTab.t_trips db). intros l.
  induction l as [ | r l IH ]; [ done | ].
  cbn [List.filter]. unfold App.overlapping at 1.
  rewrite <- andb_assoc, store_overlap_listed by done.
  destruct (bool_decide (TripsTab.owner r = user_id)); cbn [andb fmap list_fmap List.filter].
  - destruct (listed lo hi (TripsTab.trip r)); cbn [length]; by rewrite IH.
  - exact IH.
Qed.

Lemma has_trips_agrees_with_trips_tab_goa :
  ∃ n,
    App.checkTripsForDateRange (TripsTab.t_trips goa_tables) (Some "u1")
      (date_string 2025 3 1) (date_string 2025 3 31) false false
    = App.handleTripStatusChange n.
Proof.
  destruct (has_trips_agrees_with_trips_tab goa_tables "u1" 2025 3 1 2025 3 31 empty_tab false)
    as (st' & n & _ & H).
  - evaluated.
  - evaluated.
  - exact goa_dates_readable.
  - by exists n.
Defined.

(** ** The groups of an expanded trip card *)

Section Upsert.

Context (key : string) (init : group) (f : group → group).

Lemma upsert_keys (grouped : TripsTab.group_entries) :
  (TripsTab.upsert key init f grouped).*1
  = if bool_decide (key ∈ grouped.*1) then grouped.*1 else (grouped.*1 ++ [key])%list.
Proof.
  induction grouped as [ | [k g] rest IH ]; [ done | ].
  cbn [TripsTab.upsert]. destruct (decide (k = key)) as [-> | Hk].
  - rewrite (bool_decide_eq_true_2 (key = key)) by done. cbn [fmap list_fmap fst].
    rewrite bool_decide_eq_true_2; [ done | left ].
  - rewrite (bool_decide_eq_false_2 (k = key)) by done. cbn [fmap list_fmap fst].
    rewrite IH. destruct (decide (key ∈ rest.*1)) as [Hin | Hin].
    + rewrite !bool_decide_eq_true_2; [ done | by right | done ].
    + rewrite !bool_decide_eq_false_2; [ done | | done ].
      rewrite elem_of_cons. intros [E | E]; [ by subst | done ].
Qed.

Lemma upsert_NoDup (grouped : TripsTab.group_entries) :
  NoDup grouped.*1 → NoDup (TripsTab.upsert key init f grouped).*1.
Proof.
  intros H. rewrite upsert_keys. destruct (decide (key ∈ grouped.*1)) as [Hk | Hk];
    [ by rewrite bool_decide_eq_true_2 | rewrite bool_decide_eq_false_2 by done ].
  apply NoDup_app. split; [ done | ]. split; [ | apply NoDup_singleton ].
  intros x Hx Hx'. apply list_elem_of_singleton in Hx'. by subst.
Qed.

Lemma entry_at_upsert (grouped : TripsTab.group_entries) (k : string) :
  entry_at k (TripsTab.upsert key init f grouped)
  = if bool_decide (k = key) then Some (f (default init (entry_at key grouped)))
    else entry_at k grouped.
Proof.
  induction grouped as [ | [k0 g] rest IH ].
  - cbn [TripsTab.upsert entry_at default].
    destruct (decide (k = key)) as [-> | Hk].
    + by rewrite !bool_decide_eq_true_2.
    + by rewrite !bool_decide_eq_false_2 by congruence.
  - cbn [TripsTab.upsert]. destruct (decide (k0 = key)) as [-> | Hk0].
    + rewrite (bool_decide_eq_true_2 (key = key)) by done. cbn [entry_at].
      rewrite (bool_decide_eq_true_2 (key = key)) by done. cbn [default].
      destruct (decide (k = key)) as [-> | Hk].
      * by rewrite !bool_decide_eq_true_2.
      * by rewrite !bool_decide_eq_false_2 by congruence.
    + rewrite (bool_decide_eq_false_2 (k0 = key)) by done. cbn [entry_at].
      rewrite (bool_decide_eq_false_2 (k0 = key)) by done. rewrite IH.
      destruct (decide (k = key)) as [-> | Hk].
      * rewrite (bool_decide_eq_true_2 (key = key)) by done.
        by rewrite (bool_decide_eq_false_2 (k0 = key)) by done.
      * rewrite (bool_decide_eq_false_2 (k = key)) by done. done.
Qed.

End Upsert.

Lemma sum_totals_app (l1 l2 : list group) :
  (sum_totals (l1 ++ l2) == sum_totals l1 + sum_totals l2)%Q.
Proof.
  induction l1 as [ | g l1 IH ].
  - cbn [app]. change (sum_totals []) with 0%Q. ring.
  - cbn [app]. change (sum_totals (g :: l1 ++ l2)) with (total g + sum_totals (l1 ++ l2))%Q.
    change (sum_totals (g :: l1)) with (total g + sum_totals l1)%Q. rewrite IH. ring.
Qed.

(** Filing a row adds it to the rows of one group. *)
Lemma upsert_rows (key : string) (init : group) (exp : Expense.t) (total' : group → Q)
    (grouped : TripsTab.group_entries) :
  rows init = [] →
  let f g := mk_group (g_id g) (g_name g) (total' g) (rows g ++ [exp]) in
  mjoin (rows <$> (TripsTab.upsert key init f grouped).*2)
  ≡ₚ (mjoin (rows <$> grouped.*2) ++ [exp])%list.
Proof.
  intros Hi f. induction grouped as [ | [k g] rest IH ].
  - cbn. by rewrite Hi.
  - cbn [TripsTab.upsert]. destruct (bool_decide (k = key)).
    + cbn [fmap list_fmap snd mjoin list_join]. subst f. cbn [rows].
      rewrite <- !app_assoc. apply Permutation_app_head, Permutation_app_comm.
    + cbn [fmap list_fmap snd mjoin list_join]. rewrite IH. by rewrite app_assoc.
Qed.

Lemma rows_under_snoc (categories : gmap string string) (key : string) (l : list Expense.t)
    (exp : Expense.t) :
  rows_under categories key (l ++ [exp])
  = (rows_under categories key l ++
     if bool_decide (entry_key categories exp = key) then [exp] else [])%list.
Proof. unfold rows_under. by rewrite filter_snoc. Qed.

Lemma entries_inv_step (categories : gmap string string) (l : list Expense.t)
    (grouped : TripsTab.group_entries) (exp : Expense.t) :
  entries_inv categories l grouped →
  entries_inv categories (l ++ [exp]) (TripsTab.group_step categories grouped exp).
Proof.
  intros [Hk Ha Hp Hr]. unfold TripsTab.group_step. fold (entry_key categories exp).
  set (key := entry_key categories exp). split.
  - by apply upsert_NoDup.
  - intros k Hnil. rewrite rows_under_snoc in Hnil. fold key in Hnil.
    destruct (decide (key = k)) as [<- | Hne].
    + rewrite bool_decide_eq_true_2 in Hnil by done. by destruct (rows_under categories key l).
    + rewrite bool_decide_eq_false_2, app_nil_r in Hnil by done.
      rewrite entry_at_upsert, bool_decide_eq_false_2 by congruence. by apply Ha.
  - intros k r0 rest Hrows. rewrite rows_under_snoc in Hrows. fold key in Hrows.
    rewrite entry_at_upsert. destruct (decide (key = k)) as [<- | Hne].
    + rewrite bool_decide_eq_true_2 in Hrows by done.
      rewrite (bool_decide_eq_true_2 (key = key)) by done. eexists. split; [ done | ].
      destruct (rows_under categories key l) as [ | r1 rest1 ] eqn:E.
      * rewrite (Ha key E). cbn [from_option id rows g_id g_name total app] in *. simplify_eq.
        repeat split; try done. cbn. ring.
      * destruct (Hp key r1 rest1 E) as (g & -> & Hg1 & Hg2 & Hg3 & Hg4).
        cbn [from_option id rows g_id g_name total]. cbn [app] in Hrows. simplify_eq.
        rewrite Hg1. repeat split; try done.
        rewrite Hg4. change (r0 :: rest1 ++ [exp])%list with ((r0 :: rest1) ++ [exp])%list.
        rewrite sum_amounts_app. cbn. ring.
    + rewrite bool_decide_eq_false_2, app_nil_r in Hrows by done.
      rewrite bool_decide_eq_false_2 by congruence. by apply Hp.
  - rewrite upsert_rows by done. by rewrite Hr.
Qed.

Lemma entries_inv_all (categories : gmap string string) (l : list Expense.t) :
  entries_inv categories l (foldl (TripsTab.group_step categories) [] l).
Proof.
  induction l as [ | exp l IH ] using rev_ind.
  - split; [ apply NoDup_nil_2 | done | done | done ].
  - rewrite foldl_app. cbn [foldl]. by apply entries_inv_step.
Qed.

Lemma elem_entry_at (grouped : TripsTab.group_entries) (k : string) (g : group) :
  NoDup grouped.*1 → (k, g) ∈ grouped → entry_at k grouped = Some g.
Proof.
  induction grouped as [ | [k0 g0] rest IH ]; intros Hnd Hin; [ by apply elem_of_nil in Hin | ].
  cbn [fmap list_fmap fst] in Hnd. apply NoDup_cons in Hnd as [Hk0 Hnd].
  apply elem_of_cons in Hin as [Heq | Hin]; cbn [entry_at].
  - simplify_eq. by rewrite bool_decide_eq_true_2.
  - rewrite bool_decide_eq_false_2; [ by apply IH | ].
    intros ->. apply Hk0. apply list_elem_of_fmap. by exists (k, g).
Qed.

(** The entry of a key that has one describes the rows filed under it. *)
Lemma entries_inv_group (categories : gmap string string) (l : list Expense.t)
    (grouped : TripsTab.group_entries) (k : string) (g : group) :
  entries_inv categories l grouped → (k, g) ∈ grouped →
  ∃ r0 rest, rows g = r0 :: rest ∧ rows g = rows_under categories k l ∧
             k = entry_key categories r0 ∧
             g_id g = group_key r0 ∧ g_name g = group_name categories r0 ∧
             (total g == sum_amounts (rows g))%Q.
Proof.
  intros [Hk Ha Hp Hr] Hin. pose proof (elem_entry_at _ _ _ Hk Hin) as E.
  destruct (rows_under categories k l) as [ | r0 rest ] eqn:Erows.
  { rewrite (Ha k Erows) in E. done. }
  destruct (Hp k r0 rest Erows) as (g' & E' & Hg1 & Hg2 & Hg3 & Hg4).
  assert (g' = g) as -> by congruence.
  exists r0, rest. rewrite Hg1. repeat split; try done.
  assert (Hr0 : r0 ∈ rows_under categories k l) by (rewrite Erows; left).
  apply list_elem_of_In, List.filter_In in Hr0 as [_ Hr0].
  by apply bool_decide_eq_true in Hr0.
Qed.

Lemma sum_totals_rows (categories : gmap string string) (l : list Expense.t)
    (grouped : TripsTab.group_entries) :
  entries_inv categories l grouped → (sum_totals grouped.*2 == sum_amounts l)%Q.
Proof.
  intros Hinv. rewrite <- (sum_amounts_perm _ _ (einv_rows _ _ _ Hinv)).
  assert (Hall : ∀ kg, kg ∈ grouped → (total kg.2 == sum_amounts (rows kg.2))%Q).
  { intros [k g] Hin.
    by destruct (entries_inv_group _ _ _ _ _ Hinv Hin) as (? & ? & _ & _ & _ & _ & _ & ?). }
  clear Hinv. induction grouped as [ | [k g] rest IH ]; [ reflexivity | ].
  cbn [fmap list_fmap snd mjoin list_join].
  change (sum_totals (g :: rest.*2)) with (total g + sum_totals rest.*2)%Q.
  rewrite sum_amounts_app, IH, (Hall (k, g)) by (left || (intros kg Hkg; apply Hall; by right)).
  reflexivity.
Qed.

(** *** Sorting by total *)

Lemma insert_by_total_perm (g : group) (l : list group) :
  TripsTab.insert_by_total g l ≡ₚ g :: l.
Proof.
  induction l as [ | h t IH ]; [ done | ]. cbn [TripsTab.insert_by_total].
  destruct (Qle_bool (total h) (total g)); [ done | ]. rewrite IH. apply perm_swap.
Qed.

Lemma sort_by_total_perm (l : list group) : TripsTab.sort_by_total l ≡ₚ l.
Proof.
  induction l as [ | g l IH ]; [ done | ].
  cbn [TripsTab.sort_by_total foldr]. fold (TripsTab.sort_by_total l).
  by rewrite insert_by_total_perm, IH.
Qed.

Lemma insert_by_total_sorted (g : group) (l : list group) :
  Sorted total_ge l → Sorted total_ge (TripsTab.insert_by_total g l).
Proof.
  induction l as [ | h t IH ]; intros Hs; cbn [TripsTab.insert_by_total].
  - by repeat constructor.
  - destruct (Qle_bool (total h) (total g)) eqn:E.
    + constructor; [ done | ]. constructor. by apply Qle_bool_iff.
    + apply Sorted_inv in Hs as [Hs Hh]. constructor; [ by apply IH | ].
      assert (Hgh : total_ge h g).
      { unfold total_ge. apply Qlt_le_weak, Qnot_le_lt. intros H.
        apply Qle_bool_iff in H. congruence. }
      destruct t as [ | h' t ]; cbn [TripsTab.insert_by_total]; [ by constructor | ].
      destruct (Qle_bool (total h') (total g)); constructor; [ done | ].
      by apply HdRel_inv in Hh.
Qed.

Lemma sort_by_total_sorted (l : list group) : StronglySorted total_ge (TripsTab.sort_by_total l).
Proof.
  apply Sorted_StronglySorted.
  - intros a b c Hab Hbc. unfold total_ge in *. by apply (Qle_trans _ (total b)).
  - induction l as [ | g l IH ]; [ constructor | ].
    cbn [TripsTab.sort_by_total foldr]. fold (TripsTab.sort_by_total l).
    by apply insert_by_total_sorted.
Qed.

Lemma sum_totals_perm (l1 l2 : list group) : l1 ≡ₚ l2 → (sum_totals l1 == sum_totals l2)%Q.
Proof.
  induction 1 as [ | x l l' _ IH | x y l | l l' l'' _ IH1 _ IH2 ].
  - reflexivity.
  - change (total x + sum_totals l == total x + sum_totals l')%Q. by rewrite IH.
  - change (total y + (total x + sum_totals l) == total x + (total y + sum_totals l))%Q. ring.
  - by rewrite IH1.
Qed.

(** X10. [groupExpensesByCategory] on any rows: the groups come sorted by
    total, the largest first; every row is in exactly one group (the rows of
    the groups are a rearrangement of the input); no two groups have the
    same key; every group has at least one row, holds in their order exactly
    the rows filed under the key of its first row, takes its id and name from
    that row, and its total is the sum of the amounts of its rows; and the
    totals of the groups add up to the sum of all amounts. *)
Theorem trip_card_groups (categories : gmap string string) (expenses : list Expense.t) :
  let groups := TripsTab.groupExpensesByCategory categories expenses in
  StronglySorted total_ge groups ∧
  mjoin (rows <$> groups) ≡ₚ expenses ∧
  NoDup ((λ g, entry_key categories <$> head (rows g)) <$> groups) ∧
  (∀ g, g ∈ groups →
     ∃ r0 rest, rows g = r0 :: rest ∧
       rows g = rows_under categories (entry_key categories r0) expenses ∧
       g_id g = group_key r0 ∧ g_name g = group_name categories r0 ∧
       (total g == sum_amounts (rows g))%Q) ∧
  (sum_totals groups == sum_amounts expenses)%Q.
Proof.
  intros groups. unfold TripsTab.groupExpensesByCategory in groups.
  set (grouped := foldl (TripsTab.group_step categories) [] expenses) in *.
  pose proof (entries_inv_all categories expenses) as Hinv. fold grouped in Hinv.
  pose proof (sort_by_total_perm grouped.*2) as Hperm. fold groups in Hperm.
  assert (Hg : ∀ g, g ∈ groups → ∃ k, (k, g) ∈ grouped).
  { intros g Hin. rewrite Hperm in Hin. apply list_elem_of_fmap in Hin as ([k g'] & -> & Hin).
    by exists k. }
  split; [ apply sort_by_total_sorted | ].
  split; [ rewrite <- (einv_rows _ _ _ Hinv); by rewrite Hperm | ].
  split; [ | split ].
  - rewrite Hperm.
    assert (E : (λ g, entry_key categories <$> head (rows g)) <$> grouped.*2
                = Some <$> grouped.*1).
    { assert (Hall : ∀ kg, kg ∈ grouped → entry_key categories <$> head (rows kg.2) = Some kg.1).
      { intros [k g] Hin. cbn [fst snd].
        destruct (entries_inv_group _ _ _ _ _ Hinv Hin) as (r0 & rest & E1 & _ & E2 & _).
        by rewrite E1, E2. }
      clear -Hall. induction grouped as [ | [k g] rest IH ]; [ done | ].
      cbn [fmap list_fmap fst snd]. pose proof (Hall (k, g) ltac:(left)) as Hkg.
      cbn [fst snd] in Hkg. rewrite Hkg. f_equal.
      apply IH. intros kg' Hkg'. apply Hall. by right. }
    rewrite E. apply (NoDup_fmap_2 Some), (einv_keys _ _ _ Hinv).
  - intros g Hin. destruct (Hg g Hin) as (k & Hk).
    destruct (entries_inv_group _ _ _ _ _ Hinv Hk) as (r0 & rest & E1 & E2 & -> & E3 & E4 & E5).
    by exists r0, rest.
  - rewrite (sum_totals_perm _ _ Hperm). by apply (sum_totals_rows categories).
Qed.

(** ** Selecting rows *)

Lemma foldl_unselect (l : list Expense.t) (prev : selection) :
  foldl (λ newSet r, newSet ∖ {[ Expense.id r ]}) prev l
  = prev ∖ list_to_set (Expense.id <$> l).
Proof.
  revert prev. induction l as [ | r l IH ]; intros prev; cbn [foldl fmap list_fmap list_to_set].
  - apply set_eq. intros x. rewrite elem_of_difference, elem_of_empty. tauto.
  - rewrite IH. apply set_eq. intros x.
    rewrite !elem_of_difference, elem_of_union, elem_of_singleton. tauto.
Qed.

Lemma foldl_select (l : list Expense.t) (prev : selection) :
  foldl (λ newSet r, newSet ∪ {[ Expense.id r ]}) prev l
  = prev ∪ list_to_set (Expense.id <$> l).
Proof.
  revert prev. induction l as [ | r l IH ]; intros prev; cbn [foldl fmap list_fmap list_to_set].
  - apply set_eq. intros x. rewrite elem_of_union, elem_of_empty. tauto.
  - rewrite IH. apply set_eq. intros x. rewrite !elem_of_union, elem_of_singleton. tauto.
Qed.

Lemma all_selected_spec (l : list Expense.t) (prev : selection)
    (dec : ∀ r, Decision (Expense.id r ∈ prev)) :
  forallb (λ r, @bool_decide _ (dec r)) l = true ↔ ∀ r, r ∈ l → Expense.id r ∈ prev.
Proof.
  rewrite forallb_forall. split.
  - intros H r Hr. apply list_elem_of_In in Hr.
    apply (@bool_decide_eq_true_1 _ (dec r)), H, Hr.
  - intros H r Hr. apply (@bool_decide_eq_true_2 _ (dec r)), H.
    by apply list_elem_of_In.
Qed.

(** The selection after the button of a group, for the rows of the group:
    none of them is selected when all were, all of them otherwise; the
    other ids are as before. *)
Lemma select_all_rows (l : list Expense.t) (prev : selection) :
  let next := TripsTab.selectAllInCategory l prev in
  ((∀ r, r ∈ l → Expense.id r ∈ prev) → ∀ r, r ∈ l → Expense.id r ∉ next) ∧
  (¬ (∀ r, r ∈ l → Expense.id r ∈ prev) → ∀ r, r ∈ l → Expense.id r ∈ next) ∧
  (∀ x, (∀ r, r ∈ l → Expense.id r ≠ x) → x ∈ next ↔ x ∈ prev).
Proof.
  intros next. subst next. unfold TripsTab.selectAllInCategory.
  destruct (forallb _ l) eqn:E.
  - pose proof (proj1 (all_selected_spec l prev _) E) as Hall. rewrite foldl_unselect.
    split; [ | split ].
    + intros _ r Hr. apply not_elem_of_difference. right.
      apply elem_of_list_to_set, list_elem_of_fmap. by exists r.
    + intros H. by destruct H.
    + intros x Hx. rewrite elem_of_difference, elem_of_list_to_set, list_elem_of_fmap.
      split; [ by intros [? _] | ]. intros Hin. split; [ done | ].
      intros (r & -> & Hr). by apply (Hx r).
  - assert (Hn : ¬ (∀ r, r ∈ l → Expense.id r ∈ prev)).
    { intros H. pose proof (proj2 (all_selected_spec l prev _) H) as H'.
      discriminate (eq_trans (eq_sym E) H'). }
    rewrite foldl_select. split; [ | split ].
    + intros H. by destruct Hn.
    + intros _ r Hr. apply elem_of_union. right.
      apply elem_of_list_to_set, list_elem_of_fmap. by exists r.
    + intros x Hx. rewrite elem_of_union, elem_of_list_to_set, list_elem_of_fmap.
      split; [ | by left ]. intros [Hin | (r & -> & Hr)]; [ done | ]. by destruct (Hx r).
Qed.

(** Toggling an id flips its membership and nothing else. *)
Lemma toggleSelect_spec (id : jsv string) (prev : selection) :
  toggleSelect id (toggleSelect id prev) = prev ∧
  (id ∈ toggleSelect id prev ↔ id ∉ prev) ∧
  (∀ x, x ≠ id → x ∈ toggleSelect id prev ↔ x ∈ prev) ∧
  TripsTab.toggleSelectExpense id prev = toggleSelect id prev.
Proof.
  unfold toggleSelect, TripsTab.toggleSelectExpense.
  destruct (decide (id ∈ prev)) as [Hin | Hin].
  - rewrite (bool_decide_eq_true_2 (id ∈ prev)) by done.
    assert (Hout : id ∉ prev ∖ {[ id ]}).
    { rewrite elem_of_difference, elem_of_singleton. tauto. }
    rewrite bool_decide_eq_false_2 by done.
    split; [ | split; [ | split ] ]; [ | tauto | | done ].
    + apply set_eq. intros x.
      rewrite elem_of_union, elem_of_difference, elem_of_singleton.
      destruct (decide (x = id)) as [-> | Hx]; tauto.
    + intros x Hx. rewrite elem_of_difference, elem_of_singleton. tauto.
  - rewrite (bool_decide_eq_false_2 (id ∈ prev)) by done.
    assert (Hnow : id ∈ prev ∪ {[ id ]}).
    { rewrite elem_of_union, elem_of_singleton. tauto. }
    rewrite bool_decide_eq_true_2 by done.
    split; [ | split; [ | split ] ]; [ | tauto | | done ].
    + apply set_eq. intros x.
      rewrite elem_of_difference, elem_of_union, elem_of_singleton.
      destruct (decide (x = id)) as [-> | Hx]; tauto.
    + intros x Hx. rewrite elem_of_union, elem_of_singleton. tauto.
Qed.

(** X11. [toggleSelect] flips the membership of one id and of no other, so
    that toggling twice gives the selection back; [toggleSelectExpense] of
    the trips tab is the same function. *)
Theorem toggle_select_flips_one (id : jsv string) (prev : selection) :
  toggleSelect id (toggleSelect id prev) = prev ∧
  (id ∈ toggleSelect id prev ↔ id ∉ prev) ∧
  (∀ x, x ≠ id → x ∈ toggleSelect id prev ↔ x ∈ prev) ∧
  TripsTab.toggleSelectExpense id prev = toggleSelect id prev.
Proof. exact (toggleSelect_spec id prev). Qed.

(** X12. After [selectAllInGroup] the rows of the group are all selected,
    or none is: none when they all were selected before, all otherwise. Ids
    of rows outside the group keep their state, an unknown group or a group
    without rows changes nothing, and [selectAllInCategory] of the trips tab
    does the same on the rows it is given. *)
Theorem select_all_leaves_group_uniform (grouped : gmap string group) (groupId : string)
    (prev : selection) :
  let next := selectAllInGroup grouped groupId prev in
  (grouped !! groupId = None → next = prev) ∧
  (∀ g, grouped !! groupId = Some g →
     next = TripsTab.selectAllInCategory (rows g) prev ∧
     ((∀ r, r ∈ rows g → Expense.id r ∈ prev) → ∀ r, r ∈ rows g → Expense.id r ∉ next) ∧
     (¬ (∀ r, r ∈ rows g → Expense.id r ∈ prev) → ∀ r, r ∈ rows g → Expense.id r ∈ next) ∧
     (∀ x, (∀ r, r ∈ rows g → Expense.id r ≠ x) → x ∈ next ↔ x ∈ prev) ∧
     (rows g = [] → next = prev)).
Proof.
  intros next. subst next. unfold selectAllInGroup. split.
  - by intros ->.
  - intros g ->. fold (TripsTab.selectAllInCategory (rows g) prev).
    destruct (select_all_rows (rows g) prev) as (H1 & H2 & H3).
    split; [ done | ]. split; [ exact H1 | ]. split; [ exact H2 | ]. split; [ exact H3 | ].
    intros E. unfold TripsTab.selectAllInCategory. by rewrite E.
Qed.

(** ** Deleting rows *)

Lemma sum_amounts_split (keep : Expense.t → bool) (l : list Expense.t) :
  (sum_amounts l
   == sum_amounts (List.filter keep l) + sum_amounts (List.filter (λ r, negb (keep r)) l))%Q.
Proof.
  induction l as [ | r l IH ]; [ reflexivity | ].
  change (sum_amounts (r :: l)) with (num_or0 (Expense.amount r) + sum_amounts l)%Q.
  cbn [List.filter]. destruct (keep r); cbn [negb].
  - change (sum_amounts (r :: List.filter keep l))
      with (num_or0 (Expense.amount r) + sum_amounts (List.filter keep l))%Q.
    rewrite IH. ring.
  - change (sum_amounts (r :: List.filter (λ r, negb (keep r)) l))
      with (num_or0 (Expense.amount r) + sum_amounts (List.filter (λ r, negb (keep r)) l))%Q.
    rewrite IH. ring.
Qed.

Lemma filter_comm {A} (f g : A → bool) (l : list A) :
  List.filter f (List.filter g l) = List.filter g (List.filter f l).
Proof. rewrite !filter_twice. apply filter_same. intros x _. apply andb_comm. Qed.

(** The grand total after rows are taken out of the collection: it drops
    by the amounts of the plain rows taken out. *)
Lemma totalSpent_without (keep : Expense.t → bool) (l : list Expense.t)
    (categories categories' : list Category.t) :
  (totalSpent (compute_grouped (List.filter keep l) categories')
   == totalSpent (compute_grouped l categories)
      - sum_amounts (List.filter is_plain (List.filter (λ r, negb (keep r)) l)))%Q.
Proof.
  rewrite !totalSpent_collection.
  rewrite (sum_amounts_split keep (List.filter is_plain l)).
  rewrite (filter_comm keep is_plain), (filter_comm (λ r, negb (keep r)) is_plain). ring.
Qed.

Lemma totalSpent_removed (gone : Expense.t → bool) (l : list Expense.t)
    (categories categories' : list Category.t) :
  (totalSpent (compute_grouped (List.filter (λ r, negb (gone r)) l) categories')
   == totalSpent (compute_grouped l categories)
      - sum_amounts (List.filter is_plain (List.filter gone l)))%Q.
Proof.
  rewrite (totalSpent_without (λ r, negb (gone r)) l categories categories').
  assert (E : List.filter (λ r, negb (negb (gone r))) l = List.filter gone l).
  { apply filter_same. intros r _. apply negb_involutive. }
  cbv beta. rewrite E. reflexivity.
Qed.

(** X13. [deleteMultiple] does nothing when nothing is selected, when the
    user declines, or when the store call fails. Otherwise the selection is
    emptied, the collection loses exactly the rows whose id was selected, the
    table loses exactly the rows with a selected id that is a value, and the
    grand total drops by the amounts of the selected rows that are neither
    lent nor borrowed. [deleteSelectedExpenses] of the trips tab changes the
    table and the selection in the same way. *)
Theorem delete_multiple_removes_selected (confirmed error : bool) (st : listing) :
  let st' := deleteMultiple confirmed error st in
  let selected r := bool_decide (Expense.id r ∈ l_selected st) in
  (size (l_selected st) = 0%nat ∨ confirmed = false ∨ error = true → st' = st) ∧
  (size (l_selected st) ≠ 0%nat → confirmed = true → error = false →
     l_selected st' = ∅ ∧
     l_expenses st' = List.filter (λ r, negb (selected r)) (l_expenses st) ∧
     (∀ r, r ∈ l_expenses st' ↔ r ∈ l_expenses st ∧ Expense.id r ∉ l_selected st) ∧
     (∀ r, r ∈ l_table st' ↔
           r ∈ l_table st ∧ ¬ (∃ x, Expense.id r = Val x ∧ Val x ∈ l_selected st)) ∧
     (∀ categories categories',
        (totalSpent (compute_grouped (l_expenses st') categories')
         == totalSpent (compute_grouped (l_expenses st) categories)
            - sum_amounts (List.filter is_plain (List.filter selected (l_expenses st))))%Q) ∧
     TripsTab.deleteSelectedExpenses confirmed error (l_table st) (l_selected st)
       = (l_table st', l_selected st')).
Proof.
  intros st' selected. subst st'. unfold deleteMultiple, TripsTab.deleteSelectedExpenses. split.
  - intros [H | [-> | ->]].
    + by rewrite bool_decide_eq_true_2.
    + by destruct (bool_decide _).
    + by destruct (bool_decide _), confirmed.
  - intros Hsize -> ->. rewrite !bool_decide_eq_false_2 by done.
    cbn [negb l_selected l_expenses l_table].
    split; [ done | ]. split; [ done | ]. split; [ | split; [ | split ] ].
    + intros r. rewrite list_elem_of_In, List.filter_In, <- list_elem_of_In, negb_true_iff.
      apply and_iff_compat_l. split.
      * intros H Hin. by rewrite bool_decide_eq_true_2 in H.
      * intros H. by apply bool_decide_eq_false_2.
    + intros r. rewrite list_elem_of_In, List.filter_In, <- list_elem_of_In, negb_true_iff.
      apply and_iff_compat_l. unfold sql_in. destruct (Expense.id r) as [ | | x ] eqn:E.
      * split; [ by intros _ (x & ? & _) | done ].
      * split; [ by intros _ (x & ? & _) | done ].
      * split.
        -- intros H (y & Hy & Hin). simplify_eq. by rewrite bool_decide_eq_true_2 in H.
        -- intros H. apply bool_decide_eq_false_2. intros Hin. apply H. by exists x.
    + intros categories categories'.
      exact (totalSpent_removed selected (l_expenses st) categories categories').
    + done.
Qed.

Lemma delete_multiple_removes_selected_tea :
  l_selected (deleteMultiple true false
                (mk_listing [tea midnight_pg] [tea midnight_pg] {[ Val "e1" ]})) = ∅.
Proof.
  refine (proj1 (proj2 (delete_multiple_removes_selected true false
                          (mk_listing [tea midnight_pg] [tea midnight_pg] {[ Val "e1" ]}))
                   _ _ _)); evaluated.
Defined.

(** X14. [deleteExpense] does nothing when the user declines or the store
    call fails. Otherwise the collection loses exactly the rows with the id
    of the row, that id is no longer selected while the other ids keep their
    state, the table holds no row of that id, and the grand total drops by
    the amounts of the removed rows that are neither lent nor borrowed. *)
Theorem delete_expense_removes_and_deselects (row : Expense.t) (st : listing) :
  let st' := deleteExpense true false row st in
  (∀ confirmed error, confirmed = false ∨ error = true →
     deleteExpense confirmed error row st = st) ∧
  (∀ r, r ∈ l_expenses st' ↔
        r ∈ l_expenses st ∧ strict_eq (Expense.id r) (Expense.id row) = false) ∧
  (Expense.id row ∉ l_selected st') ∧
  (∀ x, x ≠ Expense.id row → x ∈ l_selected st' ↔ x ∈ l_selected st) ∧
  (∀ r x, r ∈ l_table st' → Expense.id row = Val x → Expense.id r ≠ Val x) ∧
  (∀ categories categories',
     (totalSpent (compute_grouped (l_expenses st') categories')
      == totalSpent (compute_grouped (l_expenses st) categories)
         - sum_amounts (List.filter is_plain
             (List.filter (λ r, strict_eq (Expense.id r) (Expense.id row)) (l_expenses st))))%Q).
Proof.
  intros st'. subst st'. unfold deleteExpense.
  cbn [negb l_selected l_expenses l_table].
  destruct (toggleSelect_spec (Expense.id row) (l_selected st)) as (_ & Hflip & Hrest & _).
  split; [ | split; [ | split; [ | split; [ | split ] ] ] ].
  - intros confirmed error [-> | ->]; [ done | by destruct confirmed ].
  - intros r. rewrite list_elem_of_In, List.filter_In, <- list_elem_of_In, negb_true_iff. done.
  - destruct (decide (Expense.id row ∈ l_selected st)) as [Hin | Hin].
    + rewrite bool_decide_eq_true_2 by done. rewrite Hflip. tauto.
    + by rewrite bool_decide_eq_false_2.
  - intros x Hx. destruct (decide (Expense.id row ∈ l_selected st)) as [Hin | Hin].
    + rewrite bool_decide_eq_true_2 by done. by apply Hrest.
    + by rewrite bool_decide_eq_false_2.
  - intros r x Hr Hx E. apply list_elem_of_In, List.filter_In in Hr as [_ Hr].
    rewrite Hx, E in Hr. cbn [Store.sql_eq] in Hr. by rewrite bool_decide_eq_true_2 in Hr.
  - intros categories categories'.
    exact (totalSpent_removed (λ r, strict_eq (Expense.id r) (Expense.id row))
             (l_expenses st) categories categories').
Qed.

(** ** The cards of the dashboard *)

Lemma totalSpent_values (grouped : gmap string group) :
  (totalSpent grouped == sum_totals (map_to_list grouped).*2)%Q.
Proof.
  unfold totalSpent. rewrite map_fold_foldr.
  induction (map_to_list grouped) as [ | [k g] l IH ]; [ reflexivity | ].
  cbn [foldr fmap list_fmap snd uncurry]. cbn [foldr fmap list_fmap snd uncurry] in IH.
  change (sum_totals (g :: l.*2)) with (total g + sum_totals l.*2)%Q.
  rewrite IH, or0_eq. ring.
Qed.

Lemma sum_totals_cards (l : list group) :
  (sum_totals l <= sum_totals (List.filter (λ g, Qltb 0 (or0 (total g))) l))%Q ∧
  ((∀ g, g ∈ l → 0 <= total g)%Q →
   (sum_totals l == sum_totals (List.filter (λ g, Qltb 0 (or0 (total g))) l))%Q).
Proof.
  induction l as [ | g l [IH1 IH2] ].
  - split; [ apply Qle_refl | reflexivity ].
  - cbn [List.filter]. change (sum_totals (g :: l)) with (total g + sum_totals l)%Q.
    destruct (Qltb 0 (or0 (total g))) eqn:E.
    + change (sum_totals (g :: ?x)) with (total g + sum_totals x)%Q. split.
      * apply Qplus_le_r, IH1.
      * intros H. rewrite IH2; [ reflexivity | ]. intros g' Hg'. apply H. by right.
    + assert (Hle : (total g <= 0)%Q).
      { apply Qnot_lt_le. intros Hlt. rewrite <- (or0_eq (total g)) in Hlt.
        apply Qltb_true in Hlt. by rewrite Hlt in E. }
      split.
      * rewrite <- (Qplus_0_l (sum_totals (List.filter _ l))).
        by apply Qplus_le_compat.
      * intros H. assert (E0 : (total g == 0)%Q).
        { apply Qle_antisym; [ done | apply H; left ]. }
        rewrite E0, Qplus_0_l. apply IH2. intros g' Hg'. apply H. by right.
Qed.

Lemma sum_amounts_nonneg (l : list Expense.t) :
  (∀ r, r ∈ l → 0 <= num_or0 (Expense.amount r))%Q → (0 <= sum_amounts l)%Q.
Proof.
  induction l as [ | r l IH ]; intros H; [ apply Qle_refl | ].
  change (sum_amounts (r :: l)) with (num_or0 (Expense.amount r) + sum_amounts l)%Q.
  rewrite <- (Qplus_0_l 0). apply Qplus_le_compat; [ apply H; left | ].
  apply IH. intros r' Hr'. apply H. by right.
Qed.

Lemma NoDup_fmap_filter {A B} (f : A → B) (p : A → bool) (l : list A) :
  NoDup (f <$> l) → NoDup (f <$> List.filter p l).
Proof.
  induction l as [ | x l IH ]; [ done | ]. cbn [fmap list_fmap List.filter].
  intros H. apply NoDup_cons in H as [Hx Hl]. destruct (p x); [ | by apply IH ].
  cbn [fmap list_fmap]. apply NoDup_cons. split; [ | by apply IH ].
  intros Hin. apply Hx. apply list_elem_of_fmap in Hin as (y & -> & Hy).
  apply list_elem_of_fmap. exists y. split; [ done | ].
  apply list_elem_of_In, List.filter_In in Hy as [Hy _]. by apply list_elem_of_In.
Qed.

Lemma elem_of_values (grouped : gmap string group) (g : group) :
  g ∈ (map_to_list grouped).*2 ↔ ∃ k, grouped !! k = Some g.
Proof.
  rewrite list_elem_of_fmap. split.
  - intros ([k g'] & -> & H). exists k. by apply elem_of_map_to_list in H.
  - intros (k & H). exists (k, g). split; [ done | ]. by apply elem_of_map_to_list.
Qed.

(** X15. The cards of the dashboard are the groups whose total is
    positive. Every card has a row, which is a row of the collection that is
    neither lent nor borrowed; no two cards have the same id; the totals of
    the cards are at least the grand total, and they are the grand total
    when no such row has a negative amount. *)
Theorem dashboard_cards (expenses : list Expense.t) (categories : list Category.t) :
  let grouped := compute_grouped expenses categories in
  (∀ g, g ∈ cards grouped ↔ ∃ k, grouped !! k = Some g ∧ (0 < total g)%Q) ∧
  (∀ g, g ∈ cards grouped → ∃ r, r ∈ rows g ∧ r ∈ expenses ∧ is_plain r = true) ∧
  NoDup (g_id <$> cards grouped) ∧
  (totalSpent grouped <= sum_totals (cards grouped))%Q ∧
  ((∀ r, r ∈ expenses → is_plain r = true → 0 <= num_or0 (Expense.amount r))%Q →
   (totalSpent grouped == sum_totals (cards grouped))%Q).
Proof.
  intros grouped.
  destruct (compute_grouped_inv expenses categories) as [Hrows Htot Hid _ _].
  fold grouped in Hrows, Htot, Hid.
  assert (Hcard : ∀ g, g ∈ cards grouped ↔ ∃ k, grouped !! k = Some g ∧ (0 < total g)%Q).
  { intros g. unfold cards.
    rewrite list_elem_of_In, List.filter_In, <- list_elem_of_In, elem_of_values.
    rewrite Qltb_true, or0_eq. split.
    - intros [(k & Hk) Hpos]. by exists k.
    - intros (k & Hk & Hpos). split; [ by exists k | done ]. }
  split; [ exact Hcard | ]. split; [ | split; [ | split ] ].
  - intros g Hg. apply Hcard in Hg as (k & Hk & Hpos).
    destruct (rows g) as [ | r rest ] eqn:E.
    + pose proof (Htot k g Hk) as Ht. rewrite E in Ht.
      change (sum_amounts []) with 0%Q in Ht. rewrite Ht in Hpos. by apply Qlt_irrefl in Hpos.
    + exists r. split; [ left | ].
      assert (Hin : r ∈ rows g) by (rewrite E; left).
      rewrite (Hrows k g Hk) in Hin.
      apply list_elem_of_In, List.filter_In in Hin as [Hin _].
      apply List.filter_In in Hin as [Hin Hp]. by apply list_elem_of_In in Hin.
  - unfold cards. apply NoDup_fmap_filter.
    assert (E : g_id <$> (map_to_list grouped).*2 = (map_to_list grouped).*1).
    { assert (H : ∀ kg, kg ∈ map_to_list grouped → g_id kg.2 = kg.1).
      { intros [k g] H. apply elem_of_map_to_list in H. by apply Hid. }
      induction (map_to_list grouped) as [ | kg l IH ]; [ done | ].
      cbn [fmap list_fmap]. f_equal; [ apply H; left | ].
      apply IH. intros kg' Hkg'. apply H. by right. }
    rewrite E. apply NoDup_fst_map_to_list.
  - rewrite totalSpent_values. apply sum_totals_cards.
  - intros Hpos. rewrite totalSpent_values. apply sum_totals_cards.
    intros g Hg. apply elem_of_values in Hg as (k & Hk).
    rewrite (Htot k g Hk). apply sum_amounts_nonneg.
    intros r Hr. rewrite (Hrows k g Hk) in Hr.
    apply list_elem_of_In, List.filter_In in Hr as [Hr _].
    apply List.filter_In in Hr as [Hr Hp]. apply Hpos; [ by apply list_elem_of_In | done ].
Qed.

(** ** Deleting a category: the totals *)

Lemma sum_amounts_cons (r : Expense.t) (l : list Expense.t) :
  sum_amounts (r :: l) = (num_or0 (Expense.amount r) + sum_amounts l)%Q.
Proof. reflexivity. Qed.

Lemma recategorize_plain (categoryId : string) (other : jsv string) (e : Expense.t) :
  is_plain (recategorize categoryId other e) = is_plain e ∧
  is_lended (recategorize categoryId other e) = is_lended e ∧
  is_borrowed (recategorize categoryId other e) = is_borrowed e ∧
  Expense.amount (recategorize categoryId other e) = Expense.amount e.
Proof. unfold recategorize. by destruct (strict_eq _ _). Qed.

Lemma sum_amounts_recategorized (p : Expense.t → bool) (categoryId : string)
    (other : jsv string) (l : list Expense.t) :
  (∀ e, p (recategorize categoryId other e) = p e) →
  sum_amounts (List.filter p (recategorize categoryId other <$> l))
  = sum_amounts (List.filter p l).
Proof.
  intros Hp. induction l as [ | e l IH ]; [ done | ].
  cbn [fmap list_fmap List.filter]. rewrite Hp. destruct (p e); [ | exact IH ].
  rewrite !sum_amounts_cons.
  cbn [fmap list_fmap] in IH. rewrite IH.
  by destruct (recategorize_plain categoryId other e) as (_ & _ & _ & ->).
Qed.

Lemma filter_plain_recategorized (categoryId : string) (other : jsv string)
    (l : list Expense.t) :
  List.filter is_plain (recategorize categoryId other <$> l)
  = recategorize categoryId other <$> List.filter is_plain l.
Proof.
  induction l as [ | e l IH ]; [ done | ]. cbn [fmap list_fmap List.filter].
  destruct (recategorize_plain categoryId other e) as (-> & _).
  destruct (is_plain e); [ | exact IH ]. cbn [fmap list_fmap]. f_equal. exact IH.
Qed.

Lemma group_total_sum (expenses : list Expense.t) (categories : list Category.t) (k : string) :
  (group_total (compute_grouped expenses categories) k
   == sum_amounts (List.filter (has_key k) (List.filter is_plain expenses)))%Q.
Proof.
  destruct (compute_grouped_inv expenses categories) as [Hrows Htot _ Hdom _].
  unfold group_total.
  destruct (compute_grouped expenses categories !! k) as [g | ] eqn:E; cbn [from_option].
  - rewrite (Htot k g E). by rewrite (Hrows k g E).
  - rewrite filter_none; [ reflexivity | ].
    intros r Hr. unfold has_key. case_bool_decide as Hk; [ | done ].
    apply list_elem_of_In, Hdom in Hr. rewrite Hk, E in Hr. by destruct Hr.
Qed.

Lemma group_key_Val (e : Expense.t) (c : string) :
  c ≠ "" → c ≠ "uncategorized" → group_key e = c ↔ Expense.category_id e = Val c.
Proof.
  intros H1 H2. unfold group_key. destruct (Expense.category_id e) as [ | | x ].
  - split; [ by intros <- | done ].
  - split; [ by intros <- | done ].
  - cbn [truthy]. destruct (decide (x = "")) as [-> | Hx].
    + rewrite bool_decide_eq_true_2 by done. cbn [negb].
      split; [ by intros <- | intros [= <-]; done ].
    + rewrite bool_decide_eq_false_2 by done. cbn [negb]. split; congruence.
Qed.

Section Moved.

Context (categoryId dest : string) (other : jsv string).
Hypothesis Hdest : ∀ e, group_key (with_category other e) = dest.
Hypothesis Hne : dest ≠ categoryId.
Hypothesis Hc1 : categoryId ≠ "".
Hypothesis Hc2 : categoryId ≠ "uncategorized".

Lemma has_key_recategorized (e : Expense.t) (k : string) :
  has_key k (recategorize categoryId other e)
  = if has_key categoryId e then bool_decide (k = dest) else has_key k e.
Proof.
  unfold recategorize, has_key.
  destruct (strict_eq (Expense.category_id e) (Val categoryId)) eqn:E.
  - apply strict_eq_Val_true in E. rewrite (bool_decide_eq_true_2 (group_key e = categoryId)).
    + rewrite Hdest. apply bool_decide_ext. split; congruence.
    + by apply group_key_Val.
  - rewrite (bool_decide_eq_false_2 (group_key e = categoryId)); [ done | ].
    intros H. apply group_key_Val in H; [ | done | done ].
    apply strict_eq_Val_true in H. congruence.
Qed.

Lemma moved_sum (l : list Expense.t) (k : string) :
  (sum_amounts (List.filter (has_key k) (recategorize categoryId other <$> l))
   == if bool_decide (k = categoryId) then 0
      else if bool_decide (k = dest)
           then sum_amounts (List.filter (has_key dest) l)
                + sum_amounts (List.filter (has_key categoryId) l)
           else sum_amounts (List.filter (has_key k) l))%Q.
Proof.
  induction l as [ | e l IH ].
  - cbn. by repeat case_bool_decide.
  - cbn [fmap list_fmap List.filter]. rewrite has_key_recategorized.
    destruct (recategorize_plain categoryId other e) as (_ & _ & _ & Ha).
    cbn [fmap list_fmap] in IH.
    destruct (decide (k = categoryId)) as [-> | Hk].
    + rewrite (bool_decide_eq_true_2 (categoryId = categoryId)) in IH |- * by done.
      rewrite (bool_decide_eq_false_2 (categoryId = dest)) by done.
      destruct (has_key categoryId e); exact IH.
    + rewrite (bool_decide_eq_false_2 (k = categoryId)) in IH |- * by done.
      destruct (decide (k = dest)) as [-> | Hd].
      * rewrite (bool_decide_eq_true_2 (dest = dest)) in IH |- * by done.
        destruct (has_key categoryId e) eqn:E1.
        -- assert (E2 : has_key dest e = false).
           { unfold has_key in E1 |- *. apply bool_decide_eq_true_1 in E1.
             apply bool_decide_eq_false_2. congruence. }
           rewrite E2.
           rewrite !sum_amounts_cons.
           rewrite IH, Ha. ring.
        -- destruct (has_key dest e); [ | exact IH ].
           rewrite !sum_amounts_cons.
           rewrite IH, Ha. ring.
      * rewrite (bool_decide_eq_false_2 (k = dest)) in IH |- * by done.
        destruct (has_key categoryId e) eqn:E1.
        -- assert (E2 : has_key k e = false).
           { unfold has_key in E1 |- *. apply bool_decide_eq_true_1 in E1.
             apply bool_decide_eq_false_2. congruence. }
           rewrite E2. exact IH.
        -- destruct (has_key k e); [ | exact IH ].
           rewrite !sum_amounts_cons.
           rewrite IH, Ha. ring.
Qed.

End Moved.

Lemma deleteCategory_expenses (st : state) (categoryId : string) :
  expenses (deleteCategory st categoryId)
  = recategorize categoryId (otherCategoryId (categories st)) <$> expenses st.
Proof. reflexivity. Qed.

(** X16. Deleting a category on the dashboard keeps every row of the
    collection and changes none of the three figures: the grand total spent,
    the lent total and the borrowed total are what they were. *)
Theorem delete_category_keeps_grand_total (st : state) (categoryId : string) :
  let st' := deleteCategory st categoryId in
  let grouped := compute_grouped (expenses st) (categories st) in
  let grouped' := compute_grouped (expenses st') (categories st') in
  length (expenses st') = length (expenses st) ∧
  (totalSpent grouped' == totalSpent grouped)%Q ∧
  (lendedTotal (partition_kinds (expenses st')) == lendedTotal (partition_kinds (expenses st)))%Q ∧
  (borrowedTotal (partition_kinds (expenses st'))
     == borrowedTotal (partition_kinds (expenses st)))%Q.
Proof.
  intros st' grouped grouped'. subst st' grouped grouped'.
  rewrite deleteCategory_expenses. set (other := otherCategoryId _).
  split; [ by rewrite length_fmap | ]. split; [ | split ].
  - rewrite !totalSpent_collection.
    rewrite sum_amounts_recategorized; [ reflexivity | ].
    intros e. apply recategorize_plain.
  - unfold partition_kinds.
    destruct (partition_kinds_spec (recategorize categoryId other <$> expenses st)
                (mk_partition 0 0 [])) as (-> & _).
    destruct (partition_kinds_spec (expenses st) (mk_partition 0 0 [])) as (-> & _).
    rewrite sum_amounts_recategorized; [ reflexivity | ].
    intros e. apply recategorize_plain.
  - unfold partition_kinds.
    destruct (partition_kinds_spec (recategorize categoryId other <$> expenses st)
                (mk_partition 0 0 [])) as (_ & -> & _).
    destruct (partition_kinds_spec (expenses st) (mk_partition 0 0 [])) as (_ & -> & _).
    rewrite sum_amounts_recategorized; [ reflexivity | ].
    intros e. apply recategorize_plain.
Qed.

(** X17. Deleting a category moves its total: with [dest] the id of the
    fallback category, or [uncategorized] when there is none, a deleted
    category that is not the fallback itself, and ids that are neither empty
    nor the word [uncategorized], the group of the deleted category is left
    with nothing, the group [dest] holds what the two held together, and
    every other group holds what it held. *)
Theorem delete_category_moves_group_total (st : state) (categoryId dest : string) :
  let st' := deleteCategory st categoryId in
  let other := otherCategoryId (categories st) in
  let grouped := compute_grouped (expenses st) (categories st) in
  let grouped' := compute_grouped (expenses st') (categories st') in
  (other = Val dest ∧ dest ≠ "") ∨ (other = Null ∧ dest = "uncategorized") →
  dest ≠ categoryId → categoryId ≠ "" → categoryId ≠ "uncategorized" →
  (group_total grouped' categoryId == 0)%Q ∧
  (group_total grouped' dest == group_total grouped dest + group_total grouped categoryId)%Q ∧
  (∀ k, k ≠ categoryId → k ≠ dest → group_total grouped' k == group_total grouped k)%Q.
Proof.
  intros st' other grouped grouped' Hother Hne Hc1 Hc2.
  assert (Hdest : ∀ e, group_key (with_category other e) = dest).
  { intros e. unfold group_key. cbn [with_category Expense.category_id].
    destruct Hother as [[-> Hd] | [-> ->]]; [ | done ].
    cbn [truthy]. by rewrite bool_decide_eq_false_2. }
  assert (H : ∀ k, (group_total grouped' k
                    == if bool_decide (k = categoryId) then 0
                       else if bool_decide (k = dest)
                            then group_total grouped dest + group_total grouped categoryId
                            else group_total grouped k)%Q).
  { intros k. subst grouped grouped' st'.
    pose proof (moved_sum categoryId dest other Hdest Hne Hc1 Hc2
                  (List.filter is_plain (expenses st)) k) as Hm.
    rewrite <- filter_plain_recategorized in Hm.
    rewrite group_total_sum, deleteCategory_expenses. fold other. rewrite Hm.
    repeat case_bool_decide; rewrite ?group_total_sum; reflexivity. }
  split; [ | split ].
  - rewrite (H categoryId). by rewrite bool_decide_eq_true_2.
  - rewrite (H dest). rewrite bool_decide_eq_false_2 by done.
    by rewrite bool_decide_eq_true_2.
  - intros k Hk1 Hk2. rewrite (H k). by rewrite !bool_decide_eq_false_2.
Qed.

Lemma delete_category_moves_group_total_food :
  (group_total (compute_grouped (expenses (deleteCategory food_state "c1"))
                  (categories (deleteCategory food_state "c1"))) "c2"
   == group_total (compute_grouped five_rows food_other) "c2"
      + group_total (compute_grouped five_rows food_other) "c1")%Q.
Proof.
  refine (proj1 (proj2 (delete_category_moves_group_total food_state "c1" "c2" _ _ _ _)));
    [ left; split | | | ]; evaluated.
Defined.

(** ** Deleting the fallback category itself *)

Lemma idToName_absent (cs : list Category.t) (k : string) :
  (∀ c, c ∈ cs → Category.id c ≠ k) → idToName cs !! k = None.
Proof.
  unfold idToName. generalize (∅ : gmap string string) (lookup_empty (M := gmap string) (A := string) k).
  induction cs as [ | c cs IH ]; intros m Hm H; [ done | ]. cbn [foldl].
  apply IH.
  - rewrite lookup_insert_ne; [ done | ]. apply H. left.
  - intros c' Hc'. apply H. by right.
Qed.

Lemma add_row_named (names : gmap string string) (m : gmap string group) (row : Expense.t) :
  (∀ k g, m !! k = Some g → ∃ r, head (rows g) = Some r ∧ g_name g = group_name names r) →
  ∀ k g, add_row names m row !! k = Some g →
         ∃ r, head (rows g) = Some r ∧ g_name g = group_name names r.
Proof.
  intros H k g. unfold add_row. rewrite lookup_insert. case_decide as Hk; [ | by apply H ].
  intros [= <-]. cbn [rows g_name].
  destruct (m !! group_key row) as [g0 | ] eqn:E.
  - destruct (H _ _ E) as (r & Hr & Hn). exists r. split; [ | done ].
    destruct (rows g0); [ done | by cbn in Hr |- * ].
  - exists row. by cbn.
Qed.

Lemma rows_named (names : gmap string string) (l : list Expense.t) (m : gmap string group) :
  (∀ k g, m !! k = Some g → ∃ r, head (rows g) = Some r ∧ g_name g = group_name names r) →
  ∀ k g, foldl (add_row names) m l !! k = Some g →
         ∃ r, head (rows g) = Some r ∧ g_name g = group_name names r.
Proof.
  revert m. induction l as [ | row l IH ]; intros m H; [ exact H | ]. cbn [foldl].
  apply IH. by apply add_row_named.
Qed.

Lemma categories_named (names : gmap string string) (cs : list Category.t)
    (m : gmap string group) :
  (∀ k g r, m !! k = Some g → head (rows g) = Some r → g_name g = group_name names r) →
  ∀ k g r, foldl ensure_category m cs !! k = Some g → head (rows g) = Some r →
           g_name g = group_name names r.
Proof.
  revert m. induction cs as [ | c cs IH ]; intros m H; [ exact H | ]. cbn [foldl].
  apply IH. intros k g r. unfold ensure_category.
  destruct (m !! Category.id c) eqn:E; [ by apply H | ].
  rewrite lookup_insert. case_decide; [ | by apply H ]. by intros [= <-].
Qed.

(** A group with rows has the name its first row gives it. *)
Lemma compute_grouped_named (expenses : list Expense.t) (categories : list Category.t)
    (k : string) (g : group) (r : Expense.t) :
  compute_grouped expenses categories !! k = Some g → head (rows g) = Some r →
  g_name g = group_name (idToName categories) r.
Proof.
  unfold compute_grouped. apply categories_named. intros k' g' r' Hg' Hr'.
  destruct (rows_named (idToName categories) (catExpenses (partition_kinds expenses)) ∅)
    with (k := k') (g := g') as (r0 & Hr0 & Hn); [ | done | ].
  - intros ? ? H. by rewrite lookup_empty in H.
  - congruence.
Qed.

Lemma with_category_same (e : Expense.t) (c : jsv string) :
  Expense.category_id e = c → with_category c e = e.
Proof. intros <-. by destruct e. Qed.

Lemma recategorize_same (categoryId : string) (l : list Expense.t) :
  recategorize categoryId (Val categoryId) <$> l = l.
Proof.
  induction l as [ | e l IH ]; [ done | ]. cbn [fmap list_fmap]. f_equal; [ | exact IH ].
  unfold recategorize. destruct (strict_eq _ _) eqn:E; [ | done ].
  apply with_category_same. by apply strict_eq_Val_true.
Qed.

(** X18. Deleting the fallback category itself: the rows that referred to
    it are rewritten to the same id, so neither the collection nor the
    stored rows change, while the category leaves the list; each such row
    that is neither lent nor borrowed is then shown in a group named
    [Unknown]. *)
Theorem delete_fallback_category_leaves_unknown (st : state) (categoryId : string)
    (Hother : otherCategoryId (categories st) = Val categoryId)
    (Hc1 : categoryId ≠ "") (Hc2 : categoryId ≠ "uncategorized") :
  let st' := deleteCategory st categoryId in
  let grouped' := compute_grouped (expenses st') (categories st') in
  expenses st' = expenses st ∧
  db_expenses st' = db_expenses st ∧
  (∀ c, c ∈ categories st' → Category.id c ≠ categoryId) ∧
  (∀ r, r ∈ expenses st → is_plain r = true → Expense.category_id r = Val categoryId →
        ∃ g, grouped' !! categoryId = Some g ∧ r ∈ rows g ∧ g_name g = "Unknown").
Proof.
  intros st' grouped'.
  assert (He : expenses st' = expenses st).
  { subst st'. rewrite deleteCategory_expenses, Hother. apply recategorize_same. }
  assert (Hcat : ∀ c, c ∈ categories st' → Category.id c ≠ categoryId).
  { intros c Hc. subst st'. cbn [deleteCategory categories] in Hc.
    by apply elem_of_remove_category in Hc as [_ Hc]. }
  split; [ exact He | ]. split; [ | split; [ exact Hcat | ] ].
  - subst st'. unfold deleteCategory. cbn [db_expenses]. rewrite Hother.
    cbn [truthy]. rewrite bool_decide_eq_false_2 by done. cbn [negb].
    apply (recategorize_same categoryId).
  - intros r Hr Hp Hc. subst grouped'. rewrite He.
    destruct (compute_grouped_inv (expenses st) (categories st')) as [Hrows _ _ Hdom _].
    assert (Hk : group_key r = categoryId) by by apply group_key_Val.
    assert (Hin : r ∈ List.filter is_plain (expenses st)).
    { apply list_elem_of_In, List.filter_In. split; [ by apply list_elem_of_In | done ]. }
    destruct (Hdom r Hin) as [g Hg]. rewrite Hk in Hg. exists g. split; [ done | ].
    assert (Hrg : r ∈ rows g).
    { rewrite (Hrows _ _ Hg). apply list_elem_of_In, List.filter_In.
      split; [ by apply list_elem_of_In | ]. unfold has_key. by apply bool_decide_eq_true_2. }
    split; [ done | ].
    destruct (rows g) as [ | r0 rest ] eqn:E; [ by apply elem_of_nil in Hrg | ].
    rewrite (compute_grouped_named _ _ _ _ r0 Hg) by by rewrite E.
    assert (Hr0 : r0 ∈ rows g) by (rewrite E; left).
    rewrite (Hrows _ _ Hg) in Hr0. apply list_elem_of_In, List.filter_In in Hr0 as [_ Hr0].
    unfold has_key in Hr0. apply bool_decide_eq_true_1 in Hr0.
    apply group_key_Val in Hr0; [ | done | done ].
    unfold group_name. rewrite Hr0. cbn [truthy].
    rewrite bool_decide_eq_false_2 by done. cbn [negb].
    by rewrite (idToName_absent (categories st') categoryId Hcat).
Qed.

Lemma delete_fallback_category_leaves_unknown_food :
  otherCategoryId food_other = Val "c2" ∧
  ∀ c, c ∈ categories (deleteCategory food_state "c2") → Category.id c ≠ "c2".
Proof.
  split; [ reflexivity | ].
  refine (proj1 (proj2 (proj2
            (delete_fallback_category_leaves_unknown food_state "c2" _ _ _)))); evaluated.
Defined.

(** ** The date of a new row *)

Lemma custom_date_date_string (now y m d : Z) :
  calendar_date y m d →
  custom_date now (date_string y m d) = Dated (toISOString (day_start y m d)).
Proof.
  intros Hc. pose proof (day_start_range y m d Hc) as Hr.
  pose proof (days_in_month_bounds y m (proj1 (proj2 Hc))).
  destruct Hc as (Hy & Hm & Hd).
  unfold custom_date, utc_iso. rewrite ymd_date by lia. cbn [falsy].
  repeat (rewrite (proj2 (Z.eqb_neq _ 0)) by lia). cbn [orb mbind option_bind].
  rewrite Date_UTC_day by lia.
  rewrite TimeClip_iso by (unfold msPerDay, iso_min, iso_max in *; lia).
  cbn [fmap option_fmap option_map]. do 2 f_equal. lia.
Qed.

(** X19. The date of a new row, for a range given by two calendar dates.
    When today (the UTC day of the clock) lies in the range, the row is dated
    now, whatever the custom date. When it does not, a submit without custom
    date is refused, and with a custom date the row is dated the start of
    that day, whether or not that day lies in the range. Without a range the
    row is dated the start of the custom day, or now when there is none. *)
Theorem new_expense_date (now sy sm sd ey em ed : Z)
    (Hnow : iso_min <= now <= iso_max)
    (Hs : calendar_date sy sm sd) (He : calendar_date ey em ed) :
  let today := now - now mod msPerDay in
  let inside := day_start sy sm sd <= today <= day_start ey em ed in
  let pick := expenseDate now (Val (date_string sy sm sd)) (Val (date_string ey em ed)) in
  (inside → ∀ customDate, pick customDate = Dated (toISOString now)) ∧
  (¬ inside →
     pick "" = NoDate ∧
     ∀ y m d, calendar_date y m d →
       pick (date_string y m d) = Dated (toISOString (day_start y m d))) ∧
  (∀ y m d, calendar_date y m d →
     expenseDate now Null Null (date_string y m d) = Dated (toISOString (day_start y m d))) ∧
  expenseDate now Null Null "" = Dated (toISOString now).
Proof.
  intros today inside pick.
  assert (E : ∀ c, pick c
              = if (day_start sy sm sd <=? today) && (today <=? day_start ey em ed)
                then Dated (toISOString now)
                else if negb (truthy (Val c)) then NoDate else custom_date now c).
  { intros c. subst pick. unfold expenseDate.
    rewrite !date_string_truthy. cbn [andb].
    rewrite Date_parse_date_part, !Date_parse_date_string by done. done. }
  split; [ | split; [ | split ] ].
  - intros [H1 H2] c. rewrite E.
    by rewrite (proj2 (Z.leb_le _ _) H1), (proj2 (Z.leb_le _ _) H2).
  - intros Hout.
    assert (Hf : (day_start sy sm sd <=? today) && (today <=? day_start ey em ed) = false).
    { apply andb_false_iff.
      destruct (Z.leb_spec (day_start sy sm sd) today); [ | by left ].
      destruct (Z.leb_spec today (day_start ey em ed)); [ | by right ].
      by destruct Hout. }
    split; [ by rewrite E, Hf | ].
    intros y m d Hc. rewrite E, Hf, date_string_truthy. cbn [negb].
    by apply custom_date_date_string.
  - intros y m d Hc. unfold expenseDate. rewrite date_string_truthy.
    by apply custom_date_date_string.
  - reflexivity.
Qed.

Lemma new_expense_date_march :
  expenseDate 1741000000000 (Val (date_string 2025 3 1)) (Val (date_string 2025 3 31)) ""
  = Dated (toISOString 1741000000000).
Proof.
  refine (proj1 (new_expense_date 1741000000000 2025 3 1 2025 3 31 _ _ _) _ ""); evaluated.
Defined.

(** ** The budget of a trip, set on the trips tab *)

Lemma card_budget_sum (budgets : list Budget.t) (user_id tripId : string) :
  (card_budget budgets user_id tripId
   == budget_sum (List.filter (trip_budget_row user_id tripId) budgets))%Q.
Proof. unfold card_budget. by rewrite sum_at_budget, budgets_at_table. Qed.

Lemma update_first_rows (user_id tripId : string) (amount : Q) (l : list Budget.t) :
  List.filter (trip_budget_row user_id tripId)
    (TripsTab.update_first (trip_budget_row user_id tripId) amount l)
  = match List.filter (trip_budget_row user_id tripId) l with
    | [] => []
    | b :: rest => Budget.mk (Budget.user_id b) (Budget.trip_id b) (Budget.month_year b) amount
                   :: rest
    end ∧
  List.filter (λ b, negb (trip_budget_row user_id tripId b))
    (TripsTab.update_first (trip_budget_row user_id tripId) amount l)
  = List.filter (λ b, negb (trip_budget_row user_id tripId b)) l.
Proof.
  induction l as [ | b l [IH1 IH2] ]; [ done | ]. cbn [TripsTab.update_first List.filter].
  destruct (trip_budget_row user_id tripId b) eqn:E.
  - cbn [List.filter negb].
    change (trip_budget_row user_id tripId (Budget.mk _ _ _ amount))
      with (trip_budget_row user_id tripId b). by rewrite E.
  - cbn [List.filter negb]. rewrite E. cbn [negb]. by rewrite IH1, IH2.
Qed.

Lemma existsb_filter {A} (p : A → bool) (l : list A) :
  existsb p l = false ↔ List.filter p l = [].
Proof.
  induction l as [ | x l IH ]; [ done | ]. cbn [existsb List.filter].
  destruct (p x); cbn [orb]; [ done | exact IH ].
Qed.

Lemma setTripBudget_table (budgets : list Budget.t) (trips : list Trip.t) (user_id : string)
    (trip : Trip.t) (amount : Q) :
  (0 < amount)%Q →
  List.find (λ t, bool_decide (Trip.id t = Trip.id trip)) trips = Some trip →
  TripsTab.setTripBudget budgets trips user_id (Trip.id trip) amount
  = if existsb (trip_budget_row user_id (Trip.id trip)) budgets
    then TripsTab.update_first (trip_budget_row user_id (Trip.id trip)) amount budgets
    else (budgets ++ [Budget.mk user_id (Some (Trip.id trip)) (TripsTab.monthYear trip)
                        amount])%list.
Proof.
  intros Ha Hfind. unfold TripsTab.setTripBudget. rewrite Hfind.
  destruct (Qle_bool amount 0) eqn:Hle; [ | done ].
  apply Qle_bool_iff in Hle. exfalso. by apply (Qlt_not_le _ _ Ha).
Qed.

Lemma trip_budget_row_new (user_id tripId m : string) (amount : Q) :
  trip_budget_row user_id tripId (Budget.mk user_id (Some tripId) m amount) = true.
Proof. unfold trip_budget_row. cbn. by rewrite !bool_decide_eq_true_2. Qed.

(** X20. After [setTripBudget] with a positive amount for a trip of the
    list, the budget that the trip card loads is that amount plus the
    amounts of the budget rows of the trip other than the first; it is the
    amount itself when the trip had at most one budget row. The budget rows
    of other trips and users are left as they were. *)
Theorem trip_budget_set_then_shown (budgets : list Budget.t) (trips : list Trip.t)
    (user_id : string) (trip : Trip.t) (amount : Q)
    (Ha : (0 < amount)%Q)
    (Hfind : List.find (λ t, bool_decide (Trip.id t = Trip.id trip)) trips = Some trip) :
  let next := TripsTab.setTripBudget budgets trips user_id (Trip.id trip) amount in
  let held := List.filter (trip_budget_row user_id (Trip.id trip)) budgets in
  (card_budget next user_id (Trip.id trip) == amount + budget_sum (tail held))%Q ∧
  ((length held <= 1)%nat → (card_budget next user_id (Trip.id trip) == amount)%Q) ∧
  List.filter (λ b, negb (trip_budget_row user_id (Trip.id trip) b)) next
  = List.filter (λ b, negb (trip_budget_row user_id (Trip.id trip) b)) budgets.
Proof.
  intros next held.
  assert (E : List.filter (trip_budget_row user_id (Trip.id trip)) next
              = Budget.mk user_id (Some (Trip.id trip))
                  (match held with [] => TripsTab.monthYear trip | b :: _ => Budget.month_year b end)
                  amount :: tail held
              ∧ List.filter (λ b, negb (trip_budget_row user_id (Trip.id trip) b)) next
                = List.filter (λ b, negb (trip_budget_row user_id (Trip.id trip) b)) budgets).
  { subst next held. rewrite setTripBudget_table by done.
    destruct (existsb _ budgets) eqn:Hex.
    - destruct (update_first_rows user_id (Trip.id trip) amount budgets) as [-> ->].
      split; [ | done ].
      destruct (List.filter (trip_budget_row user_id (Trip.id trip)) budgets)
        as [ | b rest ] eqn:Hh.
      + apply existsb_filter in Hh. congruence.
      + cbn [tail]. assert (Hb : trip_budget_row user_id (Trip.id trip) b = true).
        { assert (Hin : In b (List.filter (trip_budget_row user_id (Trip.id trip)) budgets)).
          { rewrite Hh. by left. }
          by apply List.filter_In in Hin as [_ Hin]. }
        unfold trip_budget_row in Hb. apply andb_true_iff in Hb as [H1 H2].
        apply bool_decide_eq_true_1 in H1, H2. by rewrite H1, H2.
    - apply existsb_filter in Hex. rewrite !List.filter_app, Hex.
      cbn [List.filter app tail]. rewrite trip_budget_row_new. cbn [negb].
      by rewrite app_nil_r. }
  destruct E as [E1 E2].
  assert (Hsum : (card_budget next user_id (Trip.id trip)
                  == amount + budget_sum (tail held))%Q).
  { rewrite card_budget_sum, E1.
    change (budget_sum (?b :: ?l)) with (or0 (Budget.amount b) + budget_sum l)%Q.
    cbn [Budget.amount]. by rewrite or0_eq. }
  split; [ exact Hsum | ]. split; [ | exact E2 ].
  intros Hlen. rewrite Hsum.
  destruct held as [ | b [ | b' rest ] ]; cbn [tail]; [ | | cbn in Hlen; lia ];
    change (budget_sum []) with 0%Q; ring.
Qed.

Lemma trip_budget_set_then_shown_goa :
  (card_budget (TripsTab.setTripBudget goa_budgets [goa] "u1" "t1" 500) "u1" "t1"
   == 500 + budget_sum (tail (List.filter (trip_budget_row "u1" "t1") goa_budgets)))%Q.
Proof.
  refine (proj1 (trip_budget_set_then_shown goa_budgets [goa] "u1" goa 500 _ _)); evaluated.
Defined.

(** ** The month a trip budget is written for *)

Lemma ToString_4 (y : Z) : 1000 <= y <= 9999 → ToString y = pad 4 y.
Proof.
  intros Hy. unfold ToString. rewrite (proj2 (Z.ltb_ge y 0)) by lia.
  assert (3 <= Z.log2 y) by (apply Z.log2_le_pow2; [ lia | cbn; lia ]).
  destruct (Z.to_nat (Z.log2 y)) as [ | [ | [ | k ] ] ] eqn:E; try lia.
  cbn [decimal pad].
  rewrite (proj2 (Z.ltb_ge y 10)), (proj2 (Z.ltb_ge (y / 10) 10)),
    (proj2 (Z.ltb_ge (y / 10 / 10) 10)), (proj2 (Z.ltb_lt (y / 10 / 10 / 10) 10)) by zdiv.
  by rewrite append_nil_l.
Qed.

Lemma ToString_3 (y : Z) : 100 <= y <= 999 → ToString y = pad 3 y.
Proof.
  intros Hy. unfold ToString. rewrite (proj2 (Z.ltb_ge y 0)) by lia.
  assert (2 <= Z.log2 y) by (apply Z.log2_le_pow2; [ lia | cbn; lia ]).
  destruct (Z.to_nat (Z.log2 y)) as [ | [ | k ] ] eqn:E; try lia.
  cbn [decimal pad].
  rewrite (proj2 (Z.ltb_ge y 10)), (proj2 (Z.ltb_ge (y / 10) 10)),
    (proj2 (Z.ltb_lt (y / 10 / 10) 10)) by zdiv.
  by rewrite append_nil_l.
Qed.

(** The month written for a trip that starts on a calendar date. *)
Lemma monthYear_date_string (id name : string) (sy sm sd : Z) (end_date : string) :
  calendar_date sy sm sd →
  TripsTab.monthYear (Trip.mk id name (date_string sy sm sd) end_date)
  = ToString sy +:+ "-" +:+ pad 2 sm.
Proof.
  intros Hs. unfold TripsTab.monthYear. cbn [Trip.start_date].
  rewrite Date_parse_date_string by done. destruct Hs as (? & ? & ?).
  destruct (year_month_of_day sy sm sd 0) as [Y M]; [ done | done | done | ].
  rewrite Z.add_0_r in Y, M. rewrite Y, M. do 3 f_equal. lia.
Qed.






(** X21. A budget set on the trips tab for a trip that has no budget row
    yet adds one row, for the month of the start of the trip, written with
    the year as the code prints it, without padding, and the month in two
    digits. For a start year of four digits this is the [yyyy-MM] month that
    the dashboard lists first for the trip, and the dashboard of the trip
    loads the amount as its total budget, whatever the dates of the view.
    For a start year of three digits the row is written with three digits,
    the dashboard looks for months of four, and it loads a total of 0. Local
    time is taken to be UTC. *)
Theorem trip_budget_set_on_tab_loads_on_dashboard
    (budgets : list Budget.t) (trips : list Trip.t) (user_id id name : string)
    (sy sm sd ey em ed : Z) (amount : Q)
    (Ha : (0 < amount)%Q) (Hu : user_id ≠ "")
    (Hs : calendar_date sy sm sd) (He : calendar_date ey em ed)
    (Horder : day_start sy sm sd <= day_start ey em ed)
    (Hfind : List.find (λ t, bool_decide (Trip.id t = id)) trips
             = Some (Trip.mk id name (date_string sy sm sd) (date_string ey em ed)))
    (Hnone : List.filter (trip_budget_row user_id id) budgets = []) :
  let trip := Trip.mk id name (date_string sy sm sd) (date_string ey em ed) in
  let next := TripsTab.setTripBudget budgets trips user_id id amount in
  next = (budgets ++ [Budget.mk user_id (Some id) (ToString sy +:+ "-" +:+ pad 2 sm)
                        amount])%list ∧
  (1000 <= sy →
     ToString sy = pad 4 sy ∧
     ∀ startDateStr endDateStr,
       ∃ total, loadTotalBudget next (View.mk user_id (Some trip) startDateStr endDateStr)
                = Some total ∧ (total == amount)%Q) ∧
  (sy < 1000 →
     ToString sy = pad 3 sy ∧
     ∀ startDateStr endDateStr,
       ∃ total, loadTotalBudget next (View.mk user_id (Some trip) startDateStr endDateStr)
                = Some total ∧ (total == 0)%Q).
Proof.
  intros trip next.
  assert (E : next = (budgets ++ [Budget.mk user_id (Some id)
                                    (ToString sy +:+ "-" +:+ pad 2 sm) amount])%list).
  { pose proof (setTripBudget_table budgets trips user_id trip amount Ha Hfind) as Ht.
    pose proof (proj2 (existsb_filter _ _) Hnone) as Hex.
    subst trip. cbn [Trip.id] in Ht. rewrite Hex in Ht.
    by rewrite monthYear_date_string in Ht. }
  set (months := format_yyyy_MM <$> seqZ (12 * sy + (sm - 1))
                                         (12 * ey + em - (12 * sy + sm) + 1)).
  assert (Hold : List.filter (budget_match user_id (Some id) months) budgets = []).
  { apply filter_none. intros b Hb.
    destruct (budget_match _ _ _ b) eqn:Hm; [ | done ].
    apply budget_match_true in Hm as (Hb1 & _ & Hb2).
    assert (Hin : In b (List.filter (trip_budget_row user_id id) budgets)).
    { apply List.filter_In. split; [ done | ].
      unfold trip_budget_row. by rewrite !bool_decide_eq_true_2. }
    rewrite Hnone in Hin. by destruct Hin. }
  assert (Hload : ∀ startDateStr endDateStr,
            ∃ total, loadTotalBudget next (View.mk user_id (Some trip) startDateStr endDateStr)
                     = Some total ∧
                     (total == if bool_decide (ToString sy +:+ "-" +:+ pad 2 sm ∈ months)
                               then amount else 0)%Q).
  { intros startDateStr endDateStr. eexists. split.
    - unfold loadTotalBudget. cbn [View.user_id truthy].
      rewrite bool_decide_eq_false_2 by done. reflexivity.
    - rewrite period_budget_sum.
      cbn [View.user_id context View.trip fmap option_fmap option_map].
      unfold budget_months. cbn [View.trip]. subst trip.
      cbn [Trip.start_date Trip.end_date Trip.id].
      rewrite months_of_dates by done. fold months.
      rewrite E, List.filter_app, Hold. cbn [app List.filter]. rewrite budget_match_new.
      destruct (bool_decide _); cbn [budget_sum foldr Budget.amount];
        [ rewrite or0_eq; ring | reflexivity ]. }
  split; [ exact E | ]. destruct Hs as (Hy & Hm & Hd), He as (? & ? & ?). split.
  - intros H4. split; [ apply ToString_4; lia | ].
    intros startDateStr endDateStr.
    destruct (Hload startDateStr endDateStr) as (total & Ht & Hq).
    exists total. split; [ done | ]. rewrite Hq, bool_decide_eq_true_2; [ reflexivity | ].
    assert (12 * sy + sm <= 12 * ey + em).
    { apply (month_of_later_day sy sm sd ey em ed); try done; try lia.
      unfold day_start, msPerDay in Horder. lia. }
    subst months. rewrite seqZ_cons by lia. cbn [fmap list_fmap].
    apply elem_of_cons. left. rewrite ToString_4 by lia. symmetry.
    unfold format_yyyy_MM. f_equal; [ f_equal; zdiv | ]. f_equal. f_equal. zdiv.
  - intros H3. split; [ apply ToString_3; lia | ].
    intros startDateStr endDateStr.
    destruct (Hload startDateStr endDateStr) as (total & Ht & Hq).
    exists total. split; [ done | ]. rewrite Hq, bool_decide_eq_false_2; [ reflexivity | ].
    intros Hin. subst months. apply list_elem_of_fmap in Hin as (n & En & _).
    apply (f_equal String.length) in En. rewrite ToString_3 in En by lia.
    unfold format_yyyy_MM in En. rewrite !length_append_s, !pad_length in En.
    cbn in En. lia.
Qed.

Lemma trip_budget_set_on_tab_loads_on_dashboard_goa :
  TripsTab.setTripBudget [] [Trip.mk "t1" "Goa" (date_string 2025 3 15) (date_string 2025 4 10)]
    "u1" "t1" 500
  = ([] ++ [Budget.mk "u1" (Some "t1") (ToString 2025 +:+ "-" +:+ pad 2 3) 500])%list.
Proof.
  refine (proj1 (trip_budget_set_on_tab_loads_on_dashboard []
                   [Trip.mk "t1" "Goa" (date_string 2025 3 15) (date_string 2025 4 10)]
                   "u1" "t1" "Goa" 2025 3 15 2025 4 10 500 _ _ _ _ _ _ _)); evaluated.
Defined.

(** ** Deleting a trip *)

Lemma sql_eq_Val (x : jsv string) (c : string) : Store.sql_eq x (Val c) = true ↔ x = Val c.
Proof.
  destruct x as [ | | y ]; cbn [Store.sql_eq]; [ done | done | ].
  rewrite bool_decide_eq_true. split; congruence.
Qed.

Lemma spent_of_none (l : list Expense.t) (tripId : string) :
  (∀ e, e ∈ l → Expense.trip_id e ≠ Val tripId) → TripsTab.spent_of l tripId = 0%Q.
Proof.
  unfold TripsTab.spent_of. generalize 0%Q.
  induction l as [ | e l IH ]; intros q H; [ done | ]. cbn [foldl].
  assert (E : strict_eq (Expense.trip_id e) (Val tripId) = false).
  { destruct (strict_eq _ _) eqn:E; [ | done ].
    apply strict_eq_Val_true in E. by destruct (H e (list_elem_of_here _ _)). }
  rewrite E. cbn [andb]. apply IH. intros e' He'. apply H. by right.
Qed.

(** X22. [deleteTrip], when its three store calls succeed, removes
    exactly the expenses, the budget rows and the trip rows of that trip id
    and leaves the categories alone. The three calls are not one
    transaction: when the first fails nothing is changed, and when the second
    or the third fails the trip is still listed while its expenses are gone
    already, so that nothing is spent on it any more. Every failure shows a
    message other than the success message. *)
Theorem delete_trip_cascade (db : TripsTab.tables) (tripId : string) :
  let gone := (TripsTab.deleteTrip None db tripId).1 in
  let kept_expenses e := e ∈ TripsTab.t_expenses db ∧ Expense.trip_id e ≠ Val tripId in
  (∀ e, e ∈ TripsTab.t_expenses gone ↔ kept_expenses e) ∧
  (∀ b, b ∈ TripsTab.t_budgets gone ↔
        b ∈ TripsTab.t_budgets db ∧ Budget.trip_id b ≠ Some tripId) ∧
  (∀ r, r ∈ TripsTab.t_trips gone ↔
        r ∈ TripsTab.t_trips db ∧ Trip.id (TripsTab.trip r) ≠ tripId) ∧
  TripsTab.t_categories gone = TripsTab.t_categories db ∧
  (TripsTab.deleteTrip (Some TripsTab.DeleteExpenses) db tripId).1 = db ∧
  (∀ failing, failing = TripsTab.DeleteBudgets ∨ failing = TripsTab.DeleteTrip →
     let partial := (TripsTab.deleteTrip (Some failing) db tripId).1 in
     TripsTab.t_trips partial = TripsTab.t_trips db ∧
     (∀ e, e ∈ TripsTab.t_expenses partial ↔ kept_expenses e) ∧
     TripsTab.spent_of (TripsTab.t_expenses partial) tripId = 0%Q ∧
     (failing = TripsTab.DeleteBudgets → TripsTab.t_budgets partial = TripsTab.t_budgets db)) ∧
  (∀ failing, (TripsTab.deleteTrip (Some failing) db tripId).2 ≠ "Trip deleted successfully").
Proof.
  intros gone kept_expenses.
  assert (He : ∀ e, e ∈ List.filter
                      (λ e, negb (Store.sql_eq (Expense.trip_id e) (Val tripId)))
                      (TripsTab.t_expenses db) ↔ kept_expenses e).
  { intros e. rewrite list_elem_of_In, List.filter_In, <- list_elem_of_In, negb_true_iff.
    unfold kept_expenses. apply and_iff_compat_l.
    rewrite <- not_true_iff_false, sql_eq_Val. done. }
  split; [ exact He | ]. split; [ | split; [ | split; [ done | split; [ done | split ] ] ] ].
  - intros b. subst gone. cbn [TripsTab.deleteTrip fst TripsTab.t_budgets].
    rewrite list_elem_of_In, List.filter_In, <- list_elem_of_In, negb_true_iff.
    by rewrite bool_decide_eq_false.
  - intros r. subst gone. cbn [TripsTab.deleteTrip fst TripsTab.t_trips].
    rewrite list_elem_of_In, List.filter_In, <- list_elem_of_In, negb_true_iff.
    by rewrite bool_decide_eq_false.
  - intros failing Hf partial.
    assert (Hp : TripsTab.t_expenses partial
                 = List.filter (λ e, negb (Store.sql_eq (Expense.trip_id e) (Val tripId)))
                     (TripsTab.t_expenses db)).
    { subst partial. by destruct Hf as [-> | ->]. }
    split; [ subst partial; by destruct Hf as [-> | ->] | ].
    split; [ intros e; rewrite Hp; apply He | ].
    split; [ | by intros -> ].
    apply spent_of_none. intros e Hin. rewrite Hp in Hin. by apply He in Hin as [_ Hin].
  - by intros [ | | ].
Qed.

(** ** The rows of the collection keep distinct ids *)

Lemma strict_eq_true (x y : jsv string) : strict_eq x y = true ↔ x = y.
Proof.
  destruct x as [ | | a ], y as [ | | b ]; cbn [strict_eq]; try done.
  rewrite bool_decide_eq_true. split; congruence.
Qed.

Lemma distinct_ids_filter (p : Expense.t → bool) (l : list Expense.t) :
  distinct_ids l → distinct_ids (List.filter p l).
Proof. apply NoDup_fmap_filter. Qed.

Lemma distinct_ids_prepend (row : Expense.t) (prev : list Expense.t) :
  distinct_ids prev → distinct_ids (prepend_new row prev).
Proof.
  intros H. unfold prepend_new. destruct (has_id (Expense.id row) prev) eqn:E; [ done | ].
  unfold distinct_ids. cbn [fmap list_fmap]. apply NoDup_cons. split; [ | done ].
  intros Hin. apply list_elem_of_fmap in Hin as (r & Hr & Hin).
  unfold has_id in E. apply not_true_iff_false in E. apply E.
  apply existsb_exists. exists r. split; [ by apply list_elem_of_In | ].
  by apply strict_eq_true.
Qed.

(** A map that keeps the id of every row keeps the ids distinct. *)
Lemma distinct_ids_fmap (f : Expense.t → Expense.t) (l : list Expense.t) :
  (∀ r, r ∈ l → Expense.id (f r) = Expense.id r) → distinct_ids l → distinct_ids (f <$> l).
Proof.
  intros Hf H. unfold distinct_ids in *.
  assert (E : Expense.id <$> (f <$> l) = Expense.id <$> l).
  { clear H. induction l as [ | r l IH ]; [ done | ]. cbn [fmap list_fmap].
    f_equal; [ apply Hf; left | ]. apply IH. intros r' Hr'. apply Hf. by right. }
  by rewrite E.
Qed.

Lemma update_rows_distinct (bounds : string * string) (newRow : Expense.t)
    (prev : list Expense.t) :
  distinct_ids prev → distinct_ids (update_rows bounds newRow prev).
Proof.
  intros H. unfold update_rows.
  destruct (negb (in_range_strings bounds (Expense.date newRow)));
    [ by apply distinct_ids_filter | ].
  apply distinct_ids_fmap; [ | done ]. intros r Hr.
  destruct (strict_eq (Expense.id r) (Expense.id newRow)) eqn:E; [ | done ].
  apply strict_eq_true in E.
  destruct (find_id_is_Some (Expense.id newRow) prev r Hr) as [held Hh];
    [ by apply strict_eq_true | ].
  rewrite Hh. apply find_id_Some in Hh as [_ Hi]. apply strict_eq_true in Hi.
  cbn [spread Expense.id]. rewrite Hi, E. by destruct (Expense.id newRow).
Qed.

(** X23. A collection whose rows have distinct ids keeps distinct ids
    under every updater of the dashboard: the [expense-added] listener, the
    three change notifications, [deleteExpense], [deleteMultiple],
    [submitEdit] and [deleteCategory]. *)
Theorem ids_stay_distinct (prev : list Expense.t) (Hprev : distinct_ids prev) :
  (∀ v refs detail, distinct_ids (handleAdded v refs detail prev)) ∧
  (∀ refs payload_new, distinct_ids (on_insert refs payload_new prev)) ∧
  (∀ refs payload_new, distinct_ids (on_update refs payload_new prev)) ∧
  (∀ payload_old, distinct_ids (on_delete payload_old prev)) ∧
  (∀ confirmed error row table selected,
     distinct_ids (l_expenses (deleteExpense confirmed error row
                                 (mk_listing table prev selected)))) ∧
  (∀ confirmed error table selected,
     distinct_ids (l_expenses (deleteMultiple confirmed error
                                 (mk_listing table prev selected)))) ∧
  (∀ error updatedRow table open,
     distinct_ids (e_expenses (submitEdit error updatedRow (mk_editing table prev open)))) ∧
  (∀ db_expenses db_categories categories categoryId,
     distinct_ids (expenses (deleteCategory
                               (mk_state db_expenses db_categories categories prev)
                               categoryId))).
Proof.
  repeat split.
  - intros v refs detail. unfold handleAdded.
    repeat (match goal with |- context [if ?b then _ else _] => destruct b end; try done).
    by apply distinct_ids_prepend.
  - intros refs [new | ]; [ | done ]. unfold on_insert.
    destruct (refs_set refs) as [bounds | ]; [ | done ].
    destruct (in_range_strings bounds (Expense.date new)); [ | done ].
    by apply distinct_ids_prepend.
  - intros refs [newRow | ]; [ | done ]. unfold on_update.
    destruct (refs_set refs) as [bounds | ]; [ | done ].
    by apply update_rows_distinct.
  - intros [old | ]; [ | done ]. by apply distinct_ids_filter.
  - intros confirmed error row table selected. unfold deleteExpense.
    destruct (negb confirmed); [ done | ]. destruct error; [ done | ].
    by apply distinct_ids_filter.
  - intros confirmed error table selected. unfold deleteMultiple.
    destruct (bool_decide _); [ done | ].
    destruct (negb confirmed); [ done | ]. destruct error; [ done | ].
    by apply distinct_ids_filter.
  - intros error updatedRow table open. unfold submitEdit. destruct error; [ done | ].
    cbn [e_expenses]. apply distinct_ids_fmap; [ | done ]. intros r _.
    by destruct (strict_eq _ _).
  - intros db_expenses db_categories categories categoryId.
    cbn [deleteCategory expenses]. apply distinct_ids_fmap; [ | done ]. intros r _.
    by destruct (strict_eq _ _).
Qed.

Lemma ids_stay_distinct_tea :
  distinct_ids (on_insert (Some march_bounds) (Some (tea midnight_pg)) [tea midnight_pg]).
Proof.
  refine (proj1 (proj2 (ids_stay_distinct [tea midnight_pg] _)) _ _).
  unfold distinct_ids. cbn. apply NoDup_singleton.
Defined.

(** ** Notifications about a row that is not held *)

Lemma unheld_filter (x : jsv string) (prev : list Expense.t) :
  has_id x prev = false →
  List.filter (λ r, negb (strict_eq (Expense.id r) x)) prev = prev.
Proof.
  unfold has_id. induction prev as [ | r prev IH ]; [ done | ]. cbn [existsb List.filter].
  intros H. apply orb_false_iff in H as [Hr H]. rewrite Hr. cbn [negb]. f_equal. by apply IH.
Qed.

Lemma unheld_map (x : jsv string) (merged : Expense.t) (prev : list Expense.t) :
  has_id x prev = false →
  (λ r, if strict_eq (Expense.id r) x then merged else r) <$> prev = prev.
Proof.
  unfold has_id. induction prev as [ | r prev IH ]; [ done | ]. cbn [existsb fmap list_fmap].
  intros H. apply orb_false_iff in H as [Hr H]. rewrite Hr. f_equal. by apply IH.
Qed.

Lemma delete_prepended (row : Expense.t) (prev : list Expense.t) :
  has_id (Expense.id row) prev = false →
  on_delete (Some row) (prepend_new row prev) = prev.
Proof.
  intros H. unfold prepend_new, on_delete. rewrite H. cbn [List.filter].
  rewrite strict_eq_refl. cbn [negb]. by apply unheld_filter.
Qed.

(** X27. Notifications about a row that the collection does not hold.
    An UPDATE changes nothing, so that a row whose date is edited into the
    range does not appear; a DELETE changes nothing; and an INSERT, or the
    [expense-added] event, followed by the DELETE of the same row gives the
    collection back. *)
Theorem notifications_for_unheld_row (refs : option (string * string)) (row : Expense.t)
    (prev : list Expense.t) (Hnew : has_id (Expense.id row) prev = false) :
  on_update refs (Some row) prev = prev ∧
  on_delete (Some row) prev = prev ∧
  on_delete (Some row) (on_insert refs (Some row) prev) = prev ∧
  (∀ v, on_delete (Some row) (handleAdded v refs row prev) = prev).
Proof.
  assert (Hdel : on_delete (Some row) prev = prev) by by apply unheld_filter.
  split; [ | split; [ exact Hdel | split ] ].
  - unfold on_update. destruct (refs_set refs) as [bounds | ]; [ | done ].
    unfold update_rows. destruct (negb (in_range_strings bounds (Expense.date row))).
    + by apply unheld_filter.
    + by apply unheld_map.
  - unfold on_insert. destruct (refs_set refs) as [bounds | ]; [ | exact Hdel ].
    destruct (in_range_strings bounds (Expense.date row)); [ | exact Hdel ].
    by apply delete_prepended.
  - intros v. unfold handleAdded.
    repeat (match goal with |- context [if ?b then _ else _] => destruct b end;
            try exact Hdel).
    by apply delete_prepended.
Qed.

Lemma notifications_for_unheld_row_tea :
  on_update (Some march_bounds) (Some (tea midnight_pg)) [snacks] = [snacks].
Proof.
  refine (proj1 (notifications_for_unheld_row (Some march_bounds) (tea midnight_pg)
                   [snacks] _)).
  reflexivity.
Defined.

(** ** The text of a new expense *)

Lemma string_forall_app (p : ascii → bool) (a b : string) :
  string_forall p (a +:+ b) = string_forall p a && string_forall p b.
Proof.
  induction a as [ | c a IH ]; [ done | ]. rewrite append_cons. cbn [string_forall].
  by rewrite IH, andb_assoc.
Qed.

Lemma string_forall_rev (p : ascii → bool) (s acc : string) :
  string_forall p (rev_string acc s) = string_forall p s && string_forall p acc.
Proof.
  revert acc. induction s as [ | c s IH ]; intros acc; [ done | ].
  cbn [rev_string string_forall]. rewrite IH. cbn [string_forall].
  by destruct (p c), (string_forall p s), (string_forall p acc).
Qed.

Lemma trimStart_empty (s : string) : trimStart s = "" → string_forall is_space s = true.
Proof.
  induction s as [ | c s IH ]; [ done | ]. cbn [trimStart string_forall].
  destruct (is_space c); [ exact IH | done ].
Qed.

Lemma trimStart_head (s : string) (c : ascii) (t : string) :
  trimStart s = String c t → is_space c = false.
Proof.
  induction s as [ | x s IH ]; [ done | ]. cbn [trimStart].
  destruct (is_space x) eqn:E; [ exact IH | ]. by intros [= <- _].
Qed.

Lemma rev_string_empty (s : string) : rev_string "" s = "" → s = "".
Proof. intros H. by rewrite <- (rev_string_involutive s), H. Qed.

Lemma trimStart_spaces (s : string) :
  string_forall is_space (trimStart s) = true → trimStart s = "".
Proof.
  destruct (trimStart s) as [ | c t ] eqn:E; [ done | ].
  apply trimStart_head in E. cbn [string_forall]. by rewrite E.
Qed.

(** A text that [trim] empties is white space. *)
Lemma trim_empty (s : string) : trim s = "" → string_forall is_space s = true.
Proof.
  unfold trim, trimEnd. intros H.
  apply rev_string_empty, trimStart_empty in H.
  rewrite string_forall_rev in H. apply andb_true_iff in H as [H _].
  by apply trimStart_empty, trimStart_spaces.
Qed.

(** Trimming again does not empty a text. *)
Lemma trim_trim_empty (s : string) : trim (trim s) = "" → trim s = "".
Proof.
  intros H. apply trim_empty in H. unfold trim, trimEnd in *.
  rewrite string_forall_rev in H. apply andb_true_iff in H as [H _].
  by rewrite (trimStart_spaces _ H).
Qed.

Lemma pad_head (k : nat) (n : Z) (r : string) :
  ∃ c t, pad (S k) n +:+ r = String c t ∧ is_digit c = true.
Proof.
  revert n r. induction k as [ | k IH ]; intros n r; rewrite pad_succ.
  - cbn [pad]. rewrite append_nil_l. eexists _, _. split; [ done | ].
    apply is_digit_digit_char.
  - apply IH.
Qed.

Lemma is_digit_not_space (c : ascii) : is_digit c = true → is_space c = false.
Proof.
  unfold is_digit, is_space. intros H. apply andb_true_iff in H.
  apply orb_false_iff. split; [ lia | apply andb_false_iff; lia ].
Qed.

Lemma amount_text_not_blank (pre : string) (k : nat) (n : Z) (r : string) :
  trim (pre +:+ pad (S k) n +:+ r) ≠ "".
Proof.
  intros H. apply trim_empty in H. rewrite string_forall_app in H.
  apply andb_true_iff in H as [_ H].
  destruct (pad_head k n r) as (c & t & E & Hc). rewrite E in H. cbn [string_forall] in H.
  by rewrite (is_digit_not_space c Hc) in H.
Qed.

Lemma match_amount_skip (pre s : string) :
  no_digit pre = true → match_amount (pre +:+ s) = match_amount s.
Proof.
  induction pre as [ | c pre IH ]; [ done | ]. unfold no_digit. cbn [string_forall].
  intros H. apply andb_true_iff in H as [Hc H]. apply negb_true_iff in Hc.
  rewrite append_cons. cbn [match_amount]. rewrite Hc. by apply IH.
Qed.

Lemma match_amount_none (s : string) : no_digit s = true → match_amount s = None.
Proof.
  intros H. rewrite <- (append_nil_r_s s). by rewrite match_amount_skip.
Qed.

Lemma match_amount_pad (k : nat) (n : Z) (r : string) :
  match_amount (pad (S k) n +:+ r) = Some (number_token (pad (S k) n +:+ r)).1.
Proof.
  destruct (pad_head k n r) as (c & t & E & Hc). rewrite E. cbn [match_amount].
  by rewrite Hc.
Qed.

Lemma number_token_plain (k : nat) (n : Z) (x : ascii) (r : string) :
  is_digit x = false → x ≠ "."%char →
  number_token (pad k n +:+ String x r) = (pad k n, String x r).
Proof.
  intros Hx Hdot. unfold number_token. rewrite span_digits_pad by done.
  destruct r as [ | a [ | b r' ] ]; [ done | done | ].
  by rewrite bool_decide_eq_false_2.
Qed.

Lemma number_token_cents (k : nat) (n : Z) (a b : ascii) (r : string) :
  is_digit a = true → is_digit b = true →
  number_token (pad k n +:+ String "." (String a (String b r)))
  = (pad k n +:+ String "." (String a (String b "")), r).
Proof.
  intros Ha Hb. unfold number_token. rewrite span_digits_pad by done.
  by rewrite bool_decide_eq_true_2, Ha, Hb.
Qed.

Lemma number_token_tenths (k : nat) (n : Z) (a x : ascii) (r : string) :
  is_digit x = false →
  number_token (pad k n +:+ String "." (String a (String x r)))
  = (pad k n, String "." (String a (String x r))).
Proof.
  intros Hx. unfold number_token. rewrite span_digits_pad by done.
  by rewrite Hx, andb_false_r.
Qed.

Lemma Number_token_whole (k : nat) (n : Z) :
  0 <= n < 10 ^ Z.of_nat k → Number_token (pad k n) = inject_Z n.
Proof.
  intros H. unfold Number_token. rewrite span_digits_pad_end.
  by rewrite digits_value_pad, Z.mod_small by done.
Qed.

Lemma Number_token_cents (k : nat) (n c : Z) :
  0 <= n < 10 ^ Z.of_nat k → 0 <= c < 100 →
  Number_token (pad k n +:+ String "." (pad 2 c)) = (inject_Z n + (c # 100))%Q.
Proof.
  intros Hn Hc. unfold Number_token. rewrite span_digits_pad by done.
  rewrite !digits_value_pad, !Z.mod_small by (done || cbn; lia). done.
Qed.

Lemma pad_2 (c : Z) (r : string) :
  pad 2 c +:+ r = String (digit_char (c / 10)) (String (digit_char c) r).
Proof. by rewrite !pad_succ. Qed.

(** The row [handleSubmit] makes once the amount is read. *)
Lemma handleSubmit_amount (o : llm_outcome) (cats : list Category.t) (text tok : string) :
  trim text ≠ "" → match_amount text = Some tok →
  (Qle_bool (Number_token tok) 0 = true → handleSubmit o cats text = InvalidAmount) ∧
  (Qle_bool (Number_token tok) 0 = false →
     ∃ p, handleSubmit o cats text = Row p ∧ amount p = Number_token tok).
Proof.
  intros Ht Hm. unfold handleSubmit. rewrite bool_decide_eq_false_2 by done. rewrite Hm.
  cbv zeta. split; intros ->; [ done | ]. eexists. by split.
Qed.

Lemma whole_amount_positive (n : Z) : Qle_bool (inject_Z n) 0 = negb (0 <? n).
Proof.
  unfold Qle_bool, inject_Z. cbn [Qnum Qden].
  destruct (Z.ltb_spec 0 n), (Z.leb_spec (n * 1) (0 * 1)); cbn [negb]; try done; lia.
Qed.

(** X24. The amount of a new expense is the first run of digits of the
    text: a whole number followed by a space is stored as it is, zero is
    refused as not positive, two decimals are kept, while a single decimal
    is dropped ("12.5 tea" is stored as 12); a text without any digit is
    refused for its missing amount. *)
Theorem typed_amount_is_stored (o : llm_outcome) (cats : list Category.t) (pre : string)
    (k : nat) (n : Z)
    (Hpre : no_digit pre = true) (Hn : 0 <= n < 10 ^ Z.of_nat (S k)) :
  (∀ d,
     (n = 0 → handleSubmit o cats (pre +:+ pad (S k) n +:+ " " +:+ d) = InvalidAmount) ∧
     (0 < n → ∃ p, handleSubmit o cats (pre +:+ pad (S k) n +:+ " " +:+ d) = Row p ∧
                   amount p = inject_Z n)) ∧
  (∀ c rest, 0 <= c < 100 → 0 < 100 * n + c →
     ∃ p, handleSubmit o cats (pre +:+ pad (S k) n +:+ "." +:+ pad 2 c +:+ rest) = Row p ∧
          amount p = (inject_Z n + (c # 100))%Q) ∧
  (∀ c d, 0 < n →
     ∃ p, handleSubmit o cats (pre +:+ pad (S k) n +:+ "." +:+ pad 1 c +:+ " " +:+ d) = Row p ∧
          amount p = inject_Z n) ∧
  (∀ text, no_digit text = true → trim text ≠ "" → handleSubmit o cats text = MissingAmount).
Proof.
  split; [ | split; [ | split ] ].
  - intros d.
    destruct (handleSubmit_amount o cats (pre +:+ pad (S k) n +:+ " " +:+ d) (pad (S k) n))
      as [H0 H1].
    + apply amount_text_not_blank.
    + rewrite match_amount_skip, match_amount_pad by done.
      change (" " +:+ d) with (String " " d). by rewrite number_token_plain.
    + rewrite Number_token_whole, whole_amount_positive in H0, H1 by done. split.
      * intros ->. by apply H0.
      * intros Hpos. apply H1. apply negb_false_iff. by apply Z.ltb_lt.
  - intros c rest Hc Hpos.
    destruct (handleSubmit_amount o cats (pre +:+ pad (S k) n +:+ "." +:+ pad 2 c +:+ rest)
                (pad (S k) n +:+ String "." (pad 2 c))) as [_ H1].
    + apply amount_text_not_blank.
    + rewrite match_amount_skip, match_amount_pad by done.
      change ("." +:+ pad 2 c +:+ rest) with (String "." (pad 2 c +:+ rest)).
      rewrite pad_2, number_token_cents by apply is_digit_digit_char.
      cbn [fst]. by rewrite <- (pad_2 c ""), append_nil_r_s.
    + rewrite Number_token_cents in H1 by done. apply H1.
      destruct (Qle_bool _ 0) eqn:E; [ | done ]. apply Qle_bool_iff in E.
      unfold Qle, Qplus, inject_Z in E. cbn [Qnum Qden] in E. lia.
  - intros c d Hpos.
    destruct (handleSubmit_amount o cats
                (pre +:+ pad (S k) n +:+ "." +:+ pad 1 c +:+ " " +:+ d) (pad (S k) n))
      as [_ H1].
    + apply amount_text_not_blank.
    + rewrite match_amount_skip, match_amount_pad by done.
      change ("." +:+ pad 1 c +:+ " " +:+ d)
        with (String "." (String (digit_char c) (String " " d))).
      by rewrite number_token_tenths.
    + rewrite Number_token_whole, whole_amount_positive in H1 by done. apply H1.
      apply negb_false_iff. by apply Z.ltb_lt.
  - intros text Hd Ht. unfold handleSubmit. rewrite bool_decide_eq_false_2 by done.
    by rewrite match_amount_none.
Qed.

Lemma typed_amount_is_stored_lunch :
  ∃ p, handleSubmit CallFailed food_other ("" +:+ pad 3 250 +:+ " " +:+ "lunch") = Row p ∧
       amount p = inject_Z 250.
Proof.
  refine (proj2 (proj1 (typed_amount_is_stored CallFailed food_other "" 2 250 _ _) "lunch") _);
    evaluated.
Defined.

(** ** The kind of a new expense *)

Lemma startsWith_app (a b s : string) : startsWith (a +:+ b) s = true → startsWith a s = true.
Proof.
  revert s. induction a as [ | c a IH ]; intros s; [ done | ]. rewrite append_cons.
  destruct s as [ | x s ]; cbn [startsWith]; [ done | ].
  intros H. apply andb_true_iff in H as [-> H]. by apply IH.
Qed.

Lemma includes_app (s a b : string) : includes s (a +:+ b) = true → includes s a = true.
Proof.
  induction s as [ | c s IH ]; cbn [includes]; intros H; apply orb_true_iff in H as [H | H].
  - by rewrite (startsWith_app a b _ H).
  - done.
  - by rewrite (startsWith_app a b _ H).
  - rewrite (IH H). apply orb_true_r.
Qed.

(** X25. The kind of a new row is read from the text alone: [borrowed]
    when the lower-cased text contains "borr", else [lended] when it
    contains "len", else [expense]. The second test of the code, for
    "lend", adds nothing. *)
Theorem kind_read_from_text (o : llm_outcome) (cats : list Category.t) (text : string)
    (p : parsed) (Hrow : handleSubmit o cats text = Row p) :
  kind p = if includes (toLowerCase text) "borr" then "borrowed"
           else if includes (toLowerCase text) "len" then "lended"
           else "expense".
Proof.
  unfold handleSubmit in Hrow.
  destruct (bool_decide (trim text = "")); [ done | ].
  destruct (match_amount text) as [tok | ]; [ | done ]. cbv zeta in Hrow.
  destruct (Qle_bool (Number_token tok) 0); [ done | ].
  injection Hrow as <-. cbn [kind].
  destruct (includes (toLowerCase text) "borr"); [ done | ].
  destruct (includes (toLowerCase text) "len") eqn:E; [ done | ].
  destruct (includes (toLowerCase text) "lend") eqn:E'; [ | done ].
  apply (includes_app _ "len" "d") in E'. congruence.
Qed.

Lemma kind_read_from_text_lentils :
  kind (mk_parsed 80 "lended" "Food" (Val "c1") "lentils for dinner" (7 # 10)) = "lended".
Proof.
  exact (kind_read_from_text CallFailed food_other "80 lentils for dinner"
           (mk_parsed 80 "lended" "Food" (Val "c1") "lentils for dinner" (7 # 10))
           ltac:(vm_compute; reflexivity)).
Defined.

(** ** The category of a new expense *)

Lemma toLowerCase_empty (s : string) : toLowerCase s = "" → s = "".
Proof. by destruct s. Qed.

Lemma findCategoryIdByName_listed (cats : list Category.t) (name : string) :
  findCategoryIdByName cats name ≠ Undef ∧
  (∀ i, findCategoryIdByName cats name = Val i →
     ∃ c, c ∈ cats ∧ Category.id c = i ∧ Category.name c ≠ "") ∧
  (name ≠ "" → findCategoryIdByName cats name = Null →
     ∀ c, c ∈ cats → Category.name c ≠ "" →
          toLowerCase (Category.name c) ≠ toLowerCase (trim name) ∧
          includes (toLowerCase (Category.name c)) (toLowerCase (trim name)) = false ∧
          toLowerCase (Category.name c) ≠ "other").
Proof.
  unfold findCategoryIdByName. cbn [truthy].
  destruct (decide (name = "")) as [-> | Hname].
  { rewrite bool_decide_eq_true_2 by done. cbn [negb]. by repeat split. }
  rewrite bool_decide_eq_false_2 by done. cbn [negb].
  assert (Hfound : ∀ (f : Category.t → bool) found,
            List.find (λ c, negb (bool_decide (Category.name c = "")) && f c) cats
            = Some found →
            found ∈ cats ∧ Category.name found ≠ "").
  { intros f found H. apply List.find_some in H as [Hin H].
    apply andb_true_iff in H as [H _]. apply negb_true_iff, bool_decide_eq_false_1 in H.
    by rewrite list_elem_of_In. }
  assert (Hnone : ∀ (f : Category.t → bool),
            List.find (λ c, negb (bool_decide (Category.name c = "")) && f c) cats = None →
            ∀ c, c ∈ cats → Category.name c ≠ "" → f c = false).
  { intros f H c Hc Hn. apply list_elem_of_In in Hc.
    pose proof (List.find_none _ _ H c Hc) as Hf. cbn beta in Hf.
    by rewrite bool_decide_eq_false_2 in Hf. }
  destruct (List.find _ cats) as [c1 | ] eqn:E1.
  { destruct (Hfound _ _ E1). split; [ done | ]. split; [ | done ].
    intros i [= <-]. by exists c1. }
  destruct (List.find (λ c, _ && includes _ _) cats) as [c2 | ] eqn:E2.
  { destruct (Hfound _ _ E2). split; [ done | ]. split; [ | done ].
    intros i [= <-]. by exists c2. }
  destruct (List.find (λ c, _ && bool_decide (_ = "other")) cats) as [c3 | ] eqn:E3.
  { destruct (Hfound _ _ E3). split; [ done | ]. split; [ | done ].
    intros i [= <-]. by exists c3. }
  split; [ done | ]. split; [ done | ]. intros _ _ c Hc Hn.
  pose proof (Hnone _ E1 c Hc Hn) as H1. pose proof (Hnone _ E2 c Hc Hn) as H2.
  pose proof (Hnone _ E3 c Hc Hn) as H3. cbn beta in H1, H2, H3.
  apply bool_decide_eq_false_1 in H1, H3. done.
Qed.

Lemma by_pattern_listed (ps : list (string * list string)) (textLower : string)
    (cats : list Category.t) (r : result) :
  by_pattern ps textLower cats = Some r →
  ∃ c, c ∈ cats ∧ toLowerCase (Category.name c) = toLowerCase (category r).
Proof.
  induction ps as [ | [K words] ps IH ]; [ done | ]. cbn [by_pattern].
  destruct (test words textLower && existsb _ cats) eqn:E; [ | exact IH ].
  intros [= <-]. cbn [category]. apply andb_true_iff in E as [_ E].
  apply existsb_exists in E as (c & Hc & Hl). exists c.
  split; [ by apply list_elem_of_In | by apply bool_decide_eq_true_1 in Hl ].
Qed.

Lemma by_name_listed (cats : list Category.t) (textLower : string) (r : result) :
  by_name cats textLower = Some r → ∃ c, c ∈ cats ∧ Category.name c = category r.
Proof.
  induction cats as [ | cat cats IH ]; [ done | ]. cbn [by_name].
  destruct (existsb _ (split_ws textLower)).
  - intros [= <-]. exists cat. split; [ left | done ].
  - intros H. destruct (IH H) as (c & Hc & Hn). exists c. split; [ by right | done ].
Qed.

(** The keyword match names a listed category, up to the case of the
    letters, or says "Other". *)
Lemma manualCategorizeByKeyword_listed (text : string) (cats : list Category.t) :
  category (manualCategorizeByKeyword text cats) = "Other" ∨
  ∃ c, c ∈ cats ∧
       toLowerCase (Category.name c)
       = toLowerCase (category (manualCategorizeByKeyword text cats)).
Proof.
  unfold manualCategorizeByKeyword.
  destruct (by_pattern patterns (toLowerCase text) cats) as [r | ] eqn:E1.
  { right. by apply (by_pattern_listed patterns (toLowerCase text)). }
  destruct (by_name cats (toLowerCase text)) as [r | ] eqn:E2; [ | by left ].
  right. destruct (by_name_listed _ _ _ E2) as (c & Hc & Hn). exists c. by rewrite Hn.
Qed.

(** X26. The category of a new row. The category name is never empty and
    the category id is what [findCategoryIdByName] finds for it: never
    [undefined], and when it is an id, the id of a listed category with a
    name. It is not null when the list holds a category named "other" in any
    case of letters. When the resolver is unavailable the name is "Other"
    or the one the keyword match gives, which is the name of a listed
    category up to the case of the letters. *)
Theorem row_category_is_listed (o : llm_outcome) (cats : list Category.t) (text : string)
    (p : parsed) (Hrow : handleSubmit o cats text = Row p) :
  categoryName p ≠ "" ∧
  category_id p = findCategoryIdByName cats (categoryName p) ∧
  category_id p ≠ Undef ∧
  (∀ i, category_id p = Val i →
     ∃ c, c ∈ cats ∧ Category.id c = i ∧ Category.name c ≠ "") ∧
  ((∃ c, c ∈ cats ∧ toLowerCase (Category.name c) = "other") → category_id p ≠ Null) ∧
  (unavailable o = true →
     categoryName p = "Other" ∨
     (categoryName p = category (manualCategorizeByKeyword (trim text) cats) ∧
      ∃ c, c ∈ cats ∧ toLowerCase (Category.name c) = toLowerCase (categoryName p))).
Proof.
  unfold handleSubmit in Hrow.
  destruct (bool_decide (trim text = "")) eqn:Ht; [ done | ].
  apply bool_decide_eq_false_1 in Ht.
  destruct (match_amount text) as [tok | ]; [ | done ]. cbv zeta in Hrow.
  destruct (Qle_bool (Number_token tok) 0); [ done | ].
  injection Hrow as <-. cbn [categoryName category_id].
  set (r := categorizeExpenseWithLLM o (trim text) cats).
  set (name := if truthy (Val (category r)) then category r else "Other").
  assert (Hname : name ≠ "").
  { subst name. cbn [truthy]. destruct (decide (category r = "")) as [E | E].
    - by rewrite bool_decide_eq_true_2.
    - by rewrite bool_decide_eq_false_2. }
  destruct (findCategoryIdByName_listed cats name) as (H1 & H2 & H3).
  split; [ done | ]. split; [ done | ]. split; [ done | ]. split; [ done | ]. split.
  - intros (c & Hc & Hother) Hnull.
    assert (Hn : Category.name c ≠ "").
    { intros E. rewrite E in Hother. done. }
    by destruct (H3 Hname Hnull c Hc Hn) as (_ & _ & H).
  - intros Ho. subst name r.
    rewrite (fallback_is_keyword_match o (trim text) cats Ho).
    + cbn [truthy]. destruct (bool_decide _); cbn [negb]; [ by left | ].
      destruct (manualCategorizeByKeyword_listed (trim text) cats) as [E | Hc];
        [ by left | by right ].
    + intros E. apply Ht. by apply trim_trim_empty.
Qed.

Lemma row_category_is_listed_lunch :
  category_id (mk_parsed 250 "expense" "Food" (Val "c1") "lunch with friends" (7 # 10))
  ≠ Undef.
Proof.
  exact (proj1 (proj2 (proj2
           (row_category_is_listed CallFailed food_other "250 lunch with friends"
              (mk_parsed 250 "expense" "Food" (Val "c1") "lunch with friends" (7 # 10))
              ltac:(vm_compute; reflexivity))))).
Defined.
